(** * mini-mvc-framework: a shallow embedding of the blog application

    The development follows [app.py] (models, controllers, the dispatch
    adapter, the route table and the transport handler) and the framework
    packages it imports ([core.request], [core.response], [core.router],
    [models.base], [models.fields], [controllers.model_controller]).

    Python objects are modelled as data: a [dict] used as a mapping is a
    [gmap], the ordered rows of a table and the entries of a JSON object are
    lists, an exception is a constructor of [exn] and a computation that
    reads the clock, touches the model storage and may raise is a value of
    the monad [py]. *)

From Stdlib Require Import ZArith Ascii String.
From stdpp Require Import base option list gmap strings pretty sorting.

Set Warnings "-register-all".
Open Scope string_scope.
Open Scope list_scope.
Open Scope Z_scope.

(** ** Python values *)

(** The values that travel through the application: what [json.loads]
    produces, what a model attribute holds, what a keyword argument is.
    A float is kept as its exact dyadic value [m * 2^e]. *)
Inductive value : Type :=
| VNone
| VBool (b : bool)
| VInt (n : Z)
| VFloat (m e : Z)
| VStr (s : string)
| VDatetime (t : Z)
| VList (l : list value)
| VDict (d : list (string * value)).

(** A JSON object as [json.loads] returns it: keys in document order. *)
Definition jobject : Type := list (string * value).

(** [dict(obj)] as a mapping; a key met twice keeps its last value. *)
Definition to_mapping (d : jobject) : gmap string value :=
  foldl (fun m kv => <[kv.1 := kv.2]> m) ∅ d.

(** ** Exceptions and results *)

Inductive exn : Type :=
| ValidationError (msg : string)
| ObjectDoesNotExist (msg : string)
| ValueError (msg : string)
| TypeError (msg : string)
| AttributeError (msg : string)
| UnicodeDecodeError (msg : string).

(** [str(e)] *)
Definition exn_str (e : exn) : string :=
  match e with
  | ValidationError m | ObjectDoesNotExist m | ValueError m
  | TypeError m | AttributeError m | UnicodeDecodeError m => m
  end.

Definition is_ValidationError (e : exn) : bool :=
  match e with ValidationError _ => true | _ => false end.

Definition is_ObjectDoesNotExist (e : exn) : bool :=
  match e with ObjectDoesNotExist _ => true | _ => false end.

Inductive result (A : Type) : Type :=
| Ok (a : A)
| Raise (e : exn).
Arguments Ok {A} a.
Arguments Raise {A} e.

Definition result_bind {A B} (r : result A) (k : A -> result B) : result B :=
  match r with
  | Ok a => k a
  | Raise e => Raise e
  end.

(** ** Text *)

(** Python text is modelled by strings of code points below 256: what the
    transport, which decodes the request line and the headers as
    ISO-8859-1, delivers in a path or in a header. *)

(** The blanks that [int()] strips from a text: the ASCII ones and, below
    256, the two other blanks of Unicode (NEL and the no-break space).
    The separators 28 to 31 are not among them. *)
Definition is_space (c : ascii) : bool :=
  let n := nat_of_ascii c in
  (((9 <=? n) && (n <=? 13)) || (n =? 32) || (n =? 133) || (n =? 160))%nat.

Definition is_digit (c : ascii) : bool :=
  let n := nat_of_ascii c in ((48 <=? n) && (n <=? 57))%nat.

Definition digit_val (c : ascii) : Z := Z.of_nat (nat_of_ascii c) - 48.

(** [str.upper] on the ASCII letters (methods are ASCII tokens). *)
Definition upper_char (c : ascii) : ascii :=
  let n := nat_of_ascii c in
  if ((97 <=? n) && (n <=? 122))%nat then ascii_of_nat (n - 32) else c.

Fixpoint py_upper (s : string) : string :=
  match s with
  | EmptyString => EmptyString
  | String c r => String (upper_char c) (py_upper r)
  end.

(** [str.lower] below 256: the ASCII capitals and the accented capitals of
    Latin-1 (the multiplication sign 215 is no letter). *)
Definition lower_char (c : ascii) : ascii :=
  let n := nat_of_ascii c in
  if (((65 <=? n) && (n <=? 90))
      || ((192 <=? n) && (n <=? 222) && negb (n =? 215)))%nat
  then ascii_of_nat (n + 32) else c.

Fixpoint py_lower (s : string) : string :=
  match s with
  | EmptyString => EmptyString
  | String c r => String (lower_char c) (py_lower r)
  end.

(** [s.split(sep)] for a one-character separator: never empty. *)
Fixpoint split_on (sep : ascii) (s : string) : list string :=
  match s with
  | EmptyString => [EmptyString]
  | String c r =>
      if Ascii.eqb c sep then EmptyString :: split_on sep r
      else match split_on sep r with
           | h :: t => String c h :: t
           | [] => [String c EmptyString]
           end
  end.

(** [s.split(sep, 1)]: the text before the first [sep], and the text after
    it when there is one. *)
Fixpoint split_once (sep : ascii) (s : string) : string * option string :=
  match s with
  | EmptyString => (EmptyString, None)
  | String c r =>
      if Ascii.eqb c sep then (EmptyString, Some r)
      else let '(h, t) := split_once sep r in (String c h, t)
  end.

Fixpoint lstrip (s : string) : string :=
  match s with
  | String c r => if is_space c then lstrip r else s
  | EmptyString => EmptyString
  end.

Fixpoint rstrip (s : string) : string :=
  match s with
  | EmptyString => EmptyString
  | String c r =>
      match rstrip r with
      | EmptyString => if is_space c then EmptyString else String c EmptyString
      | r' => String c r'
      end
  end.

(** [c] does not occur in [s]. *)
Fixpoint no_char (c : ascii) (s : string) : bool :=
  match s with
  | EmptyString => true
  | String d r => negb (Ascii.eqb d c) && no_char c r
  end.

(** ** [repr()] of a text *)

Definition sq : string := "'".

Definition dq : string := String "034"%char EmptyString.

Definition backslash : string := String "092"%char EmptyString.

Definition hex_digit (n : nat) : string :=
  String.substring n 1 "0123456789abcdef".

(** The characters below 256 that [repr] writes as they are. *)
Definition is_printable (c : ascii) : bool :=
  let n := nat_of_ascii c in
  (((32 <=? n) && (n <=? 126)) || ((161 <=? n) && (n <=? 172)) || (174 <=? n))%nat.

(** One character inside the quotes [quote]: the backslash and the quote
    are escaped, tab, newline and return have their letter, any other
    character that cannot be printed is written in hexadecimal. *)
Definition repr_char (quote : string) (c : ascii) : string :=
  let n := nat_of_ascii c in
  if String.eqb (String c EmptyString) backslash then backslash +:+ backslash
  else if String.eqb (String c EmptyString) quote then backslash +:+ quote
  else if (n =? 9)%nat then backslash +:+ "t"
  else if (n =? 10)%nat then backslash +:+ "n"
  else if (n =? 13)%nat then backslash +:+ "r"
  else if is_printable c then String c EmptyString
  else backslash +:+ "x" +:+ hex_digit (n / 16) +:+ hex_digit (n mod 16).

Fixpoint repr_chars (quote : string) (s : string) : string :=
  match s with
  | EmptyString => EmptyString
  | String c r => repr_char quote c +:+ repr_chars quote r
  end.

(** [repr(s)]: between single quotes, or between double quotes when the
    text has a single quote and no double quote. *)
Definition py_repr (s : string) : string :=
  let quote := if negb (no_char "'" s) && no_char "034" s then dq else sq in
  quote +:+ repr_chars quote s +:+ quote.

(** ** The host runtime *)

(** What the application takes from the Python runtime and its standard
    library: the JSON codec ([None] when [json.loads] raises), the UTF-8
    codec (the text, or the message of the [UnicodeDecodeError]), the text
    form of a timestamp, the limit on the number of digits that [int()]
    converts ([sys.get_int_max_str_digits()], 4300 unless configured, 0 for
    no limit) and the policy of an integer field for text that reads as a
    number (coerce it or reject it). *)
Record runtime : Type := {
  json_loads : string -> option value;
  json_dumps : value -> string;
  utf8_decode : list Byte.byte -> string + string;
  isoformat : Z -> string;
  int_max_str_digits : N;
  coerce_numeric_text : bool
}.

(** ** [int()] *)

(** The run of digits at the head of a base-10 literal: single underscores
    are allowed between digits. The result is the value of the run, the
    number of its digits and the text that follows it; [None] when the run
    is empty or an underscore is misplaced. [after_digit] tells whether the
    previous character was a digit. *)
Fixpoint int_digits (acc : Z) (count : N) (after_digit : bool) (s : string)
    : option (Z * N * string) :=
  match s with
  | EmptyString => if after_digit then Some (acc, count, EmptyString) else None
  | String c r =>
      if is_digit c then int_digits (10 * acc + digit_val c) (count + 1) true r
      else if Ascii.eqb c "_" then
        if after_digit then int_digits acc count false r else None
      else if after_digit then Some (acc, count, s) else None
  end.

(** What [int(s)] makes of a text. *)
Inductive int_reading : Type :=
| IntValue (n : Z)
| IntInvalid
| IntTooLong (digits : N).

(** The limit applies to runs of more than 640 digits, and a limit of 0
    switches it off. *)
Definition over_limit (limit digits : N) : bool :=
  ((0 <? limit) && (limit <? digits) && (640 <? digits))%N.

(** [int(s)] for a text [s]: surrounding blanks, an optional sign, a run of
    digits. The number of digits is checked against the limit as soon as
    the run is read, before what follows it is looked at; a text that
    passes must end with the run. Python integers are unbounded. *)
Definition read_int (limit : N) (s : string) : int_reading :=
  let t := rstrip (lstrip s) in
  let '(negative, run) :=
    match t with
    | String "+" r => (false, r)
    | String "-" r => (true, r)
    | _ => (false, t)
    end in
  match int_digits 0 0 false run with
  | None => IntInvalid
  | Some (n, digits, rest) =>
      if over_limit limit digits then IntTooLong digits
      else match rest with
           | EmptyString => IntValue (if negative then - n else n)
           | _ => IntInvalid
           end
  end.

(** [int(s)] where it returns; [None] stands for [ValueError]. *)
Definition int_of_str (E : runtime) (s : string) : option Z :=
  match read_int (int_max_str_digits E) s with
  | IntValue n => Some n
  | _ => None
  end.

(** The message of the [ValueError] of [int(s)]: the limit that was
    exceeded, or the first 200 characters of [repr(s)]. *)
Definition int_message (E : runtime) (s : string) : string :=
  match read_int (int_max_str_digits E) s with
  | IntTooLong digits =>
      "Exceeds the limit (" +:+ pretty (int_max_str_digits E)
      +:+ " digits) for integer string conversion: value has " +:+ pretty digits
      +:+ " digits; use sys.set_int_max_str_digits() to increase the limit"
  | _ => "invalid literal for int() with base 10: " +:+ String.substring 0 200 (py_repr s)
  end.

(** The truncation of the float [m * 2^e] towards zero. *)
Definition float_trunc (m e : Z) : Z :=
  if 0 <=? e then m * 2 ^ e else Z.quot m (2 ^ (- e)).

Definition int_type_error (type_name : string) : exn :=
  TypeError ("int() argument must be a string, a bytes-like object or a real number, not '"
             +:+ type_name +:+ "'").

(** [int(v)] *)
Definition py_int (E : runtime) (v : value) : result Z :=
  match v with
  | VInt n => Ok n
  | VBool b => Ok (if b then 1 else 0)
  | VFloat m e => Ok (float_trunc m e)
  | VStr s =>
      match int_of_str E s with
      | Some n => Ok n
      | None => Raise (ValueError (int_message E s))
      end
  | VNone => Raise (int_type_error "NoneType")
  | VDatetime _ => Raise (int_type_error "datetime.datetime")
  | VList _ => Raise (int_type_error "list")
  | VDict _ => Raise (int_type_error "dict")
  end.

(** [v == n] for an integer [n]: booleans and floats compare by value. *)
Definition py_eq_int (v : value) (n : Z) : bool :=
  match v with
  | VInt m => m =? n
  | VBool b => (if b then 1 else 0) =? n
  | VFloat m e => if 0 <=? e then m * 2 ^ e =? n else m =? n * 2 ^ (- e)
  | _ => false
  end.

(** A path segment written with decimal digits only, and its value. *)
Fixpoint all_digits (s : string) : bool :=
  match s with
  | EmptyString => true
  | String c r => is_digit c && all_digits r
  end.

Definition is_decimal (s : string) : bool :=
  match s with
  | EmptyString => false
  | _ => all_digits s
  end.

Fixpoint decimal_value (acc : Z) (s : string) : Z :=
  match s with
  | EmptyString => acc
  | String c r => decimal_value (10 * acc + digit_val c) r
  end.

(** The segment has no more digits than [int()] converts. *)
Definition digits_allowed (E : runtime) (s : string) : bool :=
  negb (over_limit (int_max_str_digits E) (N.of_nat (String.length s))).

(** ** core.request *)

Module Request.

(** Modelled from the spec: the request value object ([core/request.py] is
    not among the sources): method, path without the query string, query
    parameters, headers, raw body ([None] when the caller gave none) and
    the path parameters of the matched route. *)
Record t : Type := {
  method : string;
  path : string;
  query_params : gmap string string;
  headers : gmap string string;
  body : option string;
  path_params : gmap string string
}.

(** Modelled from the spec: the query parameters, the [key=value] pairs of
    the query string; a later pair of the same key wins. *)
Definition parse_query (q : string) : gmap string string :=
  foldl (fun m pair =>
           match split_once "=" pair with
           | (k, Some v) => <[k := v]> m
           | (_, None) => m
           end) ∅ (split_on "&" q).

(** Modelled from the spec: the constructor of [Request] ([core/request.py]
    is not among the sources). The method is uppercased, the query string
    is parsed apart from the path and the path parameters start empty. *)
Definition init (meth rawpath : string) (bdy : option string)
    (hdrs : gmap string string) : t :=
  let '(p, q) := split_once "?" rawpath in
  {| method := py_upper meth;
     path := p;
     query_params := from_option parse_query ∅ q;
     headers := hdrs;
     body := bdy;
     path_params := ∅ |}.

(** [r.path_params = ps] *)
Definition with_path_params (r : t) (ps : gmap string string) : t :=
  {| method := method r; path := path r; query_params := query_params r;
     headers := headers r; body := body r; path_params := ps |}.

(** [json.loads(body)]: a [TypeError] when there is no body, a
    [JSONDecodeError], which is a [ValueError], when the text is not JSON. *)
Definition loads (E : runtime) (bdy : option string) : result value :=
  match bdy with
  | None =>
      Raise (TypeError "the JSON object must be str, bytes or bytearray, not NoneType")
  | Some text =>
      match json_loads E text with
      | Some v => Ok v
      | None => Raise (ValueError "Expecting value")
      end
  end.

(** [try: m  except Exception: h] on a result. *)
Definition guarded {A} (m : result A) (h : exn -> result A) : result A :=
  match m with
  | Ok a => Ok a
  | Raise e => h e
  end.

(** Modelled from the spec: the call [Request.json()] ([core/request.py] is
    not among the sources). The body is parsed under a guard: whatever the
    parser raises is caught and the empty mapping returned; a JSON value
    that is not an object gives the empty mapping too. *)
Definition json_call (E : runtime) (r : t) : result (gmap string value) :=
  guarded
    (result_bind (loads E (body r)) (fun v =>
       Ok (match v with
           | VDict d => to_mapping d
           | _ => ∅
           end)))
    (fun _ => Ok ∅).

(** The mapping that [Request.json()] returns: that of the JSON object of
    the body, empty for an absent body, a body that the parser rejects and
    a body that is not a JSON object. *)
Definition json (E : runtime) (r : t) : gmap string value :=
  match body r with
  | None => ∅
  | Some text =>
      match json_loads E text with
      | Some (VDict d) => to_mapping d
      | _ => ∅
      end
  end.

End Request.

(** ** core.response *)

Module Response.

(** Modelled from the spec: the response value object ([core/response.py]
    is not among the sources): status code, headers with a [Content-Type],
    body text. *)
Record t : Type := {
  status : Z;
  headers : gmap string string;
  body : string
}.

(** Modelled from the spec: the constructor of [Response]. *)
Definition init (bdy : string) (st : Z) (content_type : string) : t :=
  {| status := st; headers := {[ "Content-Type" := content_type ]}; body := bdy |}.

(** Modelled from the spec: the named factories of [Response]
    ([core/response.py] is not among the sources). Each fixes the status
    and the content type; an error body is a JSON object with an [error]
    key. *)
Definition json (E : runtime) (data : value) (st : Z) : t :=
  init (json_dumps E data) st "application/json".

(** Modelled from the spec: [Response.created], status 201. *)
Definition created (E : runtime) (data : value) : t := json E data 201.

(** Modelled from the spec: [Response.not_found], status 404. *)
Definition not_found (E : runtime) : t :=
  json E (VDict [("error", VStr "Not Found")]) 404.

(** Modelled from the spec: [Response.bad_request], status 400 with the
    message. *)
Definition bad_request (E : runtime) (message : string) : t :=
  json E (VDict [("error", VStr message)]) 400.

End Response.

(** ** core.router *)

Module Router.

(** Modelled from the spec: a compiled path pattern ([core/router.py] is not
    among the sources) is a sequence of literal segments and named
    placeholders. *)
Inductive segment : Type :=
| Lit (s : string)
| Param (name : string).

(** Modelled from the spec: [<name>] is a placeholder, anything else a
    literal. *)
Definition compile_segment (s : string) : segment :=
  match s with
  | String "<" r =>
      match split_once ">" r with
      | (name, Some EmptyString) => Param name
      | _ => Lit s
      end
  | _ => Lit s
  end.

(** Modelled from the spec: the compilation of a pattern, segment by
    segment. *)
Definition compile (pattern : string) : list segment :=
  compile_segment <$> split_on "/" pattern.

Section WithHandler.
Context {H : Type}.

(** Modelled from the spec: a route is a method, a compiled pattern and the
    bound handler ([app.py] reads the keys [method] and [regex]). *)
Record route : Type := {
  r_method : string;
  r_regex : list segment;
  r_handler : H
}.

(** The routes, in registration order. *)
Definition t : Type := list route.

(** Modelled from the spec: registration appends a route, its method
    normalised to upper case. *)
Definition add_route (meth pattern : string) (handler : H) (router : t) : t :=
  router ++ [ {| r_method := py_upper meth; r_regex := compile pattern;
                 r_handler := handler |} ].

Definition get (pattern : string) (handler : H) (router : t) : t :=
  add_route "GET" pattern handler router.

Definition post (pattern : string) (handler : H) (router : t) : t :=
  add_route "POST" pattern handler router.

(** Modelled from the spec: the matcher of a compiled pattern. Segment by
    segment: the same number of segments, literals equal, placeholders
    captured verbatim into [acc]. *)
Fixpoint match_segments (pat : list segment) (segs : list string)
    (acc : gmap string string) : option (gmap string string) :=
  match pat, segs with
  | [], [] => Some acc
  | Lit l :: pat', s :: segs' =>
      if String.eqb l s then match_segments pat' segs' acc else None
  | Param name :: pat', s :: segs' =>
      match_segments pat' segs' (<[name := s]> acc)
  | _, _ => None
  end.

(** Modelled from the spec: a route matches a request when the methods are
    equal up to case and the pattern accepts the whole path. *)
Definition route_match (r : route) (req : Request.t) : option (gmap string string) :=
  if String.eqb (py_upper (r_method r)) (py_upper (Request.method req))
  then match_segments (r_regex r) (split_on "/" (Request.path req)) ∅
  else None.

(** Modelled from the spec: [Router.match] ([core/router.py] is not among
    the sources). The first route that matches wins; its captures become
    the request's path parameters; when none matches the request is
    returned as it was, with no handler. *)
Fixpoint match_ (router : t) (req : Request.t) : option H * Request.t :=
  match router with
  | [] => (None, req)
  | r :: rest =>
      match route_match r req with
      | Some ps => (Some (r_handler r), Request.with_path_params req ps)
      | None => match_ rest req
      end
  end.

End WithHandler.
Arguments route H : clear implicits.
Arguments t H : clear implicits.

End Router.

(** ** models.fields *)

(** Modelled from the spec: the kinds of field ([models/fields.py] is not
    among the sources). *)
Inductive kind : Type := Text | Integer | Datetime.

(** Modelled from the spec: a field describes constraints only; it holds no
    value. *)
Record Field : Type := {
  f_kind : kind;
  max_length : option nat;
  required : bool;
  auto_now : bool
}.

(** The constructors of the three field classes, with the keyword arguments
    that [app.py] and the tests pass. *)
Definition CharField (max_len : option nat) (req : bool) : Field :=
  {| f_kind := Text; max_length := max_len; required := req; auto_now := false |}.

Definition IntegerField (req : bool) : Field :=
  {| f_kind := Integer; max_length := None; required := req; auto_now := false |}.

Definition DateTimeField (auto : bool) : Field :=
  {| f_kind := Datetime; max_length := None; required := false; auto_now := auto |}.

Module Fields.

Definition fails {A} (name why : string) : result A :=
  Raise (ValidationError (name +:+ ": " +:+ why)).

(** Modelled from the spec: the check of a supplied value against the kind
    of the field. A text field takes text no longer than [max_length]; an
    integer field takes an integer, and text that reads as one when the
    runtime coerces; a datetime field takes a timestamp. *)
Definition check_kind (E : runtime) (name : string) (f : Field) (v : value)
    : result value :=
  match f_kind f with
  | Text =>
      match v with
      | VStr s =>
          match max_length f with
          | Some m =>
              if (String.length s <=? m)%nat then Ok v
              else fails name "value is too long"
          | None => Ok v
          end
      | _ => fails name "value must be text"
      end
  | Integer =>
      match v with
      | VInt n => Ok (VInt n)
      | VStr s =>
          if coerce_numeric_text E then
            match int_of_str E s with
            | Some n => Ok (VInt n)
            | None => fails name "value must be an integer"
            end
          else fails name "value must be an integer"
      | _ => fails name "value must be an integer"
      end
  | Datetime =>
      match v with
      | VDatetime t => Ok v
      | _ => fails name "value must be a datetime"
      end
  end.

(** Modelled from the spec: the validation of one raw value by a field
    ([models/fields.py] is not among the sources). [None] is a value that
    was never supplied. An [auto_now] field ignores what it is given; a
    required field fails on an absent value; a supplied value is checked
    against the kind. *)
Definition validate (E : runtime) (name : string) (f : Field)
    (raw : option value) : result (option value) :=
  if auto_now f then Ok raw
  else match raw with
       | None => if required f then fails name "this field is required" else Ok None
       | Some v => result_bind (check_kind E name f v) (fun v' => Ok (Some v'))
       end.

End Fields.

(** ** The model storage and the monad of the application *)

(** Modelled from the spec: a model type is its name and its schema, the
    ordered list of the declared attributes ([models/base.py] is not among
    the sources). *)
Record Model : Type := {
  model_name : string;
  schema : list (string * Field)
}.

(** Modelled from the spec: one table per model type, the stored records in
    insertion order, keyed by id, and the counter that gives the next id. *)
Record table : Type := {
  rows : list (Z * gmap string value);
  next_id : Z
}.

Definition empty_table : table := {| rows := []; next_id := 1 |}.

Abbreviation storage := (gmap string table).

Definition table_of (st : storage) (M : Model) : table :=
  default empty_table (st !! model_name M).

Section Rows.
Context {A : Type}.

Fixpoint row_get (i : Z) (rs : list (Z * A)) : option A :=
  match rs with
  | [] => None
  | (j, a) :: rest => if i =? j then Some a else row_get i rest
  end.

(** [d[i] = a] on an insertion-ordered dict: a known key keeps its place,
    a new key goes last. *)
Fixpoint row_put (i : Z) (a : A) (rs : list (Z * A)) : list (Z * A) :=
  match rs with
  | [] => [(i, a)]
  | (j, b) :: rest => if i =? j then (j, a) :: rest else (j, b) :: row_put i a rest
  end.

Fixpoint row_del (i : Z) (rs : list (Z * A)) : list (Z * A) :=
  match rs with
  | [] => []
  | (j, b) :: rest => if i =? j then rest else (j, b) :: row_del i rest
  end.
End Rows.

(** A computation of the application: it may read the clock ([now], the
    reading of [datetime.now()] while the request is handled), read and
    write the model storage, and return or raise. What it wrote before
    raising stays written. *)
Definition py (A : Type) : Type := Z -> storage -> result A * storage.

Definition ret {A} (a : A) : py A := fun _ st => (Ok a, st).

Definition raise {A} (e : exn) : py A := fun _ st => (Raise e, st).

Definition lift {A} (r : result A) : py A := fun _ st => (r, st).

Definition bind {A B} (m : py A) (k : A -> py B) : py B :=
  fun now st =>
    match m now st with
    | (Ok a, st') => k a now st'
    | (Raise e, st') => (Raise e, st')
    end.

(** [try: m  except Exception as e: h e] *)
Definition try_except {A} (m : py A) (h : exn -> py A) : py A :=
  fun now st =>
    match m now st with
    | (Ok a, st') => (Ok a, st')
    | (Raise e, st') => h e now st'
    end.

Notation "'let*' x ':=' m 'in' k" := (bind m (fun x => k))
  (at level 10, x name, m at level 100, k at level 200).

(** ** models.base *)

(** Modelled from the spec: a model instance knows its type, has an id once
    it is persisted and holds the values of its attributes. *)
Record instance : Type := {
  inst_model : Model;
  inst_id : option Z;
  inst_attrs : gmap string value
}.

Module Models.

(** [instance.name]; an attribute that was never set reads as [None]. *)
Definition attr (i : instance) (name : string) : value :=
  default VNone (inst_attrs i !! name).

(** [instance.name = v] *)
Definition set_attr (name : string) (v : value) (i : instance) : instance :=
  {| inst_model := inst_model i; inst_id := inst_id i;
     inst_attrs := <[name := v]> (inst_attrs i) |}.

(** Modelled from the spec: the constructor [M] with keyword arguments
    [kw] gives an unsaved instance holding the supplied values of the
    attributes of the schema. *)
Definition construct (M : Model) (kw : gmap string value) : instance :=
  {| inst_model := M; inst_id := None;
     inst_attrs := filter (fun kv => kv.1 ∈ (schema M).*1) kw |}.

(** Modelled from the spec: every field validates its current value; the
    first failure is the one surfaced. The result holds the normalised
    values. *)
Fixpoint validate_fields (E : runtime) (fields : list (string * Field))
    (vals : gmap string value) : result (gmap string value) :=
  match fields with
  | [] => Ok ∅
  | (name, f) :: rest =>
      result_bind (Fields.validate E name f (vals !! name)) (fun v =>
      result_bind (validate_fields E rest vals) (fun m =>
      Ok (match v with Some v' => <[name := v']> m | None => m end)))
  end.

(** Modelled from the spec: the [auto_now] fields take the current
    timestamp. *)
Definition stamp (now : Z) (fields : list (string * Field))
    (vals : gmap string value) : gmap string value :=
  foldr (fun nf m => if auto_now nf.2 then <[nf.1 := VDatetime now]> m else m)
        vals fields.

(** Modelled from the spec: the [auto_now] fields keep the values of the
    stored record [old], whatever the instance holds for them; a field
    that the record lacks stays unset. *)
Definition keep_stamps (old : gmap string value) (fields : list (string * Field))
    (vals : gmap string value) : gmap string value :=
  foldr (fun nf m =>
           if auto_now nf.2 then
             match old !! nf.1 with
             | Some v => <[nf.1 := v]> m
             | None => delete nf.1 m
             end
           else m)
        vals fields.

Definition put_table (M : Model) (tb : table) (st : storage) : storage :=
  <[model_name M := tb]> st.

(** Modelled from the spec: [save()] ([models/base.py] is not among the
    sources). All current values are validated again; on a failure the
    storage is left as it is. An instance persisted for the first time
    takes the next id and its [auto_now] values and is inserted; a
    persisted one overwrites the record at its id, where the [auto_now]
    fields keep what was computed when the record was first persisted: a
    value that the caller assigned to such a field is ignored. *)
Definition save (E : runtime) (i : instance) : py instance :=
  fun now st =>
    let M := inst_model i in
    match validate_fields E (schema M) (inst_attrs i) with
    | Raise e => (Raise e, st)
    | Ok vals =>
        let tb := table_of st M in
        match inst_id i with
        | None =>
            let n := next_id tb in
            let vals' := stamp now (schema M) vals in
            (Ok {| inst_model := M; inst_id := Some n; inst_attrs := vals' |},
             put_table M {| rows := row_put n vals' (rows tb); next_id := n + 1 |} st)
        | Some n =>
            let old := default ∅ (row_get n (rows tb)) in
            let vals' := keep_stamps old (schema M) vals in
            (Ok {| inst_model := M; inst_id := Some n; inst_attrs := vals' |},
             put_table M {| rows := row_put n vals' (rows tb); next_id := next_id tb |} st)
        end
    end.

(** Modelled from the spec: [M.create] with keyword arguments [kw]: the
    instance is built from the schema and saved. *)
Definition create (E : runtime) (M : Model) (kw : gmap string value) : py instance :=
  save E (construct M kw).

Definition of_row (M : Model) (r : Z * gmap string value) : instance :=
  {| inst_model := M; inst_id := Some r.1; inst_attrs := r.2 |}.

(** Modelled from the spec: [M.get(id)]. *)
Definition get (M : Model) (i : Z) : py instance :=
  fun _ st =>
    match row_get i (rows (table_of st M)) with
    | Some vals => (Ok (of_row M (i, vals)), st)
    | None => (Raise (ObjectDoesNotExist (model_name M +:+ " matching query does not exist")), st)
    end.

(** Modelled from the spec: [M.all()] and [M.count()]. *)
Definition all (M : Model) : py (list instance) :=
  fun _ st => (Ok (of_row M <$> rows (table_of st M)), st).

Definition count (M : Model) : py Z :=
  fun _ st => (Ok (Z.of_nat (length (rows (table_of st M)))), st).

(** Modelled from the spec: the removal of a persisted instance. The
    record goes, the id counter stays. *)
Definition delete (i : instance) : py unit :=
  fun _ st =>
    match inst_id i with
    | None => (Ok tt, st)
    | Some n =>
        let M := inst_model i in
        let tb := table_of st M in
        (Ok tt, put_table M {| rows := row_del n (rows tb); next_id := next_id tb |} st)
    end.

(** Modelled from the spec: [Model._clear_storage()], the reset of every
    table and id counter. *)
Definition _clear_storage : py unit := fun _ _ => (Ok tt, ∅).

Definition render (E : runtime) (v : value) : value :=
  match v with
  | VDatetime t => VStr (isoformat E t)
  | _ => v
  end.

(** Modelled from the spec: [to_dict()], the id and every attribute of the
    schema, timestamps as text. *)
Definition to_dict (E : runtime) (i : instance) : value :=
  VDict (("id", from_option VInt VNone (inst_id i))
         :: ((fun nf => (nf.1, render E (attr i nf.1))) <$> schema (inst_model i))).

End Models.

(** ** controllers *)

(** [self]: a controller holds the request it serves and the model of its
    class. *)
Record controller : Type := {
  c_request : Request.t;
  c_model : Model
}.

(** A bound method: the names it declares after [self], and its body, which
    reads its arguments by name. None of the methods that [app.py] binds
    gives a parameter a default value, and the record has no place for one:
    every declared parameter is required. *)
Record method : Type := {
  m_params : list string;
  m_body : controller -> gmap string value -> py Response.t
}.

Record controller_class : Type := {
  cc_model : Model;
  cc_methods : gmap string method
}.

Definition handler : Type := Request.t -> py Response.t.

(** The call of [func] with keyword arguments [kwargs]: a keyword that the
    method does not declare, or a declared parameter left without a value,
    is a [TypeError]. *)
Definition call_method (func : method) (self : controller)
    (kwargs : gmap string value) : py Response.t :=
  if bool_decide (map_Forall (fun k _ => k ∈ m_params func) kwargs) then
    if forallb (fun p => bool_decide (is_Some (kwargs !! p))) (m_params func) then
      m_body func self kwargs
    else raise (TypeError "missing a required argument")
  else raise (TypeError "got an unexpected keyword argument").

(** The value of the declared parameter [name] inside a body. *)
Definition arg (name : string) (args : gmap string value)
    (k : value -> py Response.t) : py Response.t :=
  match args !! name with
  | Some v => k v
  | None => raise (TypeError "missing a required argument")
  end.

Module ModelController.
Section WithRuntime.
Context (E : runtime).

(** Modelled from the spec: the generic operations of [ModelController]
    ([controllers/model_controller.py] is not among the sources). [list()]
    answers 200 with every instance in table order. *)
Definition list : method :=
  {| m_params := [];
     m_body := fun self _ =>
       let* instances := Models.all (c_model self) in
       ret (Response.json E (VList (Models.to_dict E <$> instances)) 200) |}.

(** Modelled from the spec: [create()] parses the body and creates; a
    validation failure becomes a 400 response. *)
Definition create : method :=
  {| m_params := [];
     m_body := fun self _ =>
       let* data := lift (Request.json_call E (c_request self)) in
       try_except
         (let* instance := Models.create E (c_model self) data in
          ret (Response.created E (Models.to_dict E instance)))
         (fun e =>
            if is_ValidationError e then ret (Response.bad_request E (exn_str e))
            else raise e) |}.

(** Modelled from the spec: [retrieve(id)] converts the id and looks it up;
    a missing record becomes a 404 response. *)
Definition retrieve : method :=
  {| m_params := ["id"];
     m_body := fun self args =>
       arg "id" args (fun id =>
       let* n := lift (py_int E id) in
       try_except
         (let* instance := Models.get (c_model self) n in
          ret (Response.json E (Models.to_dict E instance) 200))
         (fun e =>
            if is_ObjectDoesNotExist e then ret (Response.not_found E)
            else raise e)) |}.

Definition methods : gmap string method :=
  <["list" := list]> (<["create" := create]> (<["retrieve" := retrieve]> ∅)).

Definition class (M : Model) : controller_class :=
  {| cc_model := M; cc_methods := methods |}.
End WithRuntime.
End ModelController.

(** ** app.py: models *)

Definition User : Model :=
  {| model_name := "User";
     schema := [("name", CharField (Some 100%nat) true);
                ("email", CharField (Some 200%nat) true);
                ("created_at", DateTimeField true)] |}.

Definition Post : Model :=
  {| model_name := "Post";
     schema := [("title", CharField (Some 200%nat) true);
                ("content", CharField (Some 5000%nat) false);
                ("author_id", IntegerField true);
                ("created_at", DateTimeField true)] |}.

Definition Comment : Model :=
  {| model_name := "Comment";
     schema := [("post_id", IntegerField true);
                ("content", CharField (Some 500%nat) true);
                ("author_id", IntegerField true);
                ("created_at", DateTimeField true)] |}.

(** ** test_framework.py: the model of the tests *)

Definition TestUser : Model :=
  {| model_name := "TestUser";
     schema := [("name", CharField None true); ("age", IntegerField false)] |}.

(** ** app.py: controllers *)

(** [[c for c in cs if keep c]] where the test may raise: the test is run
    once per element, in order, and the first failure ends the loop. *)
Fixpoint filter_raising {A} (keep : A -> result bool) (cs : list A) : result (list A) :=
  match cs with
  | [] => Ok []
  | c :: rest =>
      result_bind (keep c) (fun b =>
      result_bind (filter_raising keep rest) (fun rest' =>
      Ok (if b then c :: rest' else rest')))
  end.

Section App.
Context (E : runtime).

Definition UserController : controller_class := ModelController.class E User.

Definition PostController : controller_class := ModelController.class E Post.

(** [CommentController.create_for_post(self, id)] *)
Definition create_for_post : method :=
  {| m_params := ["id"];
     m_body := fun self args =>
       arg "id" args (fun id =>
       let* data := lift (Request.json_call E (c_request self)) in
       let* post_id := lift (py_int E id) in
       let data := <["post_id" := VInt post_id]> data in
       try_except
         (let* instance := Models.create E (c_model self) data in
          ret (Response.created E (Models.to_dict E instance)))
         (fun e => ret (Response.bad_request E (exn_str e)))) |}.

(** [CommentController.list_for_post(self, id)] *)
Definition list_for_post : method :=
  {| m_params := ["id"];
     m_body := fun self args =>
       arg "id" args (fun id =>
       let* all_comments := Models.all (c_model self) in
       let* post_comments :=
         lift (filter_raising
                 (fun c =>
                    let post_id := Models.attr c "post_id" in
                    result_bind (py_int E id) (fun n => Ok (py_eq_int post_id n)))
                 all_comments) in
       ret (Response.json E (VList (Models.to_dict E <$> post_comments)) 200)) |}.

Definition CommentController : controller_class :=
  {| cc_model := Comment;
     cc_methods :=
       <["create_for_post" := create_for_post]>
         (<["list_for_post" := list_for_post]> (ModelController.methods E)) |}.

(** ** app.py: the dispatch adapter *)

(** The keyword arguments the adapter builds: one per declared parameter
    that is a key of the path parameters. *)
Definition build_kwargs (params : list string) (path_params : gmap string string)
    : gmap string value :=
  foldl (fun kwargs param =>
           match path_params !! param with
           | Some v => <[param := VStr v]> kwargs
           | None => kwargs
           end) ∅ params.

(** [register_controller(controller_cls, method_name)] *)
Definition register_controller (controller_cls : controller_class)
    (method_name : string) : handler :=
  fun request =>
    let controller :=
      {| c_request := request; c_model := cc_model controller_cls |} in
    match cc_methods controller_cls !! method_name with
    | None => raise (AttributeError ("object has no attribute '" +:+ method_name +:+ "'"))
    | Some func =>
        let kwargs := build_kwargs (m_params func) (Request.path_params request) in
        call_method func controller kwargs
    end.

(** ** app.py: the route table *)

Definition router : Router.t handler :=
  let r := [] in
  let r := Router.get "/users" (register_controller UserController "list") r in
  let r := Router.post "/users" (register_controller UserController "create") r in
  let r := Router.get "/users/<id>" (register_controller UserController "retrieve") r in
  let r := Router.get "/posts" (register_controller PostController "list") r in
  let r := Router.post "/posts" (register_controller PostController "create") r in
  let r := Router.get "/posts/<id>" (register_controller PostController "retrieve") r in
  let r := Router.post "/posts/<id>/comments"
             (register_controller CommentController "create_for_post") r in
  let r := Router.get "/posts/<id>/comments"
             (register_controller CommentController "list_for_post") r in
  r.

(** ** app.py: the transport handler *)

Definition internal_error (e : exn) : Response.t :=
  Response.json E (VDict [("error", VStr "Internal Server Error");
                          ("details", VStr (exn_str e))]) 500.

(** [self.headers.get(name, ...)]: the value of the first header of that
    name, whatever the case of its letters. *)
Definition header_get (name : string) (hdrs : list (string * string)) : option string :=
  snd <$> List.find (fun kv => String.eqb (py_lower kv.1) (py_lower name)) hdrs.

(** [self.rfile.read(n)] on a buffered reader whose connection delivers
    the bytes [rfile] and then closes: at most [n] bytes, all of them for
    -1, and a [ValueError] below -1. *)
Definition rfile_read (n : Z) (rfile : list Byte.byte) : result (list Byte.byte) :=
  if n <? -1 then Raise (ValueError "read length must be non-negative or -1")
  else if n =? -1 then Ok rfile
  else Ok (take (Z.to_nat n) rfile).

(** The first two statements of [FrameworkHTTPHandler._handle], lines 131
    and 132 of [app.py]: the length is read from the [Content-Length]
    header (0 without one) with [int()], that many bytes are read and
    decoded as UTF-8. Nothing guards them. *)
Definition read_body (hdrs : list (string * string)) (rfile : list Byte.byte)
    : result string :=
  result_bind (py_int E (from_option VStr (VInt 0) (header_get "Content-Length" hdrs)))
    (fun content_length =>
  result_bind (rfile_read content_length rfile) (fun raw =>
  match utf8_decode E raw with
  | inl text => Ok text
  | inr msg => Raise (UnicodeDecodeError msg)
  end)).

(** The rest of [FrameworkHTTPHandler._handle], lines 135 to 151, on a given
    route table, from the point where the body is read: the request is
    built from the command, the path with the query string, the headers and
    the body, the route is matched and the handler run under the
    catch-all. *)
Definition handle_on (rt : Router.t handler) (command rawpath : string)
    (hdrs : gmap string string) (bdy : string) : py Response.t :=
  let req := Request.init command rawpath (Some bdy) hdrs in
  let '(h, req) := Router.match_ rt req in
  match h with
  | Some h => try_except (h req) (fun e => ret (internal_error e))
  | None => ret (Response.not_found E)
  end.

(** The same on the route table of the application. *)
Definition _handle : string -> string -> gmap string string -> string -> py Response.t :=
  handle_on router.

(** [do_GET], [do_POST], [do_PUT] and [do_DELETE]: each runs the whole of
    [_handle], from the reading of the body, which may raise, to the
    response. The request keeps the headers as a mapping. *)
Definition do_method (command rawpath : string) (hdrs : list (string * string))
    (rfile : list Byte.byte) : py Response.t :=
  let* bdy := lift (read_body hdrs rfile) in
  _handle command rawpath (list_to_map hdrs) bdy.

End App.

(** ** A runtime to run the model on concrete requests *)

Definition quoted (s : string) : string := dq +:+ s +:+ dq.

(** A compact JSON printer (text is not escaped). *)
Fixpoint show_value (v : value) : string :=
  match v with
  | VNone => "null"
  | VBool b => if b then "true" else "false"
  | VInt n => pretty n
  | VFloat m e => pretty m +:+ "p" +:+ pretty e
  | VStr s => quoted s
  | VDatetime t => quoted ("T" +:+ pretty t)
  | VList l =>
      "[" +:+ (fix items (l : list value) : string :=
                 match l with
                 | [] => ""
                 | [x] => show_value x
                 | x :: r => show_value x +:+ ", " +:+ items r
                 end) l +:+ "]"
  | VDict d =>
      "{" +:+ (fix items (d : list (string * value)) : string :=
                 match d with
                 | [] => ""
                 | [(k, x)] => quoted k +:+ ": " +:+ show_value x
                 | (k, x) :: r => quoted k +:+ ": " +:+ show_value x +:+ ", " +:+ items r
                 end) d +:+ "}"
  end.

(** The body of scenario 4, and a body that is a JSON array. *)
Definition comment_body : string :=
  "{" +:+ quoted "content" +:+ ":" +:+ quoted "hi" +:+ "," +:+ quoted "author_id" +:+ ":1}".

Definition array_body : string := "[1, 2]".

(** The bodies of scenarios 1 and 2. *)
Definition user_body : string :=
  "{" +:+ quoted "name" +:+ ":" +:+ quoted "Alice" +:+ ","
      +:+ quoted "email" +:+ ":" +:+ quoted "a@x.com" +:+ "}".

Definition nameless_body : string :=
  "{" +:+ quoted "email" +:+ ":" +:+ quoted "a@x.com" +:+ "}".

(** A parser that knows the bodies above and rejects the rest. *)
Definition sample_loads (text : string) : option value :=
  if String.eqb text comment_body
  then Some (VDict [("content", VStr "hi"); ("author_id", VInt 1)])
  else if String.eqb text array_body then Some (VList [VInt 1; VInt 2])
  else if String.eqb text user_body
  then Some (VDict [("name", VStr "Alice"); ("email", VStr "a@x.com")])
  else if String.eqb text nameless_body then Some (VDict [("email", VStr "a@x.com")])
  else None.

(** A decoder for bodies written in ASCII, as those of the examples are;
    any other byte is reported as one that cannot start a character. *)
Definition ascii_decode (raw : list Byte.byte) : string + string :=
  if forallb (fun b => (Byte.to_nat b <? 128)%nat) raw
  then inl (string_of_list_byte raw)
  else inr "'utf-8' codec can't decode byte: invalid start byte".

Definition sample_runtime : runtime :=
  {| json_loads := sample_loads;
     json_dumps := show_value;
     utf8_decode := ascii_decode;
     isoformat := fun t => "T" +:+ pretty t;
     int_max_str_digits := 4300;
     coerce_numeric_text := false |}.

(** The requests of a session, served one after the other; the clock reads
    [now], [now + 1], ... *)
Record http_request : Type := {
  h_command : string;
  h_path : string;
  h_body : string
}.

Fixpoint serve (E : runtime) (reqs : list http_request) (now : Z) (st : storage)
    : list Response.t * storage :=
  match reqs with
  | [] => ([], st)
  | r :: rest =>
      let '(res, st') := _handle E (h_command r) (h_path r) ∅ (h_body r) now st in
      let resp := match res with
                  | Ok resp => resp
                  | Raise e => internal_error E e
                  end in
      let '(resps, st'') := serve E rest (now + 1) st' in
      (resp :: resps, st'')
  end.

(** ** What the router is expected to compute *)

(** A pattern segment accepts a path segment: a literal accepts itself, a
    placeholder accepts any text. *)
Inductive seg_matches : Router.segment -> string -> Prop :=
| lit_matches l : seg_matches (Router.Lit l) l
| param_matches name s : seg_matches (Router.Param name) s.

(** The captured segments, placeholder by placeholder from the left. *)
Definition captures (acc : gmap string string) (pat : list Router.segment)
    (segs : list string) : gmap string string :=
  foldl (fun m ps =>
           match ps.1 with
           | Router.Param name => <[name := ps.2]> m
           | Router.Lit _ => m
           end) acc (zip pat segs).

(** ** Client programs of the model layer *)

(** The value stored for attribute [name] of the record [n] of [M]. *)
Definition stored_attr (st : storage) (M : Model) (n : Z) (name : string)
    : option value :=
  row_get n (rows (table_of st M)) ≫= (fun vals => vals !! name).

(** A client that keeps one instance, and some rounds of
    [x.a = v; ...; x.save()]: each round assigns some attributes and saves
    at its own clock reading. A save that raises leaves the instance as the
    client changed it. *)
Fixpoint resave_all (E : runtime) (rounds : list (list (string * value) * Z))
    (i : instance) (st : storage) : instance * storage :=
  match rounds with
  | [] => (i, st)
  | (updates, now) :: rest =>
      let i1 := foldl (fun j u => Models.set_attr u.1 u.2 j) i updates in
      match Models.save E i1 now st with
      | (Ok i2, st') => resave_all E rest i2 st'
      | (Raise _, st') => resave_all E rest i1 st'
      end
  end.

(** The statements of a client program. Instances are named by the order in
    which the program obtained them. *)
Inductive op : Type :=
| OpNew (M : Model) (kw : gmap string value)
| OpCreate (M : Model) (kw : gmap string value) (now : Z)
| OpGet (M : Model) (n : Z)
| OpSet (h : nat) (name : string) (v : value)
| OpSave (h : nat) (now : Z)
| OpDelete (h : nat).

(** A process: the storage, the instances the program holds, and the log of
    the ids handed out, each with the name of its model type. *)
Record process : Type := {
  p_store : storage;
  p_objs : list instance;
  p_log : list (string * Z)
}.

(** A process starts (and starts again after [_clear_storage]) with empty
    tables and counters. *)
Definition start (st : storage) : process :=
  {| p_store := (Models._clear_storage 0 st).2; p_objs := []; p_log := [] |}.

Definition log_first_save (before after : instance) : list (string * Z) :=
  match inst_id before, inst_id after with
  | None, Some n => [(model_name (inst_model after), n)]
  | _, _ => []
  end.

Definition step (E : runtime) (p : process) (o : op) : process :=
  match o with
  | OpNew M kw =>
      {| p_store := p_store p; p_objs := p_objs p ++ [Models.construct M kw];
         p_log := p_log p |}
  | OpCreate M kw now =>
      match Models.create E M kw now (p_store p) with
      | (Ok i, st') =>
          {| p_store := st'; p_objs := p_objs p ++ [i];
             p_log := p_log p ++ log_first_save (Models.construct M kw) i |}
      | (Raise _, st') =>
          {| p_store := st'; p_objs := p_objs p; p_log := p_log p |}
      end
  | OpGet M n =>
      match Models.get M n 0 (p_store p) with
      | (Ok i, st') => {| p_store := st'; p_objs := p_objs p ++ [i]; p_log := p_log p |}
      | (Raise _, st') => {| p_store := st'; p_objs := p_objs p; p_log := p_log p |}
      end
  | OpSet h name v =>
      {| p_store := p_store p; p_objs := alter (Models.set_attr name v) h (p_objs p);
         p_log := p_log p |}
  | OpSave h now =>
      match p_objs p !! h with
      | None => p
      | Some i =>
          match Models.save E i now (p_store p) with
          | (Ok i', st') =>
              {| p_store := st'; p_objs := <[h := i']> (p_objs p);
                 p_log := p_log p ++ log_first_save i i' |}
          | (Raise _, st') =>
              {| p_store := st'; p_objs := p_objs p; p_log := p_log p |}
          end
      end
  | OpDelete h =>
      match p_objs p !! h with
      | None => p
      | Some i =>
          {| p_store := (Models.delete i 0 (p_store p)).2; p_objs := p_objs p;
             p_log := p_log p |}
      end
  end.

Definition run (E : runtime) (ops : list op) (p : process) : process :=
  foldl (step E) p ops.

(** The ids handed out to the model type called [name], oldest first. *)
Definition ids_of (name : string) (log : list (string * Z)) : list Z :=
  (filter (fun e => e.1 = name) log).*2.

Definition table_named (st : storage) (name : string) : table :=
  default empty_table (st !! name).

(** The reads of the table of [M] give the same in [st'] as in [st]. *)
Definition reads_same (M : Model) (st st' : storage) : Prop :=
  (forall now, (Models.count M now st').1 = (Models.count M now st).1)
  /\ (forall now, (Models.all M now st').1 = (Models.all M now st).1)
  /\ (forall now n, (Models.get M n now st').1 = (Models.get M n now st).1).

(** Some [auto_now] field of the schema is called [k]. *)
Definition stamped (k : string) (fields : list (string * Field)) : bool :=
  existsb (fun nf => bool_decide (nf.1 = k) && auto_now nf.2) fields.

(** ** Invariants of the storage *)

(** A table is well formed: its counter is at least 1, its ids are pairwise
    distinct and each lies below the counter. *)
Definition table_ok (t : table) : Prop :=
  1 <= next_id t
  /\ NoDup (rows t).*1
  /\ Forall (fun n => 1 <= n < next_id t) (rows t).*1.

(** A process is well formed: every table is, the ids handed out to a model
    type are [1, 2, ...] up to its counter, and an instance that has an id
    has one that its type handed out. *)
Definition process_ok (p : process) : Prop :=
  (forall name, table_ok (table_named (p_store p) name))
  /\ (forall name,
        ids_of name (p_log p)
        = Z.of_nat <$> seq 1 (Z.to_nat (next_id (table_named (p_store p) name) - 1)))
  /\ (forall i n, i ∈ p_objs p -> inst_id i = Some n ->
        1 <= n < next_id (table_of (p_store p) (inst_model i))).

(** ** What the handlers of the application may do *)

(** The failures a controller is expected to turn into a 4xx response. *)
Definition expected_failure (e : exn) : bool :=
  is_ValidationError e || is_ObjectDoesNotExist e.

(** [st'] is [st], or [st] with one record inserted at the next id of some
    table. *)
Definition inserts_at_most_one (st st' : storage) : Prop :=
  st' = st
  \/ exists M vals,
       st' = Models.put_table M
               {| rows := row_put (next_id (table_of st M)) vals (rows (table_of st M));
                  next_id := next_id (table_of st M) + 1 |} st.

(** The outcome [out] of a handler run from [st]: the storage changed by at
    most one insertion, and an exception that escapes is not one of the
    expected failures. *)
Definition well_behaved (st : storage) (out : result Response.t * storage) : Prop :=
  inserts_at_most_one st out.2
  /\ match out.1 with
     | Ok _ => True
     | Raise e => expected_failure e = false
     end.

Definition method_well_behaved (func : method) : Prop :=
  forall self args now st, well_behaved st (m_body func self args now st).

(** Every table is well formed and lists its records by increasing id. *)
Definition store_sorted (st : storage) : Prop :=
  forall name,
    table_ok (table_named st name)
    /\ StronglySorted Z.lt (rows (table_named st name)).*1.

(** ** The outcome of a request *)

(** [st'] is [st] with one record inserted at the next id of some table,
    whose counter moved on. *)
Definition one_inserted (st st' : storage) : Prop :=
  exists M vals,
    st' = Models.put_table M
            {| rows := row_put (next_id (table_of st M)) vals (rows (table_of st M));
               next_id := next_id (table_of st M) + 1 |} st.

(** The outcome [out] of a handler run from [st]: a 201 response with one
    record inserted, or a 200, 400 or 404 response with the storage as it
    was, or an exception with the storage as it was. *)
Definition answered (st : storage) (out : result Response.t * storage) : Prop :=
  match out.1 with
  | Ok resp =>
      (Response.status resp = 201 /\ one_inserted st out.2)
      \/ ((Response.status resp = 200 \/ Response.status resp = 400
           \/ Response.status resp = 404) /\ out.2 = st)
  | Raise _ => out.2 = st
  end.

(** The value of the route table [router] of [app.py]: the eight routes in
    registration order, their patterns compiled. *)
Definition app_routes (E : runtime) : list (Router.route handler) :=
  [ {| Router.r_method := "GET";
       Router.r_regex := [Router.Lit ""; Router.Lit "users"];
       Router.r_handler := register_controller (UserController E) "list" |};
    {| Router.r_method := "POST";
       Router.r_regex := [Router.Lit ""; Router.Lit "users"];
       Router.r_handler := register_controller (UserController E) "create" |};
    {| Router.r_method := "GET";
       Router.r_regex := [Router.Lit ""; Router.Lit "users"; Router.Param "id"];
       Router.r_handler := register_controller (UserController E) "retrieve" |};
    {| Router.r_method := "GET";
       Router.r_regex := [Router.Lit ""; Router.Lit "posts"];
       Router.r_handler := register_controller (PostController E) "list" |};
    {| Router.r_method := "POST";
       Router.r_regex := [Router.Lit ""; Router.Lit "posts"];
       Router.r_handler := register_controller (PostController E) "create" |};
    {| Router.r_method := "GET";
       Router.r_regex := [Router.Lit ""; Router.Lit "posts"; Router.Param "id"];
       Router.r_handler := register_controller (PostController E) "retrieve" |};
    {| Router.r_method := "POST";
       Router.r_regex := [Router.Lit ""; Router.Lit "posts"; Router.Param "id";
                          Router.Lit "comments"];
       Router.r_handler := register_controller (CommentController E) "create_for_post" |};
    {| Router.r_method := "GET";
       Router.r_regex := [Router.Lit ""; Router.Lit "posts"; Router.Param "id";
                          Router.Lit "comments"];
       Router.r_handler := register_controller (CommentController E) "list_for_post" |} ].

(** The ids of a table are 1, 2, ... up to the number of its records, and
    its counter is the next one. *)
Definition table_dense (t : table) : Prop :=
  (rows t).*1 = Z.of_nat <$> seq 1 (length (rows t))
  /\ next_id t = Z.of_nat (length (rows t)) + 1.

Definition store_dense (st : storage) : Prop :=
  forall name, table_dense (table_named st name).

(** The exception that [int()] raises on a text it rejects. *)
Definition id_error (E : runtime) (seg : string) : exn :=
  ValueError (int_message E seg).

(** A segment of [k] digits 1. *)
Definition ones (k : N) : string :=
  string_of_list_ascii (repeat "1"%char (N.to_nat k)).

(** A body that carries a [post_id] of its own, and a runtime whose parser
    knows it too. *)
Definition spoof_body : string :=
  "{" +:+ quoted "content" +:+ ":" +:+ quoted "hi" +:+ "," +:+ quoted "author_id" +:+ ":1,"
      +:+ quoted "post_id" +:+ ":99}".

Definition spoof_runtime : runtime :=
  {| json_loads := fun text =>
       if String.eqb text spoof_body
       then Some (VDict [("content", VStr "hi"); ("author_id", VInt 1); ("post_id", VInt 99)])
       else sample_loads text;
     json_dumps := show_value;
     utf8_decode := ascii_decode;
     isoformat := fun t => "T" +:+ pretty t;
     int_max_str_digits := 4300;
     coerce_numeric_text := false |}.

(** ** test_framework.py: the controller and the router of the tests *)

(** [class UserController(ModelController): model = TestUser] *)
Definition TestUserController (E : runtime) : controller_class :=
  ModelController.class E TestUser.

(** [cls(req).name()]: a controller is built on the request and the method
    is called without arguments. *)
Definition call_on (cls : controller_class) (name : string) : handler :=
  fun req =>
    let controller := {| c_request := req; c_model := cc_model cls |} in
    match cc_methods cls !! name with
    | Some func => call_method func controller ∅
    | None => raise (AttributeError ("object has no attribute '" +:+ name +:+ "'"))
    end.

(** [handle_list_users] and [handle_create_user] of [TestIntegration.setUp] *)
Definition handle_list_users (E : runtime) : handler :=
  call_on (TestUserController E) "list".

Definition handle_create_user (E : runtime) : handler :=
  call_on (TestUserController E) "create".

(** The router of [TestIntegration.setUp]. *)
Definition integration_router (E : runtime) : Router.t handler :=
  let r := [] in
  let r := Router.get "/users" (handle_list_users E) r in
  let r := Router.post "/users" (handle_create_user E) r in
  r.

(** [handler = router.match(req); res = handler(req)] as the tests write
    it: nothing catches what the handler raises, and calling the no-match
    signal is a [TypeError]. *)
Definition dispatch (rt : Router.t handler) (req : Request.t) : py Response.t :=
  match Router.match_ rt req with
  | (Some h, req') => h req'
  | (None, _) => raise (TypeError "'NoneType' object is not callable")
  end.

(** * Properties *)

(** ** Worked examples *)

Example int_of_str_ex1 : int_of_str sample_runtime "123" = Some 123.
Proof. reflexivity. Qed.
Example int_of_str_ex2 : int_of_str sample_runtime " -1_000 " = Some (-1000).
Proof. reflexivity. Qed.
Example int_of_str_ex3 :
  int_of_str sample_runtime "abc" = None /\ int_of_str sample_runtime "" = None
  /\ int_of_str sample_runtime "1__0" = None /\ int_of_str sample_runtime "5_" = None.
Proof. repeat split; reflexivity. Qed.

(** The message of [int()]: the text as [repr] writes it, and the limit. *)
Example int_message_ex :
  int_message sample_runtime "abc" = "invalid literal for int() with base 10: 'abc'"
  /\ int_message sample_runtime "a'b"
     = "invalid literal for int() with base 10: " +:+ dq +:+ "a'b" +:+ dq
  /\ int_of_str sample_runtime (ones 4300) = Some (decimal_value 0 (ones 4300))
  /\ int_of_str sample_runtime (ones 4301) = None
  /\ int_message sample_runtime (ones 4301)
     = "Exceeds the limit (4300 digits) for integer string conversion: value has 4301 "
       +:+ "digits; use sys.set_int_max_str_digits() to increase the limit".
Proof.
  split; [vm_compute; reflexivity|]. split; [vm_compute; reflexivity|].
  split; [vm_compute; reflexivity|]. split; vm_compute; reflexivity.
Qed.
Example split_on_ex : split_on "/" "/users/123" = [""; "users"; "123"].
Proof. reflexivity. Qed.
Example compile_ex :
  Router.compile "/posts/<id>/comments"
  = [Router.Lit ""; Router.Lit "posts"; Router.Param "id"; Router.Lit "comments"].
Proof. reflexivity. Qed.

(** [test_query_params_parsing] *)
Example query_params_ex :
  Request.query_params (Request.init "GET" "/search?q=python&page=1" None ∅)
  = {[ "q" := "python"; "page" := "1" ]}.
Proof. vm_compute. reflexivity. Qed.

(** [test_integer_validation]: a user whose age is the text [abc] is not
    saved. *)
Example integer_validation_ex :
  exists msg,
    Models.save sample_runtime
      (Models.construct TestUser {[ "name" := VStr "Test"; "age" := VStr "abc" ]}) 0 ∅
    = (Raise (ValidationError msg), ∅).
Proof. eexists. vm_compute. reflexivity. Qed.

(** [test_update]: a user is created, renamed and saved; the stored name is
    the new one. *)
Example update_ex :
  exists user st1 saved st2,
    Models.create sample_runtime TestUser {[ "name" := VStr "Old"; "age" := VInt 20 ]} 0 ∅
    = (Ok user, st1)
    /\ Models.save sample_runtime (Models.set_attr "name" (VStr "New") user) 1 st1
       = (Ok saved, st2)
    /\ stored_attr st2 TestUser 1 "name" = Some (VStr "New").
Proof.
  eexists _, _, _, _. split; [vm_compute; reflexivity|].
  split; [vm_compute; reflexivity|]. vm_compute. reflexivity.
Qed.

(** Scenarios 1 to 3 of the application: a user is created (201), a user
    without a name is refused (400), a user that does not exist is not
    found (404). *)
Example user_scenarios_ex :
  Response.status <$>
    (serve sample_runtime
       [{| h_command := "POST"; h_path := "/users"; h_body := user_body |};
        {| h_command := "POST"; h_path := "/users"; h_body := nameless_body |};
        {| h_command := "GET"; h_path := "/users/999"; h_body := "" |};
        {| h_command := "GET"; h_path := "/users/1"; h_body := "" |};
        {| h_command := "DELETE"; h_path := "/users/1"; h_body := "" |}] 0 ∅).1
  = [201; 400; 404; 200; 404].
Proof. vm_compute. reflexivity. Qed.

(** ** Text and [int()] *)

Lemma digit_not_space c : is_digit c = true -> is_space c = false.
Proof. destruct c as [[] [] [] [] [] [] [] []]; vm_compute; congruence. Qed.

Lemma digit_not_sign c :
  is_digit c = true -> c <> "+"%char /\ c <> "-"%char /\ c <> "/"%char /\ c <> "?"%char.
Proof. destruct c as [[] [] [] [] [] [] [] []]; vm_compute; repeat split; congruence. Qed.

Lemma all_digits_lstrip s : all_digits s = true -> lstrip s = s.
Proof.
  destruct s as [|c r]; simpl; [done|].
  intros [Hc _]%andb_prop. by rewrite (digit_not_space _ Hc).
Qed.

Lemma all_digits_rstrip s : all_digits s = true -> rstrip s = s.
Proof.
  induction s as [|c r IH]; simpl; [done|].
  intros [Hc Hr]%andb_prop. rewrite (IH Hr).
  destruct r; [by rewrite (digit_not_space _ Hc)|done].
Qed.

Lemma all_digits_int_digits s acc count :
  all_digits s = true ->
  int_digits acc count true s
  = Some (decimal_value acc s, (count + N.of_nat (String.length s))%N, EmptyString).
Proof.
  revert acc count. induction s as [|c r IH]; intros acc count; simpl.
  - intros _. by rewrite N.add_0_r.
  - intros [Hc Hr]%andb_prop. rewrite Hc, (IH _ _ Hr). do 3 f_equal. lia.
Qed.

(** What [int()] reads in a segment of decimal digits: its decimal value,
    unless it has more digits than the limit allows. *)
Lemma read_int_decimal limit s :
  is_decimal s = true ->
  read_int limit s
  = if over_limit limit (N.of_nat (String.length s))
    then IntTooLong (N.of_nat (String.length s))
    else IntValue (decimal_value 0 s).
Proof.
  destruct s as [|c r]; [done|]. unfold is_decimal. intros Hd.
  unfold read_int. rewrite (all_digits_lstrip _ Hd), (all_digits_rstrip _ Hd).
  pose proof Hd as Hd'. simpl in Hd'. apply andb_prop in Hd' as [Hc Hr].
  destruct (digit_not_sign _ Hc) as (Hp & Hm & _).
  assert ((match String c r with
           | String "+" r0 => (false, r0)
           | String "-" r0 => (true, r0)
           | _ => (false, String c r)
           end) = (false, String c r)) as ->.
  { destruct c as [[] [] [] [] [] [] [] []]; try reflexivity; congruence. }
  assert (int_digits 0 0 false (String c r)
          = Some (decimal_value 0 (String c r), N.of_nat (String.length (String c r)),
                  EmptyString)) as ->.
  { cbn [int_digits]. rewrite Hc. rewrite (all_digits_int_digits _ _ _ Hr).
    cbn [decimal_value String.length]. do 3 f_equal. lia. }
  by destruct (over_limit _ _).
Qed.

(** On a segment of decimal digits within the limit [int()] returns its
    decimal value. *)
Lemma int_of_str_decimal (E : runtime) s :
  is_decimal s = true -> digits_allowed E s = true ->
  int_of_str E s = Some (decimal_value 0 s).
Proof.
  intros Hd Hok. unfold int_of_str. rewrite (read_int_decimal _ _ Hd).
  unfold digits_allowed in Hok. apply negb_true_iff in Hok. by rewrite Hok.
Qed.

(** Beyond the limit [int()] rejects it, with the message of the limit. *)
Lemma int_of_str_too_long (E : runtime) s :
  is_decimal s = true -> digits_allowed E s = false ->
  int_of_str E s = None
  /\ int_message E s
     = "Exceeds the limit (" +:+ pretty (int_max_str_digits E)
       +:+ " digits) for integer string conversion: value has "
       +:+ pretty (N.of_nat (String.length s))
       +:+ " digits; use sys.set_int_max_str_digits() to increase the limit".
Proof.
  intros Hd Hok. unfold int_of_str, int_message. rewrite (read_int_decimal _ _ Hd).
  unfold digits_allowed in Hok. apply negb_false_iff in Hok. by rewrite Hok.
Qed.

Lemma all_digits_no_char s c :
  is_digit c = false -> all_digits s = true -> no_char c s = true.
Proof.
  intros Hc. induction s as [|d r IH]; simpl; [done|].
  intros [Hd Hr]%andb_prop. rewrite (IH Hr), andb_true_r.
  destruct (Ascii.eqb_spec d c) as [->|]; [congruence|done].
Qed.

Lemma decimal_no_slash s : is_decimal s = true -> no_char "/" s = true.
Proof. destruct s; [done|]. by apply all_digits_no_char. Qed.

Lemma split_on_no_char sep s : no_char sep s = true -> split_on sep s = [s].
Proof.
  induction s as [|c r IH]; simpl; [done|].
  intros [Hc Hr]%andb_prop. apply negb_true_iff in Hc. rewrite Hc, (IH Hr). done.
Qed.

Lemma split_on_app sep s r :
  no_char sep s = true ->
  split_on sep (s +:+ String sep r) = s :: split_on sep r.
Proof.
  induction s as [|c t IH]; simpl.
  - intros _. by rewrite Ascii.eqb_refl.
  - intros [Hc Ht]%andb_prop. apply negb_true_iff in Hc. rewrite Hc, (IH Ht). done.
Qed.

Lemma split_once_no_char sep s : no_char sep s = true -> split_once sep s = (s, None).
Proof.
  induction s as [|c r IH]; simpl; [done|].
  intros [Hc Hr]%andb_prop. apply negb_true_iff in Hc. rewrite Hc, (IH Hr). done.
Qed.

Lemma no_char_app c s t : no_char c (s +:+ t) = no_char c s && no_char c t.
Proof. induction s as [|d r IH]; simpl; [done|]. by rewrite IH, andb_assoc. Qed.

(** The segments of the path of a nested comment route. *)
Lemma split_posts_comments seg :
  no_char "/" seg = true ->
  split_on "/" ("/posts/" +:+ seg +:+ "/comments") = [""; "posts"; seg; "comments"].
Proof.
  intros H. change ("/posts/" +:+ seg +:+ "/comments")
    with (String "/" (String "p" (String "o" (String "s" (String "t" (String "s"
           (String "/" (seg +:+ String "/" "comments")))))))).
  cbn [split_on]. rewrite !Ascii.eqb_refl.
  replace (Ascii.eqb "p" "/") with false by reflexivity.
  replace (Ascii.eqb "o" "/") with false by reflexivity.
  replace (Ascii.eqb "s" "/") with false by reflexivity.
  replace (Ascii.eqb "t" "/") with false by reflexivity.
  rewrite (split_on_app _ _ _ H). reflexivity.
Qed.

(** ** The router *)

Section RouterFacts.
Context {H : Type}.
Implicit Types (rt : Router.t H) (r : Router.route H) (req : Request.t).

Lemma match_segments_spec pat segs acc ps :
  Router.match_segments pat segs acc = Some ps
  <-> Forall2 seg_matches pat segs /\ ps = captures acc pat segs.
Proof.
  revert segs acc. induction pat as [|p pat IH]; intros segs acc.
  - destruct segs; simpl; split.
    + intros [= <-]. split; [constructor|done].
    + intros [_ ->]. done.
    + done.
    + intros [Hf _]. inversion Hf.
  - destruct segs as [|s segs].
    + destruct p; simpl; split; try done; intros [Hf _]; inversion Hf.
    + destruct p as [l|name]; simpl.
      * destruct (String.eqb_spec l s) as [->|Hne].
        -- rewrite IH. split.
           ++ intros [Hf ->]. split; [constructor; [constructor|done]|done].
           ++ intros [Hf ->]. inversion Hf; subst. done.
        -- split; [done|]. intros [Hf _]. inversion Hf as [|? ? ? ? Hm]; subst.
           inversion Hm; subst. done.
      * rewrite IH. split.
        -- intros [Hf ->]. split; [constructor; [constructor|done]|done].
        -- intros [Hf ->]. inversion Hf; subst. done.
Qed.

Lemma route_match_spec r req ps :
  Router.route_match r req = Some ps
  <-> py_upper (Router.r_method r) = py_upper (Request.method req)
      /\ Forall2 seg_matches (Router.r_regex r) (split_on "/" (Request.path req))
      /\ ps = captures ∅ (Router.r_regex r) (split_on "/" (Request.path req)).
Proof.
  unfold Router.route_match.
  destruct (String.eqb_spec (py_upper (Router.r_method r)) (py_upper (Request.method req)))
    as [Heq|Hne].
  - rewrite match_segments_spec. tauto.
  - split; [done|]. intros [? _]. done.
Qed.

(** The outcome of [match_] is that of the first route that matches. *)
Lemma match_first rt req h req' :
  Router.match_ rt req = (Some h, req')
  <-> exists i r ps,
        rt !! i = Some r /\ Router.route_match r req = Some ps
        /\ (forall j r', (j < i)%nat -> rt !! j = Some r' -> Router.route_match r' req = None)
        /\ h = Router.r_handler r /\ req' = Request.with_path_params req ps.
Proof.
  induction rt as [|r0 rt IH]; simpl.
  - split; [done|]. intros (i & r & ps & Hi & _). done.
  - destruct (Router.route_match r0 req) as [ps0|] eqn:Hm0.
    + split.
      * intros [= <- <-]. exists 0%nat, r0, ps0. repeat split; try done. intros j r' Hj. lia.
      * intros (i & r & ps & Hi & Hm & Hfirst & -> & ->).
        destruct i as [|i].
        -- simpl in Hi. injection Hi as <-. rewrite Hm0 in Hm. by injection Hm as <-.
        -- specialize (Hfirst 0%nat r0 ltac:(lia) eq_refl). congruence.
    + rewrite IH. split.
      * intros (i & r & ps & Hi & Hm & Hfirst & -> & ->).
        exists (S i), r, ps. repeat split; try done.
        intros [|j] r' Hj Hr'; simpl in Hr'.
        -- by injection Hr' as <-.
        -- apply (Hfirst j); [lia|done].
      * intros (i & r & ps & Hi & Hm & Hfirst & -> & ->).
        destruct i as [|i].
        -- simpl in Hi. injection Hi as <-. congruence.
        -- exists i, r, ps. repeat split; try done.
           intros j r' Hj Hr'. apply (Hfirst (S j)); [lia|done].
Qed.

Lemma match_none rt req req' :
  Router.match_ rt req = (None, req')
  <-> (forall r, r ∈ rt -> Router.route_match r req = None) /\ req' = req.
Proof.
  induction rt as [|r0 rt IH]; simpl.
  - split.
    + intros [= <-]. split; [|done]. intros r Hr. by apply elem_of_nil in Hr.
    + by intros [_ ->].
  - destruct (Router.route_match r0 req) as [ps0|] eqn:Hm0.
    + split; [done|]. intros [Hall _]. specialize (Hall r0 ltac:(left)). congruence.
    + rewrite IH. split.
      * intros [Hall ->]. split; [|done]. intros r [->|Hr]%elem_of_cons; auto.
      * intros [Hall ->]. split; [|done]. intros r Hr. apply Hall. by right.
Qed.

Lemma match_total rt req :
  Router.match_ rt req = (None, req)
  \/ exists r ps, r ∈ rt /\ Router.route_match r req = Some ps
       /\ Router.match_ rt req = (Some (Router.r_handler r), Request.with_path_params req ps).
Proof.
  induction rt as [|r0 rt IH]; simpl; [by left|].
  destruct (Router.route_match r0 req) as [ps0|] eqn:Hm0.
  - right. exists r0, ps0. repeat split; try done. by left.
  - destruct IH as [IH|(r & ps & Hr & Hm & IH)]; [by left|].
    right. exists r, ps. repeat split; try done. by right.
Qed.

(** The value captured for a placeholder that occurs once. *)
Lemma captures_lookup pat segs acc k name s :
  pat !! k = Some (Router.Param name) -> segs !! k = Some s ->
  (forall k', (k < k')%nat -> pat !! k' <> Some (Router.Param name)) ->
  captures acc pat segs !! name = Some s.
Proof.
  revert segs acc k. induction pat as [|p pat IH]; intros segs acc k Hp Hs Hlast; [done|].
  destruct segs as [|s0 segs]; [done|]. unfold captures. simpl.
  destruct k as [|k]; simpl in Hp, Hs.
  - injection Hp as ->. injection Hs as ->. simpl.
    assert (forall pat' segs' (m : gmap string string),
               (forall k', pat' !! k' <> Some (Router.Param name)) ->
               m !! name = Some s ->
               captures m pat' segs' !! name = Some s) as Hkeep.
    { clear. induction pat' as [|p pat' IH]; intros segs' m Hno Hm; [done|].
      destruct segs' as [|s' segs']; [done|]. unfold captures. simpl.
      apply IH; [intros k'; apply (Hno (S k'))|].
      destruct p as [l|n']; simpl; [done|].
      destruct (decide (n' = name)) as [->|Hne].
      - by specialize (Hno 0%nat).
      - by rewrite lookup_insert_ne. }
    apply Hkeep; [|by rewrite lookup_insert_eq].
    intros k'. apply (Hlast (S k')). lia.
  - apply (IH _ _ k); try done. intros k' Hk'. apply (Hlast (S k')). lia.
Qed.

(** Nothing else is captured. *)
Lemma captures_only pat segs acc name s :
  captures acc pat segs !! name = Some s ->
  acc !! name = Some s
  \/ exists k, pat !! k = Some (Router.Param name) /\ segs !! k = Some s.
Proof.
  revert segs acc. induction pat as [|p pat IH]; intros segs acc; [by left|].
  destruct segs as [|s0 segs]; [by left|]. unfold captures. simpl.
  intros [Hacc|(k & Hk & Hs)]%IH.
  - destruct p as [l|n']; simpl in Hacc; [by left|].
    destruct (decide (n' = name)) as [->|Hne].
    + rewrite lookup_insert_eq in Hacc. injection Hacc as ->. right. by exists 0%nat.
    + rewrite lookup_insert_ne in Hacc by done. by left.
  - right. by exists (S k).
Qed.

(** On a match the request that reaches the handler is the request that
    came in with its path parameters set to the captures of the route. *)
Lemma match_populates rt req h req' :
  Router.match_ rt req = (Some h, req') ->
  exists r,
    r ∈ rt /\ h = Router.r_handler r
    /\ Router.route_match r req = Some (Request.path_params req')
    /\ Request.method req' = Request.method req
    /\ Request.path req' = Request.path req
    /\ Request.query_params req' = Request.query_params req
    /\ Request.headers req' = Request.headers req
    /\ Request.body req' = Request.body req.
Proof.
  intros (i & r & ps & Hi & Hm & _ & -> & ->)%match_first.
  exists r. split; [apply list_elem_of_lookup; by exists i|].
  split; [done|]. split; [exact Hm|]. done.
Qed.

End RouterFacts.

(** C2. [Router.match] never raises: it either gives the no-match signal and
    leaves the request alone, or gives the handler of a registered route.
    The handler is that of the first registered route whose method equals
    the request's method up to case and whose pattern accepts the whole
    path, segment by segment; the request's path parameters become the
    segments captured by the placeholders: the request handed on has them
    as its [path_params] and is otherwise the request that came in. When
    every route differs in method or in the number of segments, the outcome
    is the no-match signal. *)
Theorem router_match_first_route {H : Type} (rt : Router.t H) (req : Request.t) :
  (Router.match_ rt req = (None, req)
   \/ exists r ps, r ∈ rt /\ Router.route_match r req = Some ps
        /\ Router.match_ rt req = (Some (Router.r_handler r), Request.with_path_params req ps))
  /\ (forall h req',
        Router.match_ rt req = (Some h, req')
        <-> exists i r ps,
              rt !! i = Some r /\ Router.route_match r req = Some ps
              /\ (forall j r', (j < i)%nat -> rt !! j = Some r' -> Router.route_match r' req = None)
              /\ h = Router.r_handler r /\ req' = Request.with_path_params req ps)
  /\ (forall (r : Router.route H) ps,
        Router.route_match r req = Some ps
        <-> py_upper (Router.r_method r) = py_upper (Request.method req)
            /\ Forall2 seg_matches (Router.r_regex r) (split_on "/" (Request.path req))
            /\ ps = captures ∅ (Router.r_regex r) (split_on "/" (Request.path req)))
  /\ (forall (r : Router.route H) ps k name s,
        Router.route_match r req = Some ps ->
        Router.r_regex r !! k = Some (Router.Param name) ->
        split_on "/" (Request.path req) !! k = Some s ->
        (forall k', (k < k')%nat -> Router.r_regex r !! k' <> Some (Router.Param name)) ->
        ps !! name = Some s)
  /\ (forall (r : Router.route H) ps name s,
        Router.route_match r req = Some ps -> ps !! name = Some s ->
        exists k, Router.r_regex r !! k = Some (Router.Param name)
                  /\ split_on "/" (Request.path req) !! k = Some s)
  /\ ((forall r, r ∈ rt ->
         py_upper (Router.r_method r) <> py_upper (Request.method req)
         \/ length (Router.r_regex r) <> length (split_on "/" (Request.path req))) ->
      Router.match_ rt req = (None, req))
  /\ (forall h req',
        Router.match_ rt req = (Some h, req') ->
        exists r,
          r ∈ rt /\ h = Router.r_handler r
          /\ Router.route_match r req = Some (Request.path_params req')
          /\ Request.path_params req'
             = captures ∅ (Router.r_regex r) (split_on "/" (Request.path req))
          /\ Request.method req' = Request.method req
          /\ Request.path req' = Request.path req
          /\ Request.query_params req' = Request.query_params req
          /\ Request.headers req' = Request.headers req
          /\ Request.body req' = Request.body req).
Proof.
  split; [apply match_total|].
  split; [intros h req'; apply match_first|].
  split; [intros r ps; apply route_match_spec|].
  split; [|split; [|split]]; cycle 3.
  { intros h req' Hmatch.
    destruct (match_populates rt req h req' Hmatch)
      as (r & Hr & Hh & Hm & Hmeth & Hpath & Hq & Hhd & Hb).
    exists r. repeat (split; [done|]). split; [|done].
    by apply route_match_spec in Hm as (_ & _ & Hps). }
  - intros r ps k name s (_ & _ & ->)%route_match_spec Hk Hs Hlast.
    by apply (captures_lookup _ _ _ k).
  - intros r ps name s (_ & _ & ->)%route_match_spec [Hacc|Hk]%captures_only; done.
  - intros Hall. apply match_none. split; [|done].
    intros r Hr. destruct (Router.route_match r req) as [ps|] eqn:Hm; [|done].
    apply route_match_spec in Hm as (Hmeth & Hf & _).
    destruct (Hall r Hr) as [Hne|Hne]; [done|].
    by apply Forall2_length in Hf.
Qed.

(** The router of [test_param_match] and [test_method_match]: one route,
    bound to a handler named by a text. *)
Lemma router_match_first_route_witness :
  let rt := Router.get "/users/<id>" "show user" [] in
  let req := Request.init "get" "/users/123" None ∅ in
  Router.match_ rt req
    = (Some "show user", Request.with_path_params req {[ "id" := "123" ]})
  /\ Router.match_ rt (Request.init "POST" "/users/123" None ∅)
     = (None, Request.init "POST" "/users/123" None ∅)
  /\ Router.match_ rt (Request.init "GET" "/users/123/x" None ∅)
     = (None, Request.init "GET" "/users/123/x" None ∅)
  /\ Router.match_ rt (Request.init "GET" "/users" None ∅)
     = (None, Request.init "GET" "/users" None ∅)
  /\ Request.path_params (Router.match_ rt req).2 = {[ "id" := "123" ]}
  /\ Request.path_params req = ∅.
Proof.
  intros rt req.
  assert (forall r : Router.route string, r ∈ rt ->
            r = {| Router.r_method := "GET";
                   Router.r_regex := [Router.Lit ""; Router.Lit "users"; Router.Param "id"];
                   Router.r_handler := "show user" |}) as Hrt.
  { intros r Hr. apply list_elem_of_singleton in Hr. exact Hr. }
  assert (Router.match_ rt req
          = (Some "show user", Request.with_path_params req {[ "id" := "123" ]})) as Hmatch.
  { apply (proj1 (proj2 (router_match_first_route rt req))).
    eexists 0%nat, _, _. split; [reflexivity|]. split; [reflexivity|].
    split; [intros j r' Hj; lia|]. split; reflexivity. }
  split; [exact Hmatch|]. split; [|split; [|split; [|split]]].
  - apply (proj1 (proj2 (proj2 (proj2 (proj2 (proj2 (router_match_first_route rt _))))))).
    intros r ->%Hrt. left. vm_compute. congruence.
  - apply (proj1 (proj2 (proj2 (proj2 (proj2 (proj2 (router_match_first_route rt _))))))).
    intros r ->%Hrt. right. vm_compute. congruence.
  - apply (proj1 (proj2 (proj2 (proj2 (proj2 (proj2 (router_match_first_route rt _))))))).
    intros r ->%Hrt. right. vm_compute. congruence.
  - destruct (proj2 (proj2 (proj2 (proj2 (proj2 (proj2 (router_match_first_route rt req))))))
                _ _ Hmatch) as (r & Hr & _ & Hps & _).
    apply Hrt in Hr. subst r. rewrite Hmatch in *. cbn [snd] in *.
    assert (Router.route_match
              {| Router.r_method := "GET";
                 Router.r_regex := [Router.Lit ""; Router.Lit "users"; Router.Param "id"];
                 Router.r_handler := "show user" |} req
            = Some {[ "id" := "123" ]}) as Hcap by (vm_compute; reflexivity).
    congruence.
  - reflexivity.
Defined.

(** ** Validation *)

Section ModelFacts.
Context (E : runtime).

Lemma check_kind_raises name f v e :
  Fields.check_kind E name f v = Raise e -> is_ValidationError e = true.
Proof.
  unfold Fields.check_kind, Fields.fails.
  repeat case_match; intros [= <-]; done.
Qed.

Lemma validate_raises name f raw e :
  Fields.validate E name f raw = Raise e -> is_ValidationError e = true.
Proof.
  unfold Fields.validate. destruct (auto_now f); [done|].
  destruct raw as [v|].
  - destruct (Fields.check_kind E name f v) eqn:Hk; simpl; [done|].
    intros [= <-]. by eapply check_kind_raises.
  - destruct (required f); [|done]. by intros [= <-].
Qed.

Lemma validate_fields_raises fields vals e :
  Models.validate_fields E fields vals = Raise e -> is_ValidationError e = true.
Proof.
  induction fields as [|[name f] rest IH]; simpl; [done|].
  destruct (Fields.validate E name f (vals !! name)) eqn:Hv; simpl.
  - destruct (Models.validate_fields E rest vals); simpl; [done|].
    intros [= <-]. by apply IH.
  - intros [= <-]. by eapply validate_raises.
Qed.

(** One failing field makes the validation of the instance fail. *)
Lemma validate_fields_fails fields vals name f e :
  (name, f) ∈ fields ->
  Fields.validate E name f (vals !! name) = Raise e ->
  exists e', Models.validate_fields E fields vals = Raise e'.
Proof.
  induction fields as [|[name0 f0] rest IH]; intros Hin Hv.
  - by apply elem_of_nil in Hin.
  - simpl. apply elem_of_cons in Hin as [[= <- <-]|Hin].
    + rewrite Hv. by eexists.
    + destruct (Fields.validate E name0 f0 (vals !! name0)); simpl; [|by eexists].
      destruct (IH Hin Hv) as [e' ->]. by eexists.
Qed.

(** When the validation passes, every field passed. *)
Lemma validate_fields_ok fields vals m name f :
  Models.validate_fields E fields vals = Ok m ->
  (name, f) ∈ fields ->
  exists v, Fields.validate E name f (vals !! name) = Ok v.
Proof.
  intros Hok Hin.
  destruct (Fields.validate E name f (vals !! name)) as [v|e] eqn:Hv; [by eexists|].
  destruct (validate_fields_fails _ _ _ _ _ Hin Hv) as [e' He']. congruence.
Qed.

Lemma construct_lookup M kw name :
  name ∈ (schema M).*1 ->
  inst_attrs (Models.construct M kw) !! name = kw !! name.
Proof.
  intros Hin. simpl. destruct (kw !! name) as [v|] eqn:Hkw.
  - apply map_lookup_filter_Some. done.
  - apply map_lookup_filter_None. left. done.
Qed.

Lemma save_fails i now st e :
  Models.validate_fields E (schema (inst_model i)) (inst_attrs i) = Raise e ->
  Models.save E i now st = (Raise e, st).
Proof. intros Hv. unfold Models.save. by rewrite Hv. Qed.

Lemma save_raises i now st e st' :
  Models.save E i now st = (Raise e, st') ->
  is_ValidationError e = true /\ st' = st.
Proof.
  unfold Models.save.
  destruct (Models.validate_fields E _ _) eqn:Hv.
  - destruct (inst_id i); done.
  - intros [= <- <-]. split; [by eapply validate_fields_raises|done].
Qed.

Lemma str_of_validation e : is_ValidationError e = true -> e = ValidationError (exn_str e).
Proof. by destruct e. Qed.

End ModelFacts.

(** C1. When the validation of some field fails, [create] raises
    [ValidationError] and the storage after the call is the storage before
    it: nothing was inserted, so [count], [all] and [get] read what they
    read before. The same holds for [save] on any instance, persisted or
    not: the stored record is the one that was there. Conversely a [save]
    that returns normally has passed the validation of every field. *)
Theorem create_save_atomic (E : runtime) :
  (forall M kw now st name f e,
      (name, f) ∈ schema M ->
      Fields.validate E name f (kw !! name) = Raise e ->
      exists msg st',
        Models.create E M kw now st = (Raise (ValidationError msg), st')
        /\ st' = st /\ reads_same M st st')
  /\ (forall i now st name f e,
      (name, f) ∈ schema (inst_model i) ->
      Fields.validate E name f (inst_attrs i !! name) = Raise e ->
      exists msg st',
        Models.save E i now st = (Raise (ValidationError msg), st')
        /\ st' = st /\ reads_same (inst_model i) st st')
  /\ (forall i now st j st' name f,
      Models.save E i now st = (Ok j, st') ->
      (name, f) ∈ schema (inst_model i) ->
      exists v, Fields.validate E name f (inst_attrs i !! name) = Ok v).
Proof.
  assert (forall i now st name f e,
      (name, f) ∈ schema (inst_model i) ->
      Fields.validate E name f (inst_attrs i !! name) = Raise e ->
      exists msg st',
        Models.save E i now st = (Raise (ValidationError msg), st')
        /\ st' = st /\ reads_same (inst_model i) st st') as Hsave.
  { intros i now st name f e Hin Hv.
    destruct (validate_fields_fails E _ _ _ _ _ Hin Hv) as [e' He'].
    exists (exn_str e'), st. rewrite (save_fails E _ _ _ _ He').
    rewrite <- (str_of_validation e') by (by eapply validate_fields_raises).
    repeat split. }
  split; [|split; [exact Hsave|]].
  - intros M kw now st name f e Hin Hv.
    apply (Hsave (Models.construct M kw) now st name f e); [done|].
    rewrite construct_lookup; [done|]. apply list_elem_of_fmap. by exists (name, f).
  - intros i now st j st' name f Hs Hin. unfold Models.save in Hs.
    destruct (Models.validate_fields E _ _) as [m|] eqn:Hv; [|done].
    by eapply validate_fields_ok.
Qed.

(** The request of [test_validation_constraints]: a user without a name,
    when one user is stored. *)
Lemma create_save_atomic_witness :
  let st : storage := {[ "TestUser" := {| rows := [(1, {[ "name" := VStr "Existing" ]})];
                                          next_id := 2 |} ]} in
  exists msg st',
    Models.create sample_runtime TestUser {[ "age" := VInt 20 ]} 0 st
    = (Raise (ValidationError msg), st')
    /\ st' = st /\ reads_same TestUser st st'.
Proof.
  intros st.
  apply (proj1 (create_save_atomic sample_runtime) TestUser _ 0 st "name"
           (CharField None true) (ValidationError "name: this field is required")).
  - left.
  - reflexivity.
Defined.

(** ** Rows and tables *)

Section RowFacts.
Context {A : Type}.
Implicit Types (rs : list (Z * A)).

Lemma row_get_put_eq n a rs : row_get n (row_put n a rs) = Some a.
Proof.
  induction rs as [|[j b] rs IH]; simpl.
  - by rewrite Z.eqb_refl.
  - destruct (n =? j) eqn:Hnj; simpl; rewrite Hnj; done.
Qed.

Lemma row_get_put_ne n m a rs : n <> m -> row_get m (row_put n a rs) = row_get m rs.
Proof.
  intros Hne. induction rs as [|[j b] rs IH]; simpl.
  - by rewrite (proj2 (Z.eqb_neq m n)).
  - destruct (Z.eqb_spec n j) as [->|Hnj]; simpl.
    + by destruct (Z.eqb_spec m j).
    + by rewrite IH.
Qed.

Lemma row_put_keys_fresh n a rs :
  n ∉ rs.*1 -> row_put n a rs = rs ++ [(n, a)].
Proof.
  induction rs as [|[j b] rs IH]; csimpl; [done|].
  intros Hn. apply not_elem_of_cons in Hn as [Hne Hn].
  rewrite (proj2 (Z.eqb_neq n j)) by done. by rewrite IH.
Qed.

Lemma row_put_keys_known n a rs :
  n ∈ rs.*1 -> (row_put n a rs).*1 = rs.*1.
Proof.
  induction rs as [|[j b] rs IH]; csimpl.
  - intros Hn. by apply elem_of_nil in Hn.
  - intros Hn. destruct (n =? j) eqn:Hnj; csimpl; [done|].
    apply elem_of_cons in Hn as [->|Hn]; [by rewrite Z.eqb_refl in Hnj|].
    by rewrite IH.
Qed.

Lemma row_put_keys n a rs :
  (row_put n a rs).*1 = if bool_decide (n ∈ rs.*1) then rs.*1 else rs.*1 ++ [n].
Proof.
  case_bool_decide as Hn.
  - by apply row_put_keys_known.
  - rewrite row_put_keys_fresh by done. by rewrite fmap_app.
Qed.

Lemma row_del_keys_sub n rs : (row_del n rs).*1 ⊆ rs.*1.
Proof.
  induction rs as [|[j b] rs IH]; csimpl; [done|].
  destruct (n =? j); csimpl.
  - intros x Hx. by right.
  - intros x [->|Hx]%elem_of_cons; [by left|]. right. by apply IH.
Qed.

Lemma row_put_NoDup n a rs : NoDup rs.*1 -> NoDup (row_put n a rs).*1.
Proof.
  intros Hnd. rewrite row_put_keys. case_bool_decide as Hn; [done|].
  apply NoDup_app. split; [done|]. split.
  - intros x Hx ->%list_elem_of_singleton. done.
  - apply NoDup_singleton.
Qed.

Lemma row_del_NoDup n rs : NoDup rs.*1 -> NoDup (row_del n rs).*1.
Proof.
  induction rs as [|[j b] rs IH]; csimpl; [done|].
  intros [Hj Hnd]%NoDup_cons. destruct (n =? j); csimpl; [done|].
  apply NoDup_cons. split; [|by apply IH].
  intros Hin. apply Hj. by apply (row_del_keys_sub n).
Qed.
End RowFacts.

Lemma table_of_put_eq M tb st : table_of (Models.put_table M tb st) M = tb.
Proof. unfold table_of, Models.put_table. by rewrite lookup_insert_eq. Qed.

Lemma table_named_put M tb st name :
  table_named (Models.put_table M tb st) name
  = if bool_decide (model_name M = name) then tb else table_named st name.
Proof.
  unfold table_named, Models.put_table. case_bool_decide as Hn.
  - subst. by rewrite lookup_insert_eq.
  - by rewrite lookup_insert_ne.
Qed.

Lemma table_of_named st M : table_of st M = table_named st (model_name M).
Proof. done. Qed.

(** ** [auto_now] *)

Section AutoNow.
Context (E : runtime).

Lemma stamp_lookup now fields vals name f :
  (name, f) ∈ fields -> auto_now f = true ->
  Models.stamp now fields vals !! name = Some (VDatetime now).
Proof.
  intros Hin Hauto. induction fields as [|[n0 f0] rest IH]; simpl.
  - by apply elem_of_nil in Hin.
  - apply elem_of_cons in Hin as [[= <- <-]|Hin].
    + rewrite Hauto. by rewrite lookup_insert_eq.
    + destruct (auto_now f0); [|by apply IH].
      destruct (decide (n0 = name)) as [->|Hne].
      * by rewrite lookup_insert_eq.
      * rewrite lookup_insert_ne by done. by apply IH.
Qed.

(** An [auto_now] field of a saved record holds what the stored record
    held, whatever the instance holds. *)
Lemma keep_stamps_lookup old fields vals name f :
  (name, f) ∈ fields -> auto_now f = true ->
  Models.keep_stamps old fields vals !! name = old !! name.
Proof.
  intros Hin Hauto. induction fields as [|[n0 f0] rest IH]; simpl.
  - by apply elem_of_nil in Hin.
  - assert (forall m : gmap string value,
              (match old !! name with
               | Some v => <[name := v]> m
               | None => delete name m
               end) !! name = old !! name) as Hset.
    { intros m. destruct (old !! name) as [v|] eqn:Hold.
      - by rewrite lookup_insert_eq.
      - by rewrite lookup_delete_eq. }
    apply elem_of_cons in Hin as [[= <- <-]|Hin].
    + rewrite Hauto. apply Hset.
    + destruct (auto_now f0); [|by apply IH].
      destruct (decide (n0 = name)) as [->|Hne]; [apply Hset|].
      destruct (old !! n0).
      * rewrite lookup_insert_ne by done. by apply IH.
      * rewrite lookup_delete_ne by done. by apply IH.
Qed.

Lemma set_attrs_id (updates : list (string * value)) i :
  inst_id (foldl (fun j u => Models.set_attr u.1 u.2 j) i updates) = inst_id i
  /\ inst_model (foldl (fun j u => Models.set_attr u.1 u.2 j) i updates) = inst_model i.
Proof.
  revert i. induction updates as [|[n v] rest IH]; intros i; [done|].
  simpl. destruct (IH (Models.set_attr n v i)) as [-> ->]. done.
Qed.

(** A save of a persisted instance keeps the stored value of an [auto_now]
    field, in the record and in the instance it returns, whatever the
    instance held for it. *)
Lemma save_keeps_timestamp i now st M n name f v :
  inst_model i = M -> inst_id i = Some n ->
  (name, f) ∈ schema M -> auto_now f = true ->
  stored_attr st M n name = Some v ->
  forall r st', Models.save E i now st = (r, st') ->
    stored_attr st' M n name = Some v
    /\ match r with
       | Ok j => inst_model j = M /\ inst_id j = Some n /\ inst_attrs j !! name = Some v
       | Raise _ => True
       end.
Proof.
  intros HM Hid Hin Hauto Hstored r st'. unfold Models.save. rewrite HM, Hid.
  destruct (Models.validate_fields E (schema M) (inst_attrs i)) as [m|] eqn:Hv.
  - intros [= <- <-]. simpl.
    assert (Models.keep_stamps (default ∅ (row_get n (rows (table_of st M)))) (schema M) m
              !! name = Some v) as Hkeep.
    { rewrite (keep_stamps_lookup _ _ _ _ _ Hin Hauto).
      unfold stored_attr in Hstored.
      by destruct (row_get n (rows (table_of st M))). }
    split; [|done]. unfold stored_attr. rewrite table_of_put_eq. simpl.
    by rewrite row_get_put_eq.
  - intros [= <- <-]. done.
Qed.

End AutoNow.

Section AutoNowIgnored.
Context (E : runtime).

Lemma stamp_lookup_gen now fields vals k :
  Models.stamp now fields vals !! k
  = if stamped k fields then Some (VDatetime now) else vals !! k.
Proof.
  induction fields as [|[n0 f0] rest IH]; simpl; [done|].
  destruct (auto_now f0) eqn:Hauto; simpl.
  - case_bool_decide as Hk; simpl.
    + subst. by rewrite lookup_insert_eq.
    + rewrite lookup_insert_ne by done. apply IH.
  - rewrite andb_false_r. simpl. apply IH.
Qed.

Lemma stamped_elem name f fields :
  (name, f) ∈ fields -> auto_now f = true -> stamped name fields = true.
Proof.
  intros Hin Hauto. apply existsb_exists. exists (name, f).
  split; [by apply list_elem_of_In|]. simpl. rewrite Hauto.
  by rewrite bool_decide_eq_true_2.
Qed.

(** Two attribute mappings that differ at most at [name], validated by
    fields that ignore [name], fail alike or pass with results that differ
    at most at [name]. *)
Lemma validate_fields_ignores fields vals1 vals2 name :
  (forall k, k <> name -> vals1 !! k = vals2 !! k) ->
  (forall f, (name, f) ∈ fields -> auto_now f = true) ->
  match Models.validate_fields E fields vals1, Models.validate_fields E fields vals2 with
  | Ok m1, Ok m2 => forall k, k <> name -> m1 !! k = m2 !! k
  | Raise e1, Raise e2 => e1 = e2
  | _, _ => False
  end.
Proof.
  intros Hagree. induction fields as [|[n0 f0] rest IH]; intros Hauto; simpl; [done|].
  assert (forall f, (name, f) ∈ rest -> auto_now f = true) as Hrest.
  { intros f Hf. apply Hauto. by right. }
  specialize (IH Hrest).
  destruct (decide (n0 = name)) as [->|Hne].
  - unfold Fields.validate. rewrite (Hauto f0) by left. simpl.
    destruct (Models.validate_fields E rest vals1) as [m1|e1],
             (Models.validate_fields E rest vals2) as [m2|e2]; simpl; try done.
    intros k Hk.
    destruct (vals1 !! name), (vals2 !! name);
      rewrite ?lookup_insert_ne by done; by apply IH.
  - rewrite (Hagree n0 Hne).
    destruct (Fields.validate E n0 f0 (vals2 !! n0)) as [v|e]; simpl; [|done].
    destruct (Models.validate_fields E rest vals1) as [m1|e1],
             (Models.validate_fields E rest vals2) as [m2|e2]; simpl; try done.
    intros k Hk. destruct v as [v|]; [|by apply IH].
    destruct (decide (n0 = k)) as [->|Hnk].
    + by rewrite !lookup_insert_eq.
    + rewrite !lookup_insert_ne by done. by apply IH.
Qed.

Lemma NoDup_fst_unique {A B} (l : list (A * B)) x y1 y2 :
  NoDup l.*1 -> (x, y1) ∈ l -> (x, y2) ∈ l -> y1 = y2.
Proof.
  induction l as [|[a b] l IH]; csimpl.
  - intros _ Hin. by apply elem_of_nil in Hin.
  - intros [Ha Hnd]%NoDup_cons H1 H2.
    apply elem_of_cons in H1 as [H1|H1]; apply elem_of_cons in H2 as [H2|H2].
    + congruence.
    + injection H1 as -> ->. exfalso. apply Ha. apply list_elem_of_fmap. by exists (a, y2).
    + injection H2 as -> ->. exfalso. apply Ha. apply list_elem_of_fmap. by exists (a, y1).
    + by apply IH.
Qed.

(** [create] does not look at the value supplied for an [auto_now]
    field. *)
Lemma create_ignores_supplied M kw1 kw2 now st name f :
  NoDup (schema M).*1 -> (name, f) ∈ schema M -> auto_now f = true ->
  (forall k, k <> name -> kw1 !! k = kw2 !! k) ->
  Models.create E M kw1 now st = Models.create E M kw2 now st.
Proof.
  intros Hnd Hin Hauto Hagree. unfold Models.create, Models.save. simpl.
  pose proof (validate_fields_ignores (schema M)
                (filter (fun kv => kv.1 ∈ (schema M).*1) kw1)
                (filter (fun kv => kv.1 ∈ (schema M).*1) kw2) name) as Hv.
  assert (forall k, k <> name ->
            filter (fun kv : string * value => kv.1 ∈ (schema M).*1) kw1 !! k
            = filter (fun kv : string * value => kv.1 ∈ (schema M).*1) kw2 !! k) as H1.
  { intros k' Hk'. rewrite !map_lookup_filter. by rewrite (Hagree k' Hk'). }
  assert (forall f', (name, f') ∈ schema M -> auto_now f' = true) as H2.
  { intros f' Hf'. by rewrite (NoDup_fst_unique _ _ _ _ Hnd Hf' Hin). }
  specialize (Hv H1 H2).
  destruct (Models.validate_fields E (schema M) (filter _ kw1)) as [m1|e1],
           (Models.validate_fields E (schema M) (filter _ kw2)) as [m2|e2];
    [|done|done|by subst].
  assert (Models.stamp now (schema M) m1 = Models.stamp now (schema M) m2) as ->; [|done].
  apply map_eq. intros k. rewrite !stamp_lookup_gen.
  destruct (stamped k (schema M)) eqn:Hk; [done|].
  apply Hv. intros ->. by rewrite (stamped_elem _ _ _ Hin Hauto) in Hk.
Qed.

End AutoNowIgnored.

(** Through any rounds of assignments and saves the instance stays the
    persisted instance it was and the stored value of an [auto_now] field
    stays what it was. *)
Lemma resave_all_keeps_timestamp (E : runtime) M n name f v rounds :
  (name, f) ∈ schema M -> auto_now f = true ->
  forall i st,
    inst_model i = M -> inst_id i = Some n ->
    stored_attr st M n name = Some v ->
    inst_model (resave_all E rounds i st).1 = M
    /\ inst_id (resave_all E rounds i st).1 = Some n
    /\ stored_attr (resave_all E rounds i st).2 M n name = Some v.
Proof.
  intros Hin Hauto. induction rounds as [|[updates now] rest IH]; intros i st HM Hid Hst.
  - done.
  - simpl.
    set (i1 := foldl (fun j u => Models.set_attr u.1 u.2 j) i updates).
    destruct (set_attrs_id updates i) as [Hid1 HM1]. fold i1 in Hid1, HM1.
    destruct (Models.save E i1 now st) as [r st1] eqn:Hsave.
    destruct (save_keeps_timestamp E i1 now st M n name f v) with (r := r) (st' := st1)
      as [Hst1 Hr]; try done; try congruence.
    destruct r as [i2|e].
    + destruct Hr as (HM2 & Hid2 & _). by apply IH.
    + apply IH; try done; congruence.
Qed.

(** C3. For a model with an [auto_now] field: [create] gives the same
    outcome whatever value the caller supplies for that field (the value is
    ignored); the field of the created instance, and of its stored record,
    is the clock reading of the [create] call; and after any rounds of
    assignments followed by [save], assignments to the field itself
    included, whatever the clock reads then and whether a save passes or
    raises, the stored record still holds the timestamp of the creation,
    and so does the instance that any further [save] returns, whatever was
    assigned before it. *)
Theorem auto_now_computed_once (E : runtime) M kw now st i st' name f :
  NoDup (schema M).*1 ->
  (name, f) ∈ schema M -> auto_now f = true ->
  Models.create E M kw now st = (Ok i, st') ->
  (forall v, Models.create E M (<[name := v]> kw) now st = (Ok i, st'))
  /\ exists n,
       inst_id i = Some n
       /\ inst_attrs i !! name = Some (VDatetime now)
       /\ stored_attr st' M n name = Some (VDatetime now)
       /\ forall rounds,
            stored_attr (resave_all E rounds i st').2 M n name = Some (VDatetime now)
            /\ forall updates now' j st'',
                 Models.save E
                   (foldl (fun j u => Models.set_attr u.1 u.2 j)
                      (resave_all E rounds i st').1 updates)
                   now' (resave_all E rounds i st').2 = (Ok j, st'') ->
                 inst_attrs j !! name = Some (VDatetime now)
                 /\ stored_attr st'' M n name = Some (VDatetime now).
Proof.
  intros Hnd Hin Hauto Hcreate. split.
  - intros v. rewrite <- Hcreate.
    apply (create_ignores_supplied E M _ _ now st name f); try done.
    intros k Hk. by rewrite lookup_insert_ne.
  - unfold Models.create, Models.save in Hcreate. simpl in Hcreate.
    destruct (Models.validate_fields E (schema M) _) as [m|] eqn:Hv; [|done].
    injection Hcreate as <- <-.
    exists (next_id (table_of st M)). simpl.
    assert (Models.stamp now (schema M) m !! name = Some (VDatetime now)) as Hstamp.
    { by eapply stamp_lookup. }
    assert (stored_attr
              (Models.put_table M
                 {| rows := row_put (next_id (table_of st M)) (Models.stamp now (schema M) m)
                              (rows (table_of st M));
                    next_id := next_id (table_of st M) + 1 |} st)
              M (next_id (table_of st M)) name = Some (VDatetime now)) as Hstored.
    { unfold stored_attr. rewrite table_of_put_eq. simpl. by rewrite row_get_put_eq. }
    split; [done|]. split; [done|]. split; [done|]. intros rounds.
    set (i0 := {| inst_model := M; inst_id := Some (next_id (table_of st M));
                  inst_attrs := Models.stamp now (schema M) m |}) in *.
    set (st0 := Models.put_table M _ st) in *.
    destruct (resave_all_keeps_timestamp E M (next_id (table_of st M)) name f
                (VDatetime now) rounds Hin Hauto i0 st0 eq_refl eq_refl Hstored)
      as (HM & Hid & Hst).
    split; [exact Hst|]. intros updates now' j st'' Hsave.
    destruct (set_attrs_id updates (resave_all E rounds i0 st0).1) as [Hid1 HM1].
    destruct (save_keeps_timestamp E _ now' _ M (next_id (table_of st M)) name f
                (VDatetime now) (eq_trans HM1 HM) (eq_trans Hid1 Hid) Hin Hauto Hst
                _ _ Hsave) as [Hst2 (_ & _ & Hattr)].
    done.
Qed.

(** A user created with a supplied [created_at]; whatever the caller
    assigns later, the field itself included, the timestamp stays. *)
Lemma auto_now_computed_once_witness :
  let kw : gmap string value :=
    {[ "name" := VStr "Alice"; "email" := VStr "a@x.com"; "created_at" := VStr "yesterday" ]} in
  exists i st',
    Models.create sample_runtime User kw 100 ∅ = (Ok i, st')
    /\ (forall v, Models.create sample_runtime User (<["created_at" := v]> kw) 100 ∅ = (Ok i, st'))
    /\ exists n,
         inst_id i = Some n
         /\ inst_attrs i !! "created_at" = Some (VDatetime 100)
         /\ stored_attr st' User n "created_at" = Some (VDatetime 100)
         /\ forall rounds,
              stored_attr (resave_all sample_runtime rounds i st').2 User n "created_at"
              = Some (VDatetime 100)
              /\ forall updates now' j st'',
                   Models.save sample_runtime
                     (foldl (fun j u => Models.set_attr u.1 u.2 j)
                        (resave_all sample_runtime rounds i st').1 updates)
                     now' (resave_all sample_runtime rounds i st').2 = (Ok j, st'') ->
                   inst_attrs j !! "created_at" = Some (VDatetime 100)
                   /\ stored_attr st'' User n "created_at" = Some (VDatetime 100).
Proof.
  intros kw. eexists _, _. split; [vm_compute; reflexivity|].
  apply (auto_now_computed_once sample_runtime User kw 100 ∅ _ _ "created_at"
           (DateTimeField true)).
  - apply (bool_decide_unpack _). vm_compute. reflexivity.
  - do 2 right. left.
  - reflexivity.
  - vm_compute. reflexivity.
Defined.

(** [user.created_at = "junk"; user.name = "Bob"; user.save()]: the record
    takes the new name and keeps its timestamp. *)
Example assigned_timestamp_ignored_ex :
  let kw : gmap string value := {[ "name" := VStr "Alice"; "email" := VStr "a@x.com" ]} in
  exists user st1 saved st2,
    Models.create sample_runtime User kw 100 ∅ = (Ok user, st1)
    /\ Models.save sample_runtime
         (Models.set_attr "name" (VStr "Bob")
            (Models.set_attr "created_at" (VStr "junk") user)) 200 st1 = (Ok saved, st2)
    /\ stored_attr st2 User 1 "created_at" = Some (VDatetime 100)
    /\ stored_attr st2 User 1 "name" = Some (VStr "Bob")
    /\ Models.attr saved "created_at" = VDatetime 100.
Proof.
  intros kw. eexists _, _, _, _. split; [vm_compute; reflexivity|].
  split; [vm_compute; reflexivity|]. split; [vm_compute; reflexivity|].
  split; vm_compute; reflexivity.
Qed.

(** ** Ids *)

Lemma table_ok_empty : table_ok empty_table.
Proof. repeat split; [done|constructor|constructor]. Qed.

Lemma table_ok_put_known t n v :
  table_ok t -> 1 <= n < next_id t ->
  table_ok {| rows := row_put n v (rows t); next_id := next_id t |}.
Proof.
  intros (H1 & Hnd & Hall) Hn. repeat split; simpl; [done|by apply row_put_NoDup|].
  rewrite row_put_keys. case_bool_decide; [done|].
  apply Forall_app. split; [done|]. by apply Forall_singleton.
Qed.

Lemma table_ok_put_next t v :
  table_ok t ->
  table_ok {| rows := row_put (next_id t) v (rows t); next_id := next_id t + 1 |}.
Proof.
  intros (H1 & Hnd & Hall). repeat split; simpl; [lia|by apply row_put_NoDup|].
  rewrite row_put_keys. case_bool_decide.
  - eapply Forall_impl; [done|]. simpl. lia.
  - apply Forall_app. split.
    + eapply Forall_impl; [done|]. simpl. lia.
    + apply Forall_singleton. lia.
Qed.

Lemma table_ok_del t n :
  table_ok t -> table_ok {| rows := row_del n (rows t); next_id := next_id t |}.
Proof.
  intros (H1 & Hnd & Hall). repeat split; simpl; [done|by apply row_del_NoDup|].
  apply Forall_forall. intros x Hx. rewrite Forall_forall in Hall.
  apply Hall. by apply (row_del_keys_sub n).
Qed.

(** The id a fresh table counter hands out is not in the table. *)
Lemma table_ok_next_fresh t : table_ok t -> next_id t ∉ (rows t).*1.
Proof.
  intros (_ & _ & Hall) Hin. rewrite Forall_forall in Hall.
  specialize (Hall _ Hin). lia.
Qed.

Lemma ids_of_app name l1 l2 : ids_of name (l1 ++ l2) = ids_of name l1 ++ ids_of name l2.
Proof. unfold ids_of. by rewrite filter_app, fmap_app. Qed.

Lemma ids_of_one name name' n :
  ids_of name [(name', n)] = if bool_decide (name' = name) then [n] else [].
Proof.
  unfold ids_of. case_bool_decide as Hn.
  - by rewrite filter_cons_True.
  - by rewrite filter_cons_False.
Qed.

Lemma seq_next k :
  1 <= k ->
  Z.of_nat <$> seq 1 (Z.to_nat (k + 1 - 1))
  = (Z.of_nat <$> seq 1 (Z.to_nat (k - 1))) ++ [k].
Proof.
  intros Hk. replace (Z.to_nat (k + 1 - 1)) with (S (Z.to_nat (k - 1))) by lia.
  rewrite seq_S, fmap_app. simpl. do 2 f_equal. lia.
Qed.

Section Process.
Context (E : runtime).

(** What a [save] does to the storage: nothing when it raises; otherwise the
    table of the model gets the record, at the id of the instance or at the
    next id, which then moves on. *)
Lemma save_effect i now st r st' :
  Models.save E i now st = (r, st') ->
  match r with
  | Raise _ => st' = st
  | Ok j =>
      inst_model j = inst_model i
      /\ exists vals,
           inst_attrs j = vals
           /\ match inst_id i with
              | Some n =>
                  inst_id j = Some n
                  /\ st' = Models.put_table (inst_model i)
                             {| rows := row_put n vals (rows (table_of st (inst_model i)));
                                next_id := next_id (table_of st (inst_model i)) |} st
              | None =>
                  inst_id j = Some (next_id (table_of st (inst_model i)))
                  /\ st' = Models.put_table (inst_model i)
                             {| rows := row_put (next_id (table_of st (inst_model i))) vals
                                          (rows (table_of st (inst_model i)));
                                next_id := next_id (table_of st (inst_model i)) + 1 |} st
              end
  end.
Proof.
  unfold Models.save.
  destruct (Models.validate_fields E _ _) as [m|e]; [|by intros [= <- <-]].
  destruct (inst_id i) as [n|]; intros [= <- <-]; simpl; (split; [done|]); eexists; done.
Qed.

(** Writing the table of [M] keeps a process well formed when the new table
    is well formed, its counter did not go back, and the log grew by what
    the counter moved. *)
Lemma process_ok_put p M tb objs' delta :
  process_ok p ->
  table_ok tb ->
  next_id (table_of (p_store p) M) <= next_id tb ->
  ids_of (model_name M) (p_log p ++ delta)
  = Z.of_nat <$> seq 1 (Z.to_nat (next_id tb - 1)) ->
  (forall name, name <> model_name M -> ids_of name delta = []) ->
  (forall i n, i ∈ objs' -> inst_id i = Some n ->
     i ∈ p_objs p \/ (inst_model i = M /\ 1 <= n < next_id tb)) ->
  process_ok {| p_store := Models.put_table M tb (p_store p); p_objs := objs';
                p_log := p_log p ++ delta |}.
Proof.
  intros (Htabs & Hlog & Hobjs) Htb Hmono Hids Hdelta Hobjs'.
  split; [|split]; simpl.
  - intros name. rewrite table_named_put. case_bool_decide; [done|apply Htabs].
  - intros name. rewrite table_named_put. case_bool_decide as Hn.
    + by subst.
    + rewrite ids_of_app, Hdelta by done. rewrite app_nil_r. apply Hlog.
  - intros i n Hi Hid. rewrite table_of_named, table_named_put.
    destruct (Hobjs' i n Hi Hid) as [Hold|[HM Hn]].
    + specialize (Hobjs i n Hold Hid). rewrite table_of_named in Hobjs.
      case_bool_decide as Hname; [|done].
      rewrite table_of_named, Hname in Hmono. lia.
    + subst. by rewrite bool_decide_eq_true_2.
Qed.

Lemma process_ok_same_store p objs' :
  process_ok p ->
  (forall i n, i ∈ objs' -> inst_id i = Some n ->
     i ∈ p_objs p
     \/ 1 <= n < next_id (table_of (p_store p) (inst_model i))) ->
  process_ok {| p_store := p_store p; p_objs := objs'; p_log := p_log p |}.
Proof.
  intros (Htabs & Hlog & Hobjs) Hobjs'. split; [|split]; simpl; [done|done|].
  intros i n Hi Hid. destruct (Hobjs' i n Hi Hid) as [Hold|Hn]; [by apply Hobjs|done].
Qed.

End Process.

Section ProcessSteps.
Context (E : runtime).

Lemma row_get_key {A} n (rs : list (Z * A)) a : row_get n rs = Some a -> n ∈ rs.*1.
Proof.
  induction rs as [|[j b] rs IH]; csimpl; [done|].
  destruct (Z.eqb_spec n j) as [->|Hne]; [by left|]. intros Hr. right. by apply IH.
Qed.

Lemma process_ok_start st : process_ok (start st).
Proof.
  split; [|split]; simpl.
  - intros name. unfold table_named. rewrite lookup_empty. apply table_ok_empty.
  - intros name. unfold table_named. by rewrite lookup_empty.
  - intros i n Hi. by apply elem_of_nil in Hi.
Qed.

Lemma process_ok_first_save p i j now st' objs' :
  process_ok p ->
  inst_id i = None ->
  Models.save E i now (p_store p) = (Ok j, st') ->
  (forall k n, k ∈ objs' -> inst_id k = Some n -> k ∈ p_objs p \/ k = j) ->
  process_ok {| p_store := st'; p_objs := objs'; p_log := p_log p ++ log_first_save i j |}.
Proof.
  intros Hok Hnone Hsave Hobjs'. pose proof Hok as (Htabs & Hlog & Hobjs).
  apply save_effect in Hsave as (HM & vals & _ & Hst). rewrite Hnone in Hst.
  destruct Hst as [Hid ->]. unfold log_first_save. rewrite Hnone, Hid, HM.
  set (M := inst_model i) in *.
  pose proof (Htabs (model_name M)) as HtM. rewrite <- table_of_named in HtM.
  apply process_ok_put; try done.
  - by apply table_ok_put_next.
  - simpl. lia.
  - rewrite ids_of_app, ids_of_one, bool_decide_eq_true_2 by done. simpl.
    rewrite seq_next by apply HtM. f_equal. rewrite table_of_named. apply Hlog.
  - intros name Hname. rewrite ids_of_one. by rewrite bool_decide_eq_false_2.
  - intros k n Hk Hkid. destruct (Hobjs' k n Hk Hkid) as [Hold| ->]; [by left|].
    right. split; [done|]. simpl. rewrite Hid in Hkid. injection Hkid as <-.
    destruct HtM as (H1 & _). lia.
Qed.

Lemma process_ok_resave p i j n now st' objs' :
  process_ok p ->
  i ∈ p_objs p -> inst_id i = Some n ->
  Models.save E i now (p_store p) = (Ok j, st') ->
  (forall k m, k ∈ objs' -> inst_id k = Some m -> k ∈ p_objs p \/ k = j) ->
  process_ok {| p_store := st'; p_objs := objs'; p_log := p_log p ++ log_first_save i j |}.
Proof.
  intros Hok Hi Hsome Hsave Hobjs'. pose proof Hok as (Htabs & Hlog & Hobjs).
  apply save_effect in Hsave as (HM & vals & _ & Hst). rewrite Hsome in Hst.
  destruct Hst as [Hid ->]. unfold log_first_save. rewrite Hsome.
  pose proof (Hobjs i n Hi Hsome) as Hn.
  set (M := inst_model i) in *.
  pose proof (Htabs (model_name M)) as HtM. rewrite <- table_of_named in HtM.
  apply process_ok_put; try done.
  - by apply table_ok_put_known.
  - rewrite app_nil_r. simpl. rewrite table_of_named. apply Hlog.
  - intros k m Hk Hkid. destruct (Hobjs' k m Hk Hkid) as [Hold| ->]; [by left|].
    right. split; [done|]. simpl. rewrite Hid in Hkid. by injection Hkid as <-.
Qed.

Lemma process_eta p : {| p_store := p_store p; p_objs := p_objs p; p_log := p_log p |} = p.
Proof. by destruct p. Qed.

Lemma step_ok p o : process_ok p -> process_ok (step E p o).
Proof.
  intros Hok. pose proof Hok as (Htabs & Hlog & Hobjs).
  destruct o as [M kw|M kw now|M n|h name v|h now|h]; simpl.
  - apply process_ok_same_store; [done|].
    intros i n [Hi| ->%list_elem_of_singleton]%elem_of_app Hid; [by left|done].
  - destruct (Models.create E M kw now (p_store p)) as [[j|e] st'] eqn:Hc.
    + unfold Models.create in Hc.
      eapply process_ok_first_save; [done| |exact Hc|]; [done|].
      intros k n [Hk| ->%list_elem_of_singleton]%elem_of_app _; [by left|by right].
    + unfold Models.create in Hc. apply save_effect in Hc as ->. by rewrite process_eta.
  - unfold Models.get.
    destruct (row_get n (rows (table_of (p_store p) M))) as [vals|] eqn:Hg.
    + apply process_ok_same_store; [done|].
      intros i m [Hi| ->%list_elem_of_singleton]%elem_of_app Hid; [by left|].
      right. simpl in *. injection Hid as <-.
      apply row_get_key in Hg. destruct (Htabs (model_name M)) as (_ & _ & Hall).
      rewrite Forall_forall in Hall. by apply Hall.
    + by rewrite process_eta.
  - apply process_ok_same_store; [done|].
    intros i n Hi Hid. apply list_elem_of_lookup in Hi as [k Hk].
    rewrite list_lookup_alter in Hk. case_decide as Hkh.
    + apply fmap_Some in Hk as (i0 & Hi0 & ->). simpl in *.
      right. apply (Hobjs i0 n); [|done]. apply list_elem_of_lookup. eauto.
    + left. apply list_elem_of_lookup. by exists k.
  - destruct (p_objs p !! h) as [i|] eqn:Hh; [|done].
    assert (i ∈ p_objs p) as Hi by (apply list_elem_of_lookup; by exists h).
    destruct (Models.save E i now (p_store p)) as [[j|e] st'] eqn:Hs.
    + assert (forall k m, k ∈ <[h := j]> (p_objs p) -> inst_id k = Some m ->
                k ∈ p_objs p \/ k = j) as Hins.
      { intros k m Hk _. apply list_elem_of_lookup in Hk as [x Hx].
        destruct (decide (x = h)) as [->|Hne].
        - rewrite list_lookup_insert_eq in Hx by (by eapply lookup_lt_Some).
          injection Hx as <-. by right.
        - rewrite list_lookup_insert_ne in Hx by done.
          left. apply list_elem_of_lookup. by exists x. }
      destruct (inst_id i) as [n|] eqn:Hid.
      * by eapply process_ok_resave.
      * by eapply process_ok_first_save.
    + apply save_effect in Hs as ->. by rewrite process_eta.
  - destruct (p_objs p !! h) as [i|] eqn:Hh; [|done].
    assert (i ∈ p_objs p) as Hi by (apply list_elem_of_lookup; by exists h).
    unfold Models.delete. destruct (inst_id i) as [n|] eqn:Hid; simpl.
    + rewrite <- (app_nil_r (p_log p)).
      pose proof (Htabs (model_name (inst_model i))) as HtM.
      rewrite <- table_of_named in HtM.
      apply process_ok_put; try done.
      * by apply table_ok_del.
      * rewrite app_nil_r. simpl. rewrite table_of_named. apply Hlog.
      * intros k m Hk _. by left.
    + by rewrite process_eta.
Qed.

Lemma run_ok ops p : process_ok p -> process_ok (run E ops p).
Proof.
  revert p. induction ops as [|o ops IH]; intros p Hok; [done|].
  apply IH. by apply step_ok.
Qed.

(** The id of an instance does not change once it has one. *)
Lemma step_id_stable p o h i n :
  p_objs p !! h = Some i -> inst_id i = Some n ->
  exists j, p_objs (step E p o) !! h = Some j /\ inst_id j = Some n.
Proof.
  intros Hh Hid.
  destruct o as [M kw|M kw now|M m|h' name v|h' now|h']; simpl.
  - exists i. split; [|done]. by apply lookup_app_l_Some.
  - destruct (Models.create E M kw now (p_store p)) as [[j|e] st']; simpl.
    + exists i. split; [|done]. by apply lookup_app_l_Some.
    + by exists i.
  - destruct (Models.get M m 0 (p_store p)) as [[j|e] st']; simpl.
    + exists i. split; [|done]. by apply lookup_app_l_Some.
    + by exists i.
  - rewrite list_lookup_alter. case_decide as Hhh.
    + subst h'. rewrite Hh. simpl. by eexists.
    + by exists i.
  - destruct (p_objs p !! h') as [i'|] eqn:Hh'; [|by exists i].
    destruct (Models.save E i' now (p_store p)) as [[j|e] st'] eqn:Hs; simpl; [|by exists i].
    destruct (decide (h' = h)) as [->|Hne].
    + rewrite list_lookup_insert_eq by (by eapply lookup_lt_Some).
      exists j. split; [done|]. rewrite Hh in Hh'. injection Hh' as <-.
      apply save_effect in Hs as (_ & vals & _ & Hst). rewrite Hid in Hst. tauto.
    + rewrite list_lookup_insert_ne by done. by exists i.
  - destruct (p_objs p !! h') as [i'|]; by exists i.
Qed.

Lemma run_id_stable ops p h i n :
  p_objs p !! h = Some i -> inst_id i = Some n ->
  exists j, p_objs (run E ops p) !! h = Some j /\ inst_id j = Some n.
Proof.
  revert p i. induction ops as [|o ops IH]; intros p i Hh Hid; [by exists i|].
  destruct (step_id_stable p o h i n Hh Hid) as (j & Hj & Hjid).
  simpl. by apply (IH _ j).
Qed.

End ProcessSteps.

(** C9, as the model has it. In a process that starts from the reset
    storage and does not reset it again, whatever program of constructions,
    [create], [get], assignments, [save] and removals it runs: the ids
    handed out to a model type are exactly 1, 2, 3, ... in that order, so
    they increase strictly from 1 and none is handed out twice, removals
    notwithstanding; the ids of a table are pairwise distinct and each was
    handed out to that type; the id the counter will hand out next has not
    been handed out; and an instance that has an id keeps it whatever the
    program does next. *)
Theorem ids_unique_increasing (E : runtime) (ops : list op) (st0 : storage) :
  let p := run E ops (start st0) in
  (forall name,
     ids_of name (p_log p) = Z.of_nat <$> seq 1 (length (ids_of name (p_log p))))
  /\ (forall name, NoDup (ids_of name (p_log p)))
  /\ (forall M, NoDup (rows (table_of (p_store p) M)).*1)
  /\ (forall M n, n ∈ (rows (table_of (p_store p) M)).*1 ->
        n ∈ ids_of (model_name M) (p_log p))
  /\ (forall M, next_id (table_of (p_store p) M) ∉ ids_of (model_name M) (p_log p))
  /\ (forall h i n more,
        p_objs p !! h = Some i -> inst_id i = Some n ->
        exists j, p_objs (run E more p) !! h = Some j /\ inst_id j = Some n).
Proof.
  intros p.
  assert (process_ok p) as (Htabs & Hlog & Hobjs).
  { apply run_ok, process_ok_start. }
  assert (forall name, NoDup (ids_of name (p_log p))) as Hnd.
  { intros name. rewrite Hlog. apply NoDup_fmap; [apply _|apply NoDup_seq]. }
  split; [|split; [exact Hnd|split; [|split; [|split]]]].
  - intros name. rewrite Hlog at 1. by rewrite Hlog, length_fmap, length_seq.
  - intros M. apply (Htabs (model_name M)).
  - intros M n Hn. rewrite Hlog.
    destruct (Htabs (model_name M)) as (_ & _ & Hall). rewrite Forall_forall in Hall.
    specialize (Hall n Hn). apply list_elem_of_fmap. exists (Z.to_nat n).
    split; [lia|]. apply elem_of_seq. lia.
  - intros M. rewrite Hlog, table_of_named.
    intros (k & Hk & Hin)%list_elem_of_fmap. apply elem_of_seq in Hin.
    destruct (Htabs (model_name M)) as (H1 & _). lia.
  - intros h i n more Hh Hid. by eapply run_id_stable.
Qed.

(** Two users, the first removed, then a third; the second is renamed and
    saved afterwards. *)
Lemma ids_unique_increasing_witness :
  let user name : gmap string value :=
    {[ "name" := VStr name; "email" := VStr "a@x.com" ]} in
  let ops := [OpCreate User (user "A") 10; OpCreate User (user "B") 11; OpDelete 0;
              OpCreate User (user "C") 12] in
  let p := run sample_runtime ops (start ∅) in
  ids_of "User" (p_log p) = [1; 2; 3]
  /\ (rows (table_of (p_store p) User)).*1 = [2; 3]
  /\ exists j,
       p_objs (run sample_runtime [OpSet 1 "name" (VStr "Bob"); OpSave 1 13] p) !! 1%nat
       = Some j
       /\ inst_id j = Some 2.
Proof.
  intros user ops p. split; [|split].
  - rewrite (proj1 (ids_unique_increasing sample_runtime ops ∅) "User").
    vm_compute. reflexivity.
  - vm_compute. reflexivity.
  - eapply (proj2 (proj2 (proj2 (proj2 (proj2 (ids_unique_increasing sample_runtime ops ∅)))))
              1%nat _ 2).
    + vm_compute. reflexivity.
    + reflexivity.
Defined.

(** C9 as it is written fails when the storage is reset in the middle of a
    process run, as the set-up of each test does: [_clear_storage] resets
    the id counters, and the next user gets the id 1 again. *)
Lemma id_reused_after_reset_counterexample :
  let kw : gmap string value := {[ "name" := VStr "Existing"; "email" := VStr "e@x.com" ]} in
  exists first st1 st2 second st3,
    Models.create sample_runtime User kw 10 ∅ = (Ok first, st1)
    /\ Models._clear_storage 11 st1 = (Ok tt, st2)
    /\ Models.create sample_runtime User kw 12 st2 = (Ok second, st3)
    /\ inst_id first = Some 1
    /\ inst_id second = Some 1.
Proof.
  intros kw. eexists _, _, _, _, _.
  split; [vm_compute; reflexivity|]. split; [reflexivity|].
  split; [vm_compute; reflexivity|]. split; reflexivity.
Qed.

(** ** The request body *)

(** Whatever the parser does, the guard of [json()] leaves no exception:
    the call returns the mapping [Request.json]. *)
Lemma json_call_ok (E : runtime) (r : Request.t) :
  Request.json_call E r = Ok (Request.json E r).
Proof.
  unfold Request.json_call, Request.json, Request.loads, Request.guarded.
  destruct (Request.body r) as [text|]; [|done].
  destruct (json_loads E text) as [v|]; [|done]. by destruct v.
Qed.

Lemma guarded_returns {A} (m : result A) (h : exn -> result A) :
  (forall e, exists a, h e = Ok a) -> exists a, Request.guarded m h = Ok a.
Proof. intros Hh. destruct m as [a|e]; simpl; [by exists a|apply Hh]. Qed.

(** C8. The call [Request.json()] never raises, whatever the body and
    whatever the parser does with it: [json.loads] raises a [TypeError] on
    an absent body and a [ValueError] on a text that is not JSON (the empty
    text included), and in both cases the call returns the empty mapping;
    a body that parses to something other than an object gives the empty
    mapping too, and a JSON object gives its mapping. *)
Theorem request_json_never_raises (E : runtime) (r : Request.t) :
  (exists m, Request.json_call E r = Ok m /\ m = Request.json E r)
  /\ (forall e, Request.loads E (Request.body r) = Raise e ->
        Request.json_call E r = Ok ∅)
  /\ (Request.body r = None ->
        (exists msg, Request.loads E (Request.body r) = Raise (TypeError msg))
        /\ Request.json_call E r = Ok ∅)
  /\ (forall text, Request.body r = Some text -> json_loads E text = None ->
        (exists msg, Request.loads E (Request.body r) = Raise (ValueError msg))
        /\ Request.json_call E r = Ok ∅)
  /\ (forall text v, Request.body r = Some text -> json_loads E text = Some v ->
        (forall d, v <> VDict d) -> Request.json_call E r = Ok ∅)
  /\ (forall text d, Request.body r = Some text -> json_loads E text = Some (VDict d) ->
        Request.json_call E r = Ok (to_mapping d)).
Proof.
  split; [|split; [|split; [|split; [|split]]]].
  - destruct (guarded_returns
                (result_bind (Request.loads E (Request.body r)) (fun v =>
                   Ok (match v with
                       | VDict d => to_mapping d
                       | _ => ∅
                       end)))
                (fun _ => Ok (∅ : gmap string value))) as [m Hm].
    { intros _. by eexists. }
    exists m. split; [exact Hm|].
    pose proof (json_call_ok E r) as Hok. unfold Request.json_call in Hok.
    congruence.
  - intros e He. unfold Request.json_call. by rewrite He.
  - intros Hbody. unfold Request.json_call. rewrite Hbody. split; [by eexists|done].
  - intros text Hbody Hloads. unfold Request.json_call, Request.loads.
    rewrite Hbody, Hloads. split; [by eexists|done].
  - intros text v Hbody Hloads Hv. unfold Request.json_call, Request.loads.
    rewrite Hbody, Hloads. simpl. destruct v; try done. by destruct (Hv d).
  - intros text d Hbody Hloads. unfold Request.json_call, Request.loads.
    by rewrite Hbody, Hloads.
Qed.

(** The body of [test_invalid_json_parsing], no body at all, the empty body
    and a body that is a JSON array. *)
Lemma request_json_never_raises_witness :
  Request.json_call sample_runtime (Request.init "POST" "/" (Some "invalid") ∅) = Ok ∅
  /\ Request.json_call sample_runtime (Request.init "POST" "/" None ∅) = Ok ∅
  /\ Request.json_call sample_runtime (Request.init "POST" "/" (Some "") ∅) = Ok ∅
  /\ Request.json_call sample_runtime (Request.init "POST" "/" (Some array_body) ∅) = Ok ∅.
Proof.
  split; [|split; [|split]].
  - apply (proj1 (proj2 (proj2 (proj2 (request_json_never_raises sample_runtime _))))
             "invalid"); reflexivity.
  - apply (proj1 (proj2 (proj2 (request_json_never_raises sample_runtime _)))).
    reflexivity.
  - apply (proj1 (proj2 (proj2 (proj2 (request_json_never_raises sample_runtime _)))) "");
      reflexivity.
  - apply (proj1 (proj2 (proj2 (proj2 (proj2 (request_json_never_raises sample_runtime _)))))
             array_body (VList [VInt 1; VInt 2])); [reflexivity|reflexivity|].
    intros d. discriminate.
Defined.

(** ** The dispatch adapter *)

Lemma build_kwargs_acc (params : list string) (pp : gmap string string)
    (acc : gmap string value) k :
  foldl (fun kwargs param =>
           match pp !! param with
           | Some v => <[param := VStr v]> kwargs
           | None => kwargs
           end) acc params !! k
  = if bool_decide (k ∈ params)
    then match pp !! k with Some s => Some (VStr s) | None => acc !! k end
    else acc !! k.
Proof.
  revert acc. induction params as [|p ps IH]; intros acc; cbn [foldl].
  - case_bool_decide as Hk; [by apply elem_of_nil in Hk|done].
  - rewrite IH. destruct (decide (k = p)) as [->|Hne].
    + rewrite (bool_decide_eq_true_2 (p ∈ p :: ps)) by left.
      destruct (pp !! p) as [s|] eqn:Hp.
      * rewrite lookup_insert_eq. by case_bool_decide.
      * by case_bool_decide.
    + assert ((match pp !! p with
               | Some v => <[p := VStr v]> acc
               | None => acc
               end) !! k = acc !! k) as ->.
      { destruct (pp !! p); [by rewrite lookup_insert_ne|done]. }
      case_bool_decide as Hps.
      * by rewrite bool_decide_eq_true_2 by (by right).
      * rewrite bool_decide_eq_false_2; [done|].
        intros [?|?]%elem_of_cons; done.
Qed.

(** The keyword arguments are the path parameters named by a declared
    parameter, and nothing else. *)
Lemma build_kwargs_spec params pp k v :
  build_kwargs params pp !! k = Some v
  <-> k ∈ params /\ exists s, pp !! k = Some s /\ v = VStr s.
Proof.
  unfold build_kwargs. rewrite build_kwargs_acc. case_bool_decide as Hk.
  - destruct (pp !! k) as [s|]; rewrite ?lookup_empty; split.
    + intros [= <-]. split; [done|]. by exists s.
    + intros (_ & s' & [= <-] & ->). done.
    + done.
    + intros (_ & s' & ? & _). done.
  - rewrite lookup_empty. split; [done|]. intros [? _]. done.
Qed.

Lemma call_method_bound func self kwargs :
  (forall k, is_Some (kwargs !! k) -> k ∈ m_params func) ->
  (forall p, p ∈ m_params func -> is_Some (kwargs !! p)) ->
  call_method func self kwargs = m_body func self kwargs.
Proof.
  intros Hdeclared Hbound. unfold call_method.
  rewrite bool_decide_eq_true_2.
  - assert (forallb (fun p => bool_decide (is_Some (kwargs !! p))) (m_params func) = true)
      as ->; [|done].
    apply forallb_forall. intros p Hp%list_elem_of_In.
    apply bool_decide_eq_true_2. by apply Hbound.
  - intros k v Hk. apply Hdeclared. by exists v.
Qed.

Lemma call_method_unbound func self kwargs p :
  (forall k, is_Some (kwargs !! k) -> k ∈ m_params func) ->
  p ∈ m_params func -> kwargs !! p = None ->
  call_method func self kwargs = raise (TypeError "missing a required argument").
Proof.
  intros Hdeclared Hp Hnone. unfold call_method.
  rewrite bool_decide_eq_true_2.
  - assert (forallb (fun p => bool_decide (is_Some (kwargs !! p))) (m_params func) = false)
      as ->; [|done].
    apply not_true_is_false. intros Hall. rewrite forallb_forall in Hall.
    specialize (Hall p ltac:(by apply list_elem_of_In)).
    apply bool_decide_eq_true_1 in Hall. rewrite Hnone in Hall. by destruct Hall.
  - intros k v Hk. apply Hdeclared. by exists v.
Qed.

(** C7. The adapter looks the method up and calls it with the keyword
    arguments [build_kwargs]: a name is passed, with the captured text as
    its value, exactly when the method declares it and the path parameters
    have it. So a path parameter that the method does not declare is
    dropped, and a declared parameter that the route did not capture is not
    supplied (the call then fails as a Python call with a missing argument
    does); when every declared parameter was captured the body of the method
    runs on these arguments. *)
Theorem adapter_passes_declared_captured
    (controller_cls : controller_class) (method_name : string) (func : method)
    (request : Request.t) :
  cc_methods controller_cls !! method_name = Some func ->
  let self := {| c_request := request; c_model := cc_model controller_cls |} in
  let kwargs := build_kwargs (m_params func) (Request.path_params request) in
  register_controller controller_cls method_name request = call_method func self kwargs
  /\ (forall k v,
        kwargs !! k = Some v
        <-> k ∈ m_params func
            /\ exists s, Request.path_params request !! k = Some s /\ v = VStr s)
  /\ (forall k, k ∉ m_params func -> kwargs !! k = None)
  /\ (forall k, Request.path_params request !! k = None -> kwargs !! k = None)
  /\ ((forall p, p ∈ m_params func -> is_Some (Request.path_params request !! p)) ->
      register_controller controller_cls method_name request = m_body func self kwargs)
  /\ (forall p, p ∈ m_params func -> Request.path_params request !! p = None ->
      register_controller controller_cls method_name request
      = raise (TypeError "missing a required argument")).
Proof.
  intros Hfunc self kwargs.
  assert (register_controller controller_cls method_name request
          = call_method func self kwargs) as Hcall.
  { unfold register_controller. by rewrite Hfunc. }
  assert (forall k v,
        kwargs !! k = Some v
        <-> k ∈ m_params func
            /\ exists s, Request.path_params request !! k = Some s /\ v = VStr s) as Hspec.
  { intros k v. apply build_kwargs_spec. }
  assert (forall k, is_Some (kwargs !! k) -> k ∈ m_params func) as Hdeclared.
  { intros k [v Hv]. by apply Hspec in Hv as [? _]. }
  split; [exact Hcall|]. split; [exact Hspec|]. split; [|split; [|split]].
  - intros k Hk. destruct (kwargs !! k) as [v|] eqn:Hv; [|done].
    destruct Hk. apply Hdeclared. by exists v.
  - intros k Hk. destruct (kwargs !! k) as [v|] eqn:Hv; [|done].
    apply Hspec in Hv as (_ & s & Hs & _). congruence.
  - intros Hall. rewrite Hcall. apply call_method_bound; [done|].
    intros p Hp. destruct (Hall p Hp) as [s Hs]. exists (VStr s).
    apply Hspec. split; [done|]. by exists s.
  - intros p Hp Hnone. rewrite Hcall. apply (call_method_unbound _ _ _ p); [done|done|].
    destruct (kwargs !! p) as [v|] eqn:Hv; [|done].
    apply Hspec in Hv as (_ & s & Hs & _). congruence.
Qed.

(** A request whose route captured [id] and [slug], bound to a method that
    declares [id] only. *)
Lemma adapter_passes_declared_captured_witness :
  let request :=
    Request.with_path_params (Request.init "GET" "/posts/5/comments" None ∅)
      {[ "id" := "5"; "slug" := "x" ]} in
  let self := {| c_request := request; c_model := Comment |} in
  let kwargs := build_kwargs ["id"] (Request.path_params request) in
  kwargs !! "id" = Some (VStr "5")
  /\ kwargs !! "slug" = None
  /\ register_controller (CommentController sample_runtime) "list_for_post" request
     = m_body (list_for_post sample_runtime) self kwargs.
Proof.
  intros request self kwargs.
  pose proof (adapter_passes_declared_captured (CommentController sample_runtime)
                "list_for_post" (list_for_post sample_runtime) request eq_refl)
    as (_ & Hspec & Hdrop & _ & Hrun & _).
  split; [|split].
  - apply Hspec. split; [left|]. exists "5". split; reflexivity.
  - apply Hdrop. intros Hin%list_elem_of_singleton. discriminate Hin.
  - apply Hrun. intros p ->%list_elem_of_singleton. exists "5". reflexivity.
Defined.

(** ** The route table of the application *)

Section AppRoutes.
Context (E : runtime).

Lemma route_match_eval {H} (r : Router.route H) req m segs :
  py_upper (Request.method req) = m ->
  split_on "/" (Request.path req) = segs ->
  Router.route_match r req
  = if String.eqb (py_upper (Router.r_method r)) m
    then Router.match_segments (Router.r_regex r) segs ∅
    else None.
Proof. intros <- <-. done. Qed.

Lemma match_cons {H} (r : Router.route H) rest req :
  Router.match_ (r :: rest) req
  = match Router.route_match r req with
    | Some ps => (Some (Router.r_handler r), Request.with_path_params req ps)
    | None => Router.match_ rest req
    end.
Proof. done. Qed.

(** [POST /posts/<id>/comments] reaches [create_for_post] with the segment
    as [id]. *)
Lemma match_create_for_post req seg :
  py_upper (Request.method req) = "POST" ->
  Request.path req = "/posts/" +:+ seg +:+ "/comments" ->
  no_char "/" seg = true ->
  Router.match_ (router E) req
  = (Some (register_controller (CommentController E) "create_for_post"),
     Request.with_path_params req {[ "id" := seg ]}).
Proof.
  intros Hm Hp Hseg.
  pose proof (split_posts_comments seg Hseg) as Hsplit. rewrite <- Hp in Hsplit.
  unfold router, Router.get, Router.post, Router.add_route. cbn [app].
  rewrite !match_cons.
  rewrite !(route_match_eval _ req "POST" _ Hm Hsplit).
  reflexivity.
Qed.

(** [GET /posts/<id>/comments] reaches [list_for_post]. *)
Lemma match_list_for_post req seg :
  py_upper (Request.method req) = "GET" ->
  Request.path req = "/posts/" +:+ seg +:+ "/comments" ->
  no_char "/" seg = true ->
  Router.match_ (router E) req
  = (Some (register_controller (CommentController E) "list_for_post"),
     Request.with_path_params req {[ "id" := seg ]}).
Proof.
  intros Hm Hp Hseg.
  pose proof (split_posts_comments seg Hseg) as Hsplit. rewrite <- Hp in Hsplit.
  unfold router, Router.get, Router.post, Router.add_route. cbn [app].
  rewrite !match_cons.
  rewrite !(route_match_eval _ req "GET" _ Hm Hsplit).
  reflexivity.
Qed.

End AppRoutes.

(** ** The handlers of the comment routes *)

Section CommentHandlers.
Context (E : runtime).

Lemma build_kwargs_id seg :
  build_kwargs ["id"] {[ "id" := seg ]} = {[ "id" := VStr seg ]}.
Proof. unfold build_kwargs. simpl. by rewrite lookup_singleton_eq. Qed.

Lemma register_controller_id cls name func req seg :
  cc_methods cls !! name = Some func ->
  m_params func = ["id"] ->
  register_controller cls name (Request.with_path_params req {[ "id" := seg ]})
  = m_body func
      {| c_request := Request.with_path_params req {[ "id" := seg ]}; c_model := cc_model cls |}
      {[ "id" := VStr seg ]}.
Proof.
  intros Hfunc Hparams. unfold register_controller. rewrite Hfunc, Hparams. simpl.
  rewrite build_kwargs_id. apply call_method_bound; rewrite Hparams.
  - intros k [v Hv]. apply lookup_singleton_Some in Hv as [<- _]. left.
  - intros p ->%list_elem_of_singleton. rewrite lookup_singleton_eq. by eexists.
Qed.

Lemma json_with_path_params req ps :
  Request.json E (Request.with_path_params req ps) = Request.json E req.
Proof. done. Qed.

(** [create_for_post] step by step: the conversion of [id] comes first and
    is not guarded; the creation is guarded and any failure of it becomes a
    400 response. *)
Lemma create_for_post_body self seg now st :
  m_body (create_for_post E) self {[ "id" := VStr seg ]} now st
  = match int_of_str E seg with
    | None => (Raise (id_error E seg), st)
    | Some n =>
        match Models.create E (c_model self)
                (<["post_id" := VInt n]> (Request.json E (c_request self))) now st with
        | (Ok instance, st') => (Ok (Response.created E (Models.to_dict E instance)), st')
        | (Raise e, st') => (Ok (Response.bad_request E (exn_str e)), st')
        end
    end.
Proof.
  unfold create_for_post, arg. simpl. rewrite lookup_singleton_eq.
  unfold bind, lift, try_except, ret. rewrite json_call_ok. simpl.
  destruct (int_of_str E seg) as [n|]; [|done].
  by destruct (Models.create E _ _ now st) as [[i|e] st'].
Qed.

(** [list_for_post] step by step: the conversion of [id] is part of the test
    of the comprehension. *)
Lemma list_for_post_body self seg now st :
  m_body (list_for_post E) self {[ "id" := VStr seg ]} now st
  = match filter_raising
            (fun c => result_bind (py_int E (VStr seg))
                        (fun n => Ok (py_eq_int (Models.attr c "post_id") n)))
            (Models.of_row (c_model self) <$> rows (table_of st (c_model self))) with
    | Ok cs => (Ok (Response.json E (VList (Models.to_dict E <$> cs)) 200), st)
    | Raise e => (Raise e, st)
    end.
Proof.
  unfold list_for_post, arg. simpl. rewrite lookup_singleton_eq.
  unfold bind, lift, ret, Models.all. simpl.
  by destruct (filter_raising _ _).
Qed.

Lemma filter_raising_ok {A} (keep : A -> bool) (cs : list A) :
  filter_raising (fun c => Ok (keep c)) cs = Ok (List.filter keep cs).
Proof.
  induction cs as [|c cs IH]; simpl; [done|]. rewrite IH. simpl. by destruct (keep c).
Qed.

Lemma filter_by_post_decimal seg n (cs : list instance) :
  int_of_str E seg = Some n ->
  filter_raising
    (fun c => result_bind (py_int E (VStr seg))
                (fun n => Ok (py_eq_int (Models.attr c "post_id") n))) cs
  = Ok (List.filter (fun c => py_eq_int (Models.attr c "post_id") n) cs).
Proof. intros Hn. simpl. rewrite Hn. simpl. apply filter_raising_ok. Qed.

Lemma filter_by_post_invalid seg (cs : list instance) :
  int_of_str E seg = None ->
  filter_raising
    (fun c => result_bind (py_int E (VStr seg))
                (fun n => Ok (py_eq_int (Models.attr c "post_id") n))) cs
  = match cs with
    | [] => Ok []
    | _ :: _ => Raise (id_error E seg)
    end.
Proof. intros Hn. destruct cs as [|c cs]; simpl; [done|]. by rewrite Hn. Qed.

(** The transport handler once the route is known. *)
Lemma handle_on_matched rt command rawpath hdrs bdy h req' now st :
  Router.match_ rt (Request.init command rawpath (Some bdy) hdrs) = (Some h, req') ->
  handle_on E rt command rawpath hdrs bdy now st
  = match h req' now st with
    | (Ok resp, st') => (Ok resp, st')
    | (Raise e, st') => (Ok (internal_error E e), st')
    end.
Proof.
  intros Hmatch. unfold handle_on. rewrite Hmatch. unfold try_except, ret.
  by destruct (h req' now st) as [[resp|e] st'].
Qed.

Lemma handle_on_unmatched rt command rawpath hdrs bdy req' now st :
  Router.match_ rt (Request.init command rawpath (Some bdy) hdrs) = (None, req') ->
  handle_on E rt command rawpath hdrs bdy now st = (Ok (Response.not_found E), st).
Proof. intros Hmatch. unfold handle_on. by rewrite Hmatch. Qed.

(** [create] on the comment model when the three caller-supplied fields
    pass: the record goes in at the next id with the values as validated. *)
Lemma comment_create_ok data n vc va now st :
  data !! "post_id" = Some (VInt n) ->
  Fields.validate E "content" (CharField (Some 500%nat) true) (data !! "content") = Ok vc ->
  Fields.validate E "author_id" (IntegerField true) (data !! "author_id") = Ok va ->
  exists vals,
    Models.create E Comment data now st
    = (Ok {| inst_model := Comment; inst_id := Some (next_id (table_of st Comment));
             inst_attrs := vals |},
       Models.put_table Comment
         {| rows := row_put (next_id (table_of st Comment)) vals (rows (table_of st Comment));
            next_id := next_id (table_of st Comment) + 1 |} st)
    /\ vals !! "post_id" = Some (VInt n).
Proof.
  intros Hpost Hcontent Hauthor. unfold Models.create, Models.save.
  cbn [inst_model Models.construct inst_id].
  assert (forall name, name ∈ (schema Comment).*1 ->
            inst_attrs (Models.construct Comment data) !! name = data !! name) as Hlook.
  { intros name Hname. by apply construct_lookup. }
  unfold schema at 1. cbn [Comment Models.validate_fields].
  rewrite !Hlook by (apply (bool_decide_unpack _); vm_compute; reflexivity).
  rewrite Hpost, Hcontent, Hauthor.
  cbn [Fields.validate IntegerField auto_now required Fields.check_kind f_kind result_bind
       DateTimeField].
  eexists. split; [reflexivity|].
  rewrite stamp_lookup_gen.
  replace (stamped "post_id" (schema Comment)) with false by reflexivity.
  by rewrite lookup_insert_eq.
Qed.

End CommentHandlers.

Lemma comment_methods_create_for_post (E : runtime) :
  cc_methods (CommentController E) !! "create_for_post" = Some (create_for_post E).
Proof. unfold CommentController. simpl. apply lookup_insert_eq. Qed.

Lemma comment_methods_list_for_post (E : runtime) :
  cc_methods (CommentController E) !! "list_for_post" = Some (list_for_post E).
Proof.
  unfold CommentController. simpl. rewrite lookup_insert_ne by done. apply lookup_insert_eq.
Qed.

Lemma init_method command rawpath bdy hdrs :
  Request.method (Request.init command rawpath bdy hdrs) = py_upper command.
Proof. unfold Request.init. by destruct (split_once "?" rawpath). Qed.

Lemma init_body command rawpath bdy hdrs :
  Request.body (Request.init command rawpath bdy hdrs) = bdy.
Proof. unfold Request.init. by destruct (split_once "?" rawpath). Qed.

Lemma py_upper_idem s : py_upper (py_upper s) = py_upper s.
Proof.
  induction s as [|c s IH]; simpl; [done|]. rewrite IH. f_equal.
  destruct c as [[] [] [] [] [] [] [] []]; reflexivity.
Qed.

(** C5, as the code has it. A [POST] to [/posts/<id>/comments] whose id
    segment is written in decimal digits, no more of them than [int()]
    converts, and whose JSON body supplies a [content] and an [author_id]
    that pass the validation of their fields is answered with status 201;
    the comment is stored at the next id of the comment table and its
    [post_id] is the integer that the segment denotes. *)
Theorem nested_comment_created (E : runtime) (command rawpath : string)
    (hdrs : gmap string string) (bdy seg : string) (now : Z) (st : storage)
    (vc va : option value) :
  let req := Request.init command rawpath (Some bdy) hdrs in
  py_upper command = "POST" ->
  Request.path req = "/posts/" +:+ seg +:+ "/comments" ->
  is_decimal seg = true ->
  digits_allowed E seg = true ->
  Fields.validate E "content" (CharField (Some 500%nat) true)
    (Request.json E req !! "content") = Ok vc ->
  Fields.validate E "author_id" (IntegerField true)
    (Request.json E req !! "author_id") = Ok va ->
  exists comment st',
    _handle E command rawpath hdrs bdy now st
    = (Ok (Response.created E (Models.to_dict E comment)), st')
    /\ Response.status (Response.created E (Models.to_dict E comment)) = 201
    /\ inst_id comment = Some (next_id (table_of st Comment))
    /\ Models.get Comment (next_id (table_of st Comment)) now st' = (Ok comment, st')
    /\ Models.attr comment "post_id" = VInt (decimal_value 0 seg)
    /\ stored_attr st' Comment (next_id (table_of st Comment)) "post_id"
       = Some (VInt (decimal_value 0 seg)).
Proof.
  intros req Hcmd Hpath Hdec Hlimit Hcontent Hauthor.
  assert (py_upper (Request.method req) = "POST") as Hm.
  { unfold req. by rewrite init_method, py_upper_idem. }
  pose proof (match_create_for_post E req seg Hm Hpath (decimal_no_slash _ Hdec)) as Hmatch.
  unfold _handle. rewrite (handle_on_matched E _ _ _ _ _ _ _ now st Hmatch).
  rewrite (register_controller_id _ _ _ req seg (comment_methods_create_for_post E) eq_refl).
  rewrite create_for_post_body, (int_of_str_decimal E _ Hdec Hlimit).
  cbn [c_request c_model CommentController cc_model]. rewrite json_with_path_params.
  destruct (comment_create_ok E (<["post_id" := VInt (decimal_value 0 seg)]> (Request.json E req))
              (decimal_value 0 seg) vc va now st) as (vals & Hcreate & Hpost).
  - apply lookup_insert_eq.
  - by rewrite lookup_insert_ne.
  - by rewrite lookup_insert_ne.
  - rewrite Hcreate. eexists _, _. split; [reflexivity|].
    split; [reflexivity|]. split; [reflexivity|]. split; [|split].
    + unfold Models.get. rewrite table_of_put_eq. simpl. by rewrite row_get_put_eq.
    + unfold Models.attr. simpl. by rewrite Hpost.
    + unfold stored_attr. rewrite table_of_put_eq. simpl. by rewrite row_get_put_eq.
Qed.

(** Scenario 4: [POST /posts/5/comments] with a [content] and an
    [author_id]. *)
Lemma nested_comment_created_witness :
  exists comment st',
    _handle sample_runtime "POST" "/posts/5/comments" ∅ comment_body 100 ∅
    = (Ok (Response.created sample_runtime (Models.to_dict sample_runtime comment)), st')
    /\ Response.status (Response.created sample_runtime (Models.to_dict sample_runtime comment))
       = 201
    /\ inst_id comment = Some (next_id (table_of ∅ Comment))
    /\ Models.get Comment (next_id (table_of ∅ Comment)) 100 st' = (Ok comment, st')
    /\ Models.attr comment "post_id" = VInt (decimal_value 0 "5")
    /\ stored_attr st' Comment (next_id (table_of ∅ Comment)) "post_id"
       = Some (VInt (decimal_value 0 "5")).
Proof.
  apply (nested_comment_created sample_runtime "POST" "/posts/5/comments" ∅ comment_body "5"
           100 ∅ (Some (VStr "hi")) (Some (VInt 1))); reflexivity.
Defined.

(** C5 as it is written fails on a decimal segment of 4301 digits under the
    default limit of the interpreter: [int()] raises before the guarded
    creation and the answer is 500, not 201. *)
Lemma long_id_comment_refused_counterexample :
  let seg := ones 4301 in
  let rawpath := "/posts/" +:+ seg +:+ "/comments" in
  let req := Request.init "POST" rawpath (Some comment_body) ∅ in
  is_decimal seg = true
  /\ Request.path req = "/posts/" +:+ seg +:+ "/comments"
  /\ Fields.validate sample_runtime "content" (CharField (Some 500%nat) true)
       (Request.json sample_runtime req !! "content") = Ok (Some (VStr "hi"))
  /\ Fields.validate sample_runtime "author_id" (IntegerField true)
       (Request.json sample_runtime req !! "author_id") = Ok (Some (VInt 1))
  /\ exists resp,
       _handle sample_runtime "POST" rawpath ∅ comment_body 100 ∅ = (Ok resp, ∅)
       /\ Response.status resp = 500
       /\ Response.status resp <> 201.
Proof.
  intros seg rawpath req.
  split; [vm_compute; reflexivity|]. split; [vm_compute; reflexivity|].
  split; [vm_compute; reflexivity|]. split; [vm_compute; reflexivity|].
  eexists. split; [vm_compute; reflexivity|].
  split; [vm_compute; reflexivity|]. vm_compute. discriminate.
Qed.

(** ** Every handler of the application is well behaved *)

Section WellBehaved.
Context (E : runtime).

Lemma well_behaved_ok st resp : well_behaved st (Ok resp, st).
Proof. split; [by left|done]. Qed.

Lemma well_behaved_raise st e : expected_failure e = false -> well_behaved st (Raise e, st).
Proof. intros He. split; [by left|done]. Qed.

Lemma py_int_raises v e : py_int E v = Raise e -> expected_failure e = false.
Proof.
  destruct v; simpl; try (by intros [= <-]).
  destruct (int_of_str E s); [done|]. by intros [= <-].
Qed.

Lemma create_inserts M kw now st r st' :
  Models.create E M kw now st = (r, st') ->
  inserts_at_most_one st st'
  /\ match r with Ok _ => True | Raise e => is_ValidationError e = true /\ st' = st end.
Proof.
  intros Hc. unfold Models.create in Hc. pose proof Hc as Hc'.
  apply save_effect in Hc. destruct r as [j|e].
  - destruct Hc as (_ & vals & _ & _ & ->). split; [|done]. right. by exists M, vals.
  - subst. split; [by left|]. by apply save_raises in Hc'.
Qed.

Lemma list_well_behaved : method_well_behaved (ModelController.list E).
Proof. intros self args now st. apply well_behaved_ok. Qed.

Lemma create_well_behaved : method_well_behaved (ModelController.create E).
Proof.
  intros self args now st. unfold ModelController.create. simpl.
  unfold try_except, bind, ret, lift. rewrite json_call_ok. cbv beta iota.
  destruct (Models.create E (c_model self) (Request.json E (c_request self)) now st)
    as [[i|e] st'] eqn:Hc; apply create_inserts in Hc as [Hins Hr].
  - split; [done|done].
  - destruct Hr as [-> ->]. apply well_behaved_ok.
Qed.

Lemma retrieve_well_behaved : method_well_behaved (ModelController.retrieve E).
Proof.
  intros self args now st. unfold ModelController.retrieve, arg. simpl.
  destruct (args !! "id") as [id|]; [|by apply well_behaved_raise].
  unfold bind, lift, try_except, ret, Models.get.
  destruct (py_int E id) as [n|e] eqn:Hint.
  - destruct (row_get n (rows (table_of st (c_model self)))); simpl; apply well_behaved_ok.
  - apply well_behaved_raise. by eapply py_int_raises.
Qed.

Lemma create_for_post_well_behaved : method_well_behaved (create_for_post E).
Proof.
  intros self args now st. unfold create_for_post, arg. simpl.
  destruct (args !! "id") as [id|]; [|by apply well_behaved_raise].
  unfold bind, lift, try_except, ret. rewrite json_call_ok. cbv beta iota.
  destruct (py_int E id) as [n|e] eqn:Hint.
  - destruct (Models.create E (c_model self)
                (<["post_id" := VInt n]> (Request.json E (c_request self))) now st)
      as [[i|e] st'] eqn:Hc; apply create_inserts in Hc as [Hins Hr]; split; done.
  - apply well_behaved_raise. by eapply py_int_raises.
Qed.

Lemma filter_by_post_raises id (cs : list instance) e :
  filter_raising
    (fun c => result_bind (py_int E id) (fun n => Ok (py_eq_int (Models.attr c "post_id") n))) cs
  = Raise e ->
  expected_failure e = false.
Proof.
  induction cs as [|c cs IH]; simpl; [done|].
  destruct (py_int E id) as [n|e'] eqn:Hint; simpl.
  - destruct (filter_raising _ cs) as [cs'|e'] eqn:Hf; simpl; [done|].
    intros [= <-]. by apply IH.
  - intros [= <-]. by eapply py_int_raises.
Qed.

Lemma list_for_post_well_behaved : method_well_behaved (list_for_post E).
Proof.
  intros self args now st. unfold list_for_post, arg. simpl.
  destruct (args !! "id") as [id|]; [|by apply well_behaved_raise].
  unfold bind, lift, ret, Models.all.
  destruct (filter_raising _ _) as [cs|e] eqn:Hf.
  - apply well_behaved_ok.
  - apply well_behaved_raise. by eapply filter_by_post_raises.
Qed.

Lemma model_methods_well_behaved name func :
  ModelController.methods E !! name = Some func -> method_well_behaved func.
Proof.
  unfold ModelController.methods.
  intros [[_ <-]|[_ [[_ <-]|[_ [[_ <-]|[_ H]]%lookup_insert_Some]]%lookup_insert_Some]]
    %lookup_insert_Some.
  - apply list_well_behaved.
  - apply create_well_behaved.
  - apply retrieve_well_behaved.
  - done.
Qed.

Lemma comment_methods_well_behaved name func :
  cc_methods (CommentController E) !! name = Some func -> method_well_behaved func.
Proof.
  unfold CommentController. simpl.
  intros [[_ <-]|[_ [[_ <-]|[_ H]]%lookup_insert_Some]]%lookup_insert_Some.
  - apply create_for_post_well_behaved.
  - apply list_for_post_well_behaved.
  - by eapply model_methods_well_behaved.
Qed.

Lemma call_method_well_behaved func self kwargs now st :
  method_well_behaved func -> well_behaved st (call_method func self kwargs now st).
Proof.
  intros Hf. unfold call_method.
  destruct (bool_decide _); [|by apply well_behaved_raise].
  destruct (forallb _ _); [apply Hf|by apply well_behaved_raise].
Qed.

Lemma register_controller_well_behaved cls name req now st :
  (forall name func, cc_methods cls !! name = Some func -> method_well_behaved func) ->
  well_behaved st (register_controller cls name req now st).
Proof.
  intros Hcls. unfold register_controller.
  destruct (cc_methods cls !! name) as [func|] eqn:Hfunc.
  - apply call_method_well_behaved. by eapply Hcls.
  - by apply well_behaved_raise.
Qed.

(** Every handler bound in the route table is well behaved. *)
Lemma router_well_behaved (r : Router.route handler) req now st :
  r ∈ router E -> well_behaved st (Router.r_handler r req now st).
Proof.
  unfold router, Router.get, Router.post, Router.add_route. cbn [app].
  intros Hr. repeat (apply elem_of_cons in Hr as [->|Hr]); try (by apply elem_of_nil in Hr);
    cbn [Router.r_handler]; apply register_controller_well_behaved;
    solve [ apply comment_methods_well_behaved
          | intros name func; apply model_methods_well_behaved ].
Qed.

(** The transport handler never raises, and changes the storage by at most
    one insertion. *)
Lemma handle_inserts command rawpath hdrs bdy now st :
  exists resp st',
    _handle E command rawpath hdrs bdy now st = (Ok resp, st')
    /\ inserts_at_most_one st st'.
Proof.
  unfold _handle.
  destruct (match_total (router E) (Request.init command rawpath (Some bdy) hdrs))
    as [Hnone|(r & ps & Hr & _ & Hsome)].
  - rewrite (handle_on_unmatched E _ _ _ _ _ _ now st Hnone). eexists _, _. split; [done|by left].
  - rewrite (handle_on_matched E _ _ _ _ _ _ _ now st Hsome).
    pose proof (router_well_behaved r (Request.with_path_params
                  (Request.init command rawpath (Some bdy) hdrs) ps) now st Hr) as [Hins _].
    destruct (Router.r_handler r _ now st) as [[resp|e] st']; eexists _, _; split; done.
Qed.

End WellBehaved.

(** ** Tables stay sorted by id *)

Lemma StronglySorted_snoc (l : list Z) y :
  StronglySorted Z.lt l -> Forall (fun x => x < y) l -> StronglySorted Z.lt (l ++ [y]).
Proof.
  induction l as [|x l IH]; simpl; intros Hs Hall.
  - repeat constructor.
  - apply StronglySorted_inv in Hs as [Hs Hx]. apply Forall_cons in Hall as [Hxy Hall].
    constructor; [by apply IH|]. apply Forall_app. split; [done|]. by apply Forall_singleton.
Qed.

Lemma store_sorted_empty : store_sorted ∅.
Proof.
  intros name. unfold table_named. rewrite lookup_empty. simpl.
  split; [apply table_ok_empty|constructor].
Qed.

Lemma store_sorted_insert st st' :
  store_sorted st -> inserts_at_most_one st st' -> store_sorted st'.
Proof.
  intros Hs [->|(M & vals & ->)]; [done|].
  intros name. rewrite table_named_put. case_bool_decide as Hname; [|apply Hs].
  destruct (Hs (model_name M)) as [Hok Hsorted]. rewrite <- table_of_named in Hok, Hsorted.
  split; [by apply table_ok_put_next|]. simpl.
  rewrite row_put_keys_fresh by (by apply table_ok_next_fresh).
  rewrite fmap_app. apply StronglySorted_snoc; [done|].
  destruct Hok as (_ & _ & Hall). eapply Forall_impl; [done|]. simpl. lia.
Qed.

Lemma serve_sorted (E : runtime) reqs now st :
  store_sorted st -> store_sorted (serve E reqs now st).2.
Proof.
  revert now st. induction reqs as [|r reqs IH]; intros now st Hs; [done|].
  simpl. destruct (handle_inserts E (h_command r) (h_path r) ∅ (h_body r) now st)
    as (resp & st' & -> & Hins).
  specialize (IH (now + 1) st' (store_sorted_insert _ _ Hs Hins)).
  by destruct (serve E reqs (now + 1) st') as [resps st''].
Qed.

Lemma filter_rows_sorted M (keep : instance -> bool) (rs : list (Z * gmap string value)) :
  StronglySorted Z.lt rs.*1 ->
  StronglySorted Z.lt (omap inst_id (List.filter keep (Models.of_row M <$> rs))).
Proof.
  induction rs as [|[n vals] rs IH]; csimpl; intros Hs; [constructor|].
  apply StronglySorted_inv in Hs as [Hs Hn].
  destruct (keep (Models.of_row M (n, vals))); [|by apply IH].
  csimpl. constructor; [by apply IH|].
  apply Forall_forall. intros m Hm. apply list_elem_of_omap in Hm as (c & Hc & Hid).
  apply list_elem_of_In, filter_In in Hc as [Hc _].
  apply list_elem_of_In, list_elem_of_fmap in Hc as ([m' vals'] & -> & Hin).
  simpl in Hid. injection Hid as <-.
  rewrite Forall_forall in Hn. apply Hn. apply list_elem_of_fmap. by exists (m', vals').
Qed.

Lemma filter_sublist {A} (keep : A -> bool) (l : list A) : sublist (List.filter keep l) l.
Proof.
  induction l as [|x l IH]; simpl; [constructor|].
  destruct (keep x); by constructor.
Qed.

(** C6, as the code has it. A [GET] on [/posts/<n>/comments] with a decimal
    segment that has no more digits than [int()] converts is answered with
    status 200 and the JSON list of the stored comments whose [post_id]
    equals the integer [n], and of no other comment, in the order of the
    table. In a storage reached by serving requests from the empty storage
    the listed comments come by increasing id, which is the order of their
    creation. *)
Theorem comments_of_post_listed (E : runtime) (command rawpath : string)
    (hdrs : gmap string string) (bdy seg : string) (now : Z) (st : storage) :
  let req := Request.init command rawpath (Some bdy) hdrs in
  py_upper command = "GET" ->
  Request.path req = "/posts/" +:+ seg +:+ "/comments" ->
  is_decimal seg = true ->
  digits_allowed E seg = true ->
  let n := decimal_value 0 seg in
  let all_comments := Models.of_row Comment <$> rows (table_of st Comment) in
  let post_comments :=
    List.filter (fun c => py_eq_int (Models.attr c "post_id") n) all_comments in
  _handle E command rawpath hdrs bdy now st
  = (Ok (Response.json E (VList (Models.to_dict E <$> post_comments)) 200), st)
  /\ Response.status (Response.json E (VList (Models.to_dict E <$> post_comments)) 200) = 200
  /\ Models.all Comment now st = (Ok all_comments, st)
  /\ (forall c, c ∈ post_comments
                <-> c ∈ all_comments /\ py_eq_int (Models.attr c "post_id") n = true)
  /\ sublist post_comments all_comments
  /\ (forall reqs now0, st = (serve E reqs now0 ∅).2 ->
        StronglySorted Z.lt (omap inst_id post_comments)).
Proof.
  intros req Hcmd Hpath Hdec Hlimit n all_comments post_comments.
  assert (py_upper (Request.method req) = "GET") as Hm.
  { unfold req. by rewrite init_method, py_upper_idem. }
  pose proof (match_list_for_post E req seg Hm Hpath (decimal_no_slash _ Hdec)) as Hmatch.
  split; [|split; [done|split; [done|split; [|split]]]].
  - unfold _handle. rewrite (handle_on_matched E _ _ _ _ _ _ _ now st Hmatch).
    rewrite (register_controller_id _ _ _ req seg (comment_methods_list_for_post E) eq_refl).
    rewrite list_for_post_body. cbn [c_model CommentController cc_model].
    by rewrite (filter_by_post_decimal E seg n _ (int_of_str_decimal E _ Hdec Hlimit)).
  - intros c. unfold post_comments. rewrite !list_elem_of_In. apply filter_In.
  - apply filter_sublist.
  - intros reqs now0 ->. apply filter_rows_sorted.
    apply (serve_sorted E reqs now0 ∅ store_sorted_empty (model_name Comment)).
Qed.

(** Scenario 5: comments created for posts 5, 6 and 5 again, then the
    comments of post 5 are listed: the first and the third. *)
Lemma comments_of_post_listed_witness :
  let post p := {| h_command := "POST"; h_path := p; h_body := comment_body |} in
  let st := (serve sample_runtime
               [post "/posts/5/comments"; post "/posts/6/comments"; post "/posts/5/comments"]
               100 ∅).2 in
  let post_comments :=
    List.filter (fun c => py_eq_int (Models.attr c "post_id") 5)
      (Models.of_row Comment <$> rows (table_of st Comment)) in
  _handle sample_runtime "GET" "/posts/5/comments" ∅ "" 103 st
  = (Ok (Response.json sample_runtime
           (VList (Models.to_dict sample_runtime <$> post_comments)) 200), st)
  /\ omap inst_id post_comments = [1; 3]
  /\ StronglySorted Z.lt (omap inst_id post_comments).
Proof.
  intros post st post_comments.
  pose proof (comments_of_post_listed sample_runtime "GET" "/posts/5/comments" ∅ "" "5" 103 st
                eq_refl eq_refl eq_refl eq_refl) as (Hresp & _ & _ & _ & _ & Hsorted).
  split; [exact Hresp|]. split; [vm_compute; reflexivity|].
  exact (Hsorted _ 100 eq_refl).
Defined.

(** C6 as it is written fails on a decimal segment of 4301 digits under the
    default limit of the interpreter when a comment is stored: [int()]
    raises inside the test of the comprehension and the answer is 500, not
    200. *)
Lemma long_id_comments_not_listed_counterexample :
  let seg := ones 4301 in
  let rawpath := "/posts/" +:+ seg +:+ "/comments" in
  let st := (serve sample_runtime
               [{| h_command := "POST"; h_path := "/posts/5/comments";
                   h_body := comment_body |}] 100 ∅).2 in
  is_decimal seg = true
  /\ Request.path (Request.init "GET" rawpath (Some "") ∅)
     = "/posts/" +:+ seg +:+ "/comments"
  /\ exists resp,
       _handle sample_runtime "GET" rawpath ∅ "" 101 st = (Ok resp, st)
       /\ Response.status resp = 500
       /\ Response.status resp <> 200.
Proof.
  intros seg rawpath st.
  split; [vm_compute; reflexivity|]. split; [vm_compute; reflexivity|].
  eexists. split; [vm_compute; reflexivity|].
  split; [vm_compute; reflexivity|]. vm_compute. discriminate.
Qed.

(** ** The catch-all of the transport handler *)

(** C4. When the handler bound to the matched route raises, the transport
    handler answers with status 500 and a JSON body whose [error] is the
    fixed text "Internal Server Error" (the text of the exception goes in
    [details]). In the application no handler lets a [ValidationError] or an
    [ObjectDoesNotExist] reach this catch-all: the generic [create] and the
    nested [create_for_post] turn a failed creation into a 400 response and
    [retrieve] turns a failed lookup into a 404 response. *)
Theorem dispatch_catch_all (E : runtime) :
  (forall rt command rawpath hdrs bdy now st h req' e st',
     Router.match_ rt (Request.init command rawpath (Some bdy) hdrs) = (Some h, req') ->
     h req' now st = (Raise e, st') ->
     handle_on E rt command rawpath hdrs bdy now st = (Ok (internal_error E e), st')
     /\ Response.status (internal_error E e) = 500
     /\ Response.body (internal_error E e)
        = json_dumps E (VDict [("error", VStr "Internal Server Error");
                               ("details", VStr (exn_str e))]))
  /\ (forall command rawpath hdrs bdy now st h req' e st',
     Router.match_ (router E) (Request.init command rawpath (Some bdy) hdrs) = (Some h, req') ->
     h req' now st = (Raise e, st') ->
     is_ValidationError e = false /\ is_ObjectDoesNotExist e = false)
  /\ (forall self args now st e st',
     Models.create E (c_model self) (Request.json E (c_request self)) now st = (Raise e, st') ->
     m_body (ModelController.create E) self args now st
     = (Ok (Response.bad_request E (exn_str e)), st')
     /\ Response.status (Response.bad_request E (exn_str e)) = 400)
  /\ (forall self id n now st e st',
     py_int E id = Ok n ->
     Models.get (c_model self) n now st = (Raise e, st') ->
     m_body (ModelController.retrieve E) self {[ "id" := id ]} now st
     = (Ok (Response.not_found E), st')
     /\ Response.status (Response.not_found E) = 404)
  /\ (forall self id n now st e st',
     py_int E id = Ok n ->
     Models.create E (c_model self)
       (<["post_id" := VInt n]> (Request.json E (c_request self))) now st = (Raise e, st') ->
     m_body (create_for_post E) self {[ "id" := id ]} now st
     = (Ok (Response.bad_request E (exn_str e)), st')
     /\ Response.status (Response.bad_request E (exn_str e)) = 400).
Proof.
  split; [|split; [|split; [|split]]].
  - intros rt command rawpath hdrs bdy now st h req' e st' Hmatch Hraise.
    rewrite (handle_on_matched E _ _ _ _ _ _ _ now st Hmatch), Hraise. done.
  - intros command rawpath hdrs bdy now st h req' e st' Hmatch Hraise.
    apply match_first in Hmatch as (i & r & ps & Hi & _ & _ & -> & ->).
    assert (r ∈ router E) as Hr by (apply list_elem_of_lookup; by exists i).
    pose proof (router_well_behaved E r
                  (Request.with_path_params (Request.init command rawpath (Some bdy) hdrs) ps)
                  now st Hr) as [_ Hwb].
    rewrite Hraise in Hwb. simpl in Hwb. by apply orb_false_elim in Hwb.
  - intros self args now st e st' Hc. split; [|done].
    unfold ModelController.create. simpl. unfold try_except, bind, ret, lift.
    rewrite json_call_ok. cbv beta iota. rewrite Hc.
    apply create_inserts in Hc as [_ [-> _]]. done.
  - intros self id n now st e st' Hint Hget. split; [|done].
    unfold ModelController.retrieve, arg. simpl. rewrite lookup_singleton_eq.
    unfold try_except, bind, lift, ret. rewrite Hint, Hget.
    unfold Models.get in Hget.
    destruct (row_get n (rows (table_of st (c_model self)))); [done|].
    by injection Hget as <- <-.
  - intros self id n now st e st' Hint Hc. split; [|done].
    unfold create_for_post, arg. simpl. rewrite lookup_singleton_eq.
    unfold try_except, bind, lift, ret. rewrite json_call_ok. cbv beta iota.
    by rewrite Hint, Hc.
Qed.

(** [POST /posts/abc/comments]: the handler raises [ValueError] and the
    answer is a 500. *)
Lemma dispatch_catch_all_witness :
  let e := ValueError "invalid literal for int() with base 10: 'abc'" in
  handle_on sample_runtime (router sample_runtime) "POST" "/posts/abc/comments" ∅
    comment_body 0 ∅
  = (Ok (internal_error sample_runtime e), ∅)
  /\ Response.status (internal_error sample_runtime e) = 500
  /\ Response.body (internal_error sample_runtime e)
     = json_dumps sample_runtime
         (VDict [("error", VStr "Internal Server Error"); ("details", VStr (exn_str e))]).
Proof.
  intros e.
  eapply (proj1 (dispatch_catch_all sample_runtime) (router sample_runtime)
            "POST" "/posts/abc/comments" ∅ comment_body 0 ∅).
  - apply (match_create_for_post sample_runtime _ "abc"); reflexivity.
  - rewrite (register_controller_id _ _ _ _ "abc"
               (comment_methods_create_for_post sample_runtime) eq_refl).
    rewrite create_for_post_body. reflexivity.
Defined.

(** ** An id segment that is not an integer *)

(** C10, as the code has it. When [int()] rejects the id segment: a [POST]
    to [/posts/<id>/comments] makes the handler raise [ValueError], since
    the conversion comes before the guarded creation, and the answer is the
    500 of the catch-all; a [GET] converts the id inside the test of the
    comprehension, once per stored comment, so the handler raises and the
    answer is 500 when some comment is stored, while with no comment stored
    nothing is converted and the answer is 200 with an empty list. *)
Theorem invalid_id_answer (E : runtime) (command rawpath : string)
    (hdrs : gmap string string) (bdy seg : string) (now : Z) (st : storage) :
  let req := Request.init command rawpath (Some bdy) hdrs in
  let req' := Request.with_path_params req {[ "id" := seg ]} in
  let e := ValueError (int_message E seg) in
  Request.path req = "/posts/" +:+ seg +:+ "/comments" ->
  no_char "/" seg = true ->
  int_of_str E seg = None ->
  (py_upper command = "POST" ->
     register_controller (CommentController E) "create_for_post" req' now st = (Raise e, st)
     /\ _handle E command rawpath hdrs bdy now st = (Ok (internal_error E e), st)
     /\ Response.status (internal_error E e) = 500)
  /\ (py_upper command = "GET" -> rows (table_of st Comment) <> [] ->
     register_controller (CommentController E) "list_for_post" req' now st = (Raise e, st)
     /\ _handle E command rawpath hdrs bdy now st = (Ok (internal_error E e), st)
     /\ Response.status (internal_error E e) = 500)
  /\ (py_upper command = "GET" -> rows (table_of st Comment) = [] ->
     register_controller (CommentController E) "list_for_post" req' now st
     = (Ok (Response.json E (VList []) 200), st)
     /\ _handle E command rawpath hdrs bdy now st = (Ok (Response.json E (VList []) 200), st)
     /\ Response.status (Response.json E (VList []) 200) = 200).
Proof.
  intros req req' e Hpath Hseg Hint.
  assert (forall m, py_upper command = m -> py_upper m = m -> py_upper (Request.method req) = m)
    as Hmeth.
  { intros m Hc Hm. unfold req. by rewrite init_method, py_upper_idem. }
  split; [|split].
  - intros Hcmd.
    pose proof (match_create_for_post E req seg (Hmeth _ Hcmd eq_refl) Hpath Hseg) as Hmatch.
    assert (register_controller (CommentController E) "create_for_post" req' now st
            = (Raise e, st)) as Hraise.
    { unfold req'.
      rewrite (register_controller_id _ _ _ req seg (comment_methods_create_for_post E) eq_refl).
      rewrite create_for_post_body. by rewrite Hint. }
    split; [exact Hraise|]. split; [|done].
    unfold _handle. rewrite (handle_on_matched E _ _ _ _ _ _ _ now st Hmatch).
    fold req'. by rewrite Hraise.
  - intros Hcmd Hrows.
    pose proof (match_list_for_post E req seg (Hmeth _ Hcmd eq_refl) Hpath Hseg) as Hmatch.
    assert (register_controller (CommentController E) "list_for_post" req' now st
            = (Raise e, st)) as Hraise.
    { unfold req'.
      rewrite (register_controller_id _ _ _ req seg (comment_methods_list_for_post E) eq_refl).
      rewrite list_for_post_body. cbn [c_model CommentController cc_model].
      rewrite (filter_by_post_invalid E seg _ Hint).
      destruct (rows (table_of st Comment)); done. }
    split; [exact Hraise|]. split; [|done].
    unfold _handle. rewrite (handle_on_matched E _ _ _ _ _ _ _ now st Hmatch).
    fold req'. by rewrite Hraise.
  - intros Hcmd Hrows.
    pose proof (match_list_for_post E req seg (Hmeth _ Hcmd eq_refl) Hpath Hseg) as Hmatch.
    assert (register_controller (CommentController E) "list_for_post" req' now st
            = (Ok (Response.json E (VList []) 200), st)) as Hok.
    { unfold req'.
      rewrite (register_controller_id _ _ _ req seg (comment_methods_list_for_post E) eq_refl).
      rewrite list_for_post_body. cbn [c_model CommentController cc_model].
      rewrite (filter_by_post_invalid E seg _ Hint). by rewrite Hrows. }
    split; [exact Hok|]. split; [|done].
    unfold _handle. rewrite (handle_on_matched E _ _ _ _ _ _ _ now st Hmatch).
    fold req'. by rewrite Hok.
Qed.

(** [GET /posts/abc/comments] after one comment was created. *)
Lemma invalid_id_answer_witness :
  let st := (serve sample_runtime
               [{| h_command := "POST"; h_path := "/posts/5/comments";
                   h_body := comment_body |}] 100 ∅).2 in
  let e := ValueError "invalid literal for int() with base 10: 'abc'" in
  _handle sample_runtime "GET" "/posts/abc/comments" ∅ "" 101 st
  = (Ok (internal_error sample_runtime e), st)
  /\ _handle sample_runtime "POST" "/posts/abc/comments" ∅ comment_body 101 st
     = (Ok (internal_error sample_runtime e), st)
  /\ Response.status (internal_error sample_runtime e) = 500.
Proof.
  intros st e.
  pose proof (invalid_id_answer sample_runtime "GET" "/posts/abc/comments" ∅ "" "abc" 101 st
                eq_refl eq_refl eq_refl) as (_ & Hget & _).
  pose proof (invalid_id_answer sample_runtime "POST" "/posts/abc/comments" ∅ comment_body
                "abc" 101 st eq_refl eq_refl eq_refl) as (Hpost & _ & _).
  destruct (Hpost eq_refl) as (_ & Hp & Hs).
  destruct (Hget eq_refl) as (_ & Hg & _).
  - intros Hrows. apply (f_equal length) in Hrows. vm_compute in Hrows. discriminate Hrows.
  - split; [exact Hg|]. split; [exact Hp|exact Hs].
Defined.

(** C10 as it is written fails on [GET /posts/abc/comments] when no comment
    is stored: [int()] rejects the segment, yet the handler returns and the
    answer is 200, not 500. *)
Lemma invalid_id_list_empty_counterexample :
  let req := Request.init "GET" "/posts/abc/comments" (Some "") ∅ in
  Request.path req = "/posts/" +:+ "abc" +:+ "/comments"
  /\ int_of_str sample_runtime "abc" = None
  /\ is_decimal "abc" = false
  /\ exists resp,
       register_controller (CommentController sample_runtime) "list_for_post"
         (Request.with_path_params req {[ "id" := "abc" ]}) 0 ∅ = (Ok resp, ∅)
       /\ _handle sample_runtime "GET" "/posts/abc/comments" ∅ "" 0 ∅ = (Ok resp, ∅)
       /\ Response.status resp = 200
       /\ Response.status resp <> 500.
Proof.
  intros req. split; [reflexivity|]. split; [reflexivity|]. split; [reflexivity|].
  eexists. split; [vm_compute; reflexivity|]. split; [vm_compute; reflexivity|].
  split; [reflexivity|]. vm_compute. discriminate.
Qed.

(** * Further properties of the dispatch and of the routes *)

(** * Further properties of the application *)

(** ** What a request can do *)

Section Outcomes.
Context (E : runtime).

Lemma router_unfold : router E = app_routes E.
Proof. reflexivity. Qed.

Lemma one_inserted_changed st st' : one_inserted st st' -> st' <> st.
Proof.
  intros (M & vals & ->) Heq.
  assert (next_id (table_of (Models.put_table M
            {| rows := row_put (next_id (table_of st M)) vals (rows (table_of st M));
               next_id := next_id (table_of st M) + 1 |} st) M)
          = next_id (table_of st M)) as Hn by (by rewrite Heq).
  rewrite table_of_put_eq in Hn. simpl in Hn. lia.
Qed.

(** A creation either inserts one record or raises [ValidationError] and
    leaves the storage alone. *)
Lemma create_effect M kw now st r st' :
  Models.create E M kw now st = (r, st') ->
  match r with
  | Ok _ => one_inserted st st'
  | Raise e => is_ValidationError e = true /\ st' = st
  end.
Proof.
  intros Hc. unfold Models.create in Hc. pose proof Hc as Hc'.
  apply save_effect in Hc. destruct r as [j|e].
  - destruct Hc as (_ & vals & _ & _ & ->). by exists M, vals.
  - subst. by apply save_raises in Hc'.
Qed.

Lemma list_answered self args now st :
  answered st (m_body (ModelController.list E) self args now st).
Proof. right. split; [by left|done]. Qed.

Lemma create_answered self args now st :
  answered st (m_body (ModelController.create E) self args now st).
Proof.
  unfold ModelController.create. simpl. unfold try_except, bind, ret, lift.
    rewrite json_call_ok. cbv beta iota.
  destruct (Models.create E (c_model self) (Request.json E (c_request self)) now st)
    as [[i|e] st'] eqn:Hc; apply create_effect in Hc.
  - left. by split.
  - destruct Hc as [-> ->]. right. split; [right; by left|done].
Qed.

Lemma retrieve_answered self args now st :
  answered st (m_body (ModelController.retrieve E) self args now st).
Proof.
  unfold ModelController.retrieve, arg. simpl.
  destruct (args !! "id") as [id|]; [|done].
  unfold bind, lift, try_except, ret, Models.get.
  destruct (py_int E id) as [n|e]; [|done].
  destruct (row_get n (rows (table_of st (c_model self)))); simpl.
  - right. split; [by left|done].
  - right. split; [right; by right|done].
Qed.

Lemma create_for_post_answered self args now st :
  answered st (m_body (create_for_post E) self args now st).
Proof.
  unfold create_for_post, arg. simpl.
  destruct (args !! "id") as [id|]; [|done].
  unfold bind, lift, try_except, ret. rewrite json_call_ok. cbv beta iota.
  destruct (py_int E id) as [n|e]; [|done].
  destruct (Models.create E (c_model self)
              (<["post_id" := VInt n]> (Request.json E (c_request self))) now st)
    as [[i|e] st'] eqn:Hc; apply create_effect in Hc.
  - left. by split.
  - destruct Hc as [_ ->]. right. split; [right; by left|done].
Qed.

Lemma list_for_post_answered self args now st :
  answered st (m_body (list_for_post E) self args now st).
Proof.
  unfold list_for_post, arg. simpl.
  destruct (args !! "id") as [id|]; [|done].
  unfold bind, lift, ret, Models.all.
  destruct (filter_raising _ _); [|done].
  right. split; [by left|done].
Qed.

(** A property of the outcome that holds of an exception raised without
    touching the storage, and of the body of every method of the class,
    holds of the handler that the adapter builds. *)
Lemma register_controller_post (P : storage -> result Response.t * storage -> Prop)
    cls name req now st :
  (forall e, P st (Raise e, st)) ->
  (forall func self args,
     cc_methods cls !! name = Some func -> P st (m_body func self args now st)) ->
  P st (register_controller cls name req now st).
Proof.
  intros Hraise Hbody. unfold register_controller.
  destruct (cc_methods cls !! name) as [func|] eqn:Hfunc; [|apply Hraise].
  unfold call_method. destruct (bool_decide _); [|apply Hraise].
  destruct (forallb _ _); [by apply Hbody|apply Hraise].
Qed.

Lemma model_methods_cases name func :
  ModelController.methods E !! name = Some func ->
  func = ModelController.list E \/ func = ModelController.create E
  \/ func = ModelController.retrieve E.
Proof.
  unfold ModelController.methods.
  rewrite !lookup_insert_Some, lookup_empty.
  intros [[_ <-]|[_ [[_ <-]|[_ [[_ <-]|[_ ?]]]]]]; try tauto; done.
Qed.

Lemma comment_methods_cases name func :
  cc_methods (CommentController E) !! name = Some func ->
  func = create_for_post E \/ func = list_for_post E
  \/ func = ModelController.list E \/ func = ModelController.create E
  \/ func = ModelController.retrieve E.
Proof.
  unfold CommentController. simpl. rewrite !lookup_insert_Some.
  intros [[_ <-]|[_ [[_ <-]|[_ H%model_methods_cases]]]]; tauto.
Qed.

Lemma router_answered (r : Router.route handler) req now st :
  r ∈ router E -> answered st (Router.r_handler r req now st).
Proof.
  rewrite router_unfold. unfold app_routes.
  intros Hr. repeat (apply elem_of_cons in Hr as [->|Hr]); try (by apply elem_of_nil in Hr);
    cbn [Router.r_handler]; apply register_controller_post; try done;
    intros func self args Hfunc.
  all: try (apply model_methods_cases in Hfunc as [->|[->| ->]];
            [apply list_answered|apply create_answered|apply retrieve_answered]).
  all: apply comment_methods_cases in Hfunc as [->|[->|[->|[->| ->]]]];
    [apply create_for_post_answered|apply list_for_post_answered
    |apply list_answered|apply create_answered|apply retrieve_answered].
Qed.

(** The transport handler always answers: with 201 and one record inserted,
    or with 200, 400, 404 or 500 and the storage as it was. *)
Lemma handle_answer command rawpath hdrs bdy now st :
  exists resp st',
    _handle E command rawpath hdrs bdy now st = (Ok resp, st')
    /\ ((Response.status resp = 201 /\ one_inserted st st')
        \/ ((Response.status resp = 200 \/ Response.status resp = 400
             \/ Response.status resp = 404 \/ Response.status resp = 500) /\ st' = st)).
Proof.
  unfold _handle.
  destruct (match_total (router E) (Request.init command rawpath (Some bdy) hdrs))
    as [Hnone|(r & ps & Hr & _ & Hsome)].
  - rewrite (handle_on_unmatched E _ _ _ _ _ _ now st Hnone). eexists _, _.
    split; [done|]. right. split; [|done]. right. right. by left.
  - rewrite (handle_on_matched E _ _ _ _ _ _ _ now st Hsome).
    pose proof (router_answered r (Request.with_path_params
                  (Request.init command rawpath (Some bdy) hdrs) ps) now st Hr) as Hans.
    unfold answered in Hans.
    destruct (Router.r_handler r _ now st) as [[resp|e] st']; simpl in Hans;
      eexists _, _; (split; [done|]).
    + destruct Hans as [?|[[?|[?|?]] ?]]; [by left|right..]; split; tauto.
    + right. split; [|done]. right. right. by right.
Qed.

End Outcomes.




(** A request whose [Content-Length] is not a number makes [_handle] raise;
    with a length of 0 the bytes that follow are not read. *)
Example read_body_ex :
  do_method sample_runtime "GET" "/users" [("Host", "x"); ("content-length", "abc")] [] 0 ∅
  = (Raise (ValueError "invalid literal for int() with base 10: 'abc'"), ∅)
  /\ read_body sample_runtime [("Content-Length", "-2")] (list_byte_of_string user_body)
     = Raise (ValueError "read length must be non-negative or -1")
  /\ read_body sample_runtime [("Content-Length", " 5 ")] (list_byte_of_string "hello world")
     = Ok "hello"
  /\ read_body sample_runtime [] (list_byte_of_string "hello world") = Ok "".
Proof.
  split; [vm_compute; reflexivity|]. split; [vm_compute; reflexivity|].
  split; vm_compute; reflexivity.
Qed.

(** X2. A request changes the storage exactly when it is answered with 201,
    and the change is then the insertion of one record at the next id of
    one table; with any other status the storage after the request is the
    storage before it. *)
Theorem created_iff_stored (E : runtime) (command rawpath : string)
    (hdrs : gmap string string) (bdy : string) (now : Z) (st : storage) :
  exists resp st',
    _handle E command rawpath hdrs bdy now st = (Ok resp, st')
    /\ (Response.status resp = 201 <-> st' <> st)
    /\ (Response.status resp = 201 -> one_inserted st st').
Proof.
  destruct (handle_answer E command rawpath hdrs bdy now st)
    as (resp & st' & Hh & [[Hs Hins]|[Hs Heq]]); exists resp, st'; (split; [done|]).
  - split; [|done]. split; [intros _; by apply one_inserted_changed|done].
  - split; [split; [|done]|]; intros H201; rewrite H201 in Hs;
      destruct Hs as [?|[?|[?|?]]]; done.
Qed.

(** ** Methods without a route, and requests that only read *)

Section ReadOnly.
Context (E : runtime).

Lemma app_route_methods (r : Router.route handler) :
  r ∈ router E -> Router.r_method r = "GET" \/ Router.r_method r = "POST".
Proof.
  rewrite router_unfold. unfold app_routes. intros Hr.
  repeat (apply elem_of_cons in Hr as [->|Hr]); try (by apply elem_of_nil in Hr);
    simpl; tauto.
Qed.

Lemma model_methods_list : ModelController.methods E !! "list" = Some (ModelController.list E).
Proof. unfold ModelController.methods. apply lookup_insert_eq. Qed.

Lemma model_methods_create :
  ModelController.methods E !! "create" = Some (ModelController.create E).
Proof.
  unfold ModelController.methods. rewrite lookup_insert_ne by done. apply lookup_insert_eq.
Qed.

Lemma model_methods_retrieve :
  ModelController.methods E !! "retrieve" = Some (ModelController.retrieve E).
Proof.
  unfold ModelController.methods. rewrite !lookup_insert_ne by done. apply lookup_insert_eq.
Qed.

Lemma list_reads self args now st :
  (m_body (ModelController.list E) self args now st).2 = st.
Proof. done. Qed.

Lemma retrieve_reads self args now st :
  (m_body (ModelController.retrieve E) self args now st).2 = st.
Proof.
  unfold ModelController.retrieve, arg. simpl.
  destruct (args !! "id") as [id|]; [|done].
  unfold bind, lift, try_except, ret, Models.get.
  destruct (py_int E id) as [n|e]; [|done].
  by destruct (row_get n (rows (table_of st (c_model self)))).
Qed.

Lemma list_for_post_reads self args now st :
  (m_body (list_for_post E) self args now st).2 = st.
Proof.
  unfold list_for_post, arg. simpl.
  destruct (args !! "id") as [id|]; [|done].
  unfold bind, lift, ret, Models.all. by destruct (filter_raising _ _).
Qed.

(** The handlers bound to the [GET] routes leave the storage alone. *)
Lemma get_routes_read (r : Router.route handler) req now st :
  r ∈ router E -> Router.r_method r = "GET" ->
  (Router.r_handler r req now st).2 = st.
Proof.
  rewrite router_unfold. unfold app_routes. intros Hr.
  repeat (apply elem_of_cons in Hr as [->|Hr]); try (by apply elem_of_nil in Hr);
    cbn [Router.r_method Router.r_handler]; intros Hget; try discriminate Hget;
    apply (register_controller_post (fun st out => out.2 = st)); try done;
    intros func self args Hfunc;
    try change (ModelController.methods E !! "list" = Some func) in Hfunc;
    try change (ModelController.methods E !! "retrieve" = Some func) in Hfunc.
  - rewrite model_methods_list in Hfunc. injection Hfunc as <-. apply list_reads.
  - rewrite model_methods_retrieve in Hfunc. injection Hfunc as <-. apply retrieve_reads.
  - rewrite model_methods_list in Hfunc. injection Hfunc as <-. apply list_reads.
  - rewrite model_methods_retrieve in Hfunc. injection Hfunc as <-. apply retrieve_reads.
  - rewrite comment_methods_list_for_post in Hfunc. injection Hfunc as <-.
    apply list_for_post_reads.
Qed.

End ReadOnly.

(** X3. The transport class dispatches [PUT] and [DELETE] (and, through
    [_handle], any other method) like [GET] and [POST], but the route table
    registers [GET] and [POST] routes only: a request whose method is
    neither, whatever its path, is answered with the 404 of an unmatched
    route and leaves the storage as it was. *)
Theorem unrouted_method_not_found (E : runtime) (command rawpath : string)
    (hdrs : gmap string string) (bdy : string) (now : Z) (st : storage) :
  py_upper command <> "GET" ->
  py_upper command <> "POST" ->
  _handle E command rawpath hdrs bdy now st = (Ok (Response.not_found E), st)
  /\ Response.status (Response.not_found E) = 404.
Proof.
  intros Hget Hpost. split; [|done]. unfold _handle.
  apply (handle_on_unmatched E _ _ _ _ _ (Request.init command rawpath (Some bdy) hdrs)).
  apply match_none. split; [|done]. intros r Hr.
  unfold Router.route_match. rewrite init_method, py_upper_idem.
  destruct (app_route_methods E r Hr) as [-> | ->].
  - change (py_upper "GET") with "GET".
    by destruct (String.eqb_spec "GET" (py_upper command)).
  - change (py_upper "POST") with "POST".
    by destruct (String.eqb_spec "POST" (py_upper command)).
Qed.

(** [DELETE /users/1] after a user was created. *)
Lemma unrouted_method_not_found_witness :
  let st := (serve sample_runtime
               [{| h_command := "POST"; h_path := "/users"; h_body := user_body |}] 0 ∅).2 in
  _handle sample_runtime "DELETE" "/users/1" ∅ "" 1 st
  = (Ok (Response.not_found sample_runtime), st)
  /\ Response.status (Response.not_found sample_runtime) = 404.
Proof.
  intros st.
  apply (unrouted_method_not_found sample_runtime "DELETE" "/users/1" ∅ "" 1 st);
    vm_compute; discriminate.
Defined.

(** X4. A [GET] request never changes the storage: every [GET] route is
    bound to [list], [retrieve] or [list_for_post], which only read, and an
    unmatched or failing request writes nothing either. *)
Theorem get_is_read_only (E : runtime) (command rawpath : string)
    (hdrs : gmap string string) (bdy : string) (now : Z) (st : storage) :
  py_upper command = "GET" ->
  exists resp, _handle E command rawpath hdrs bdy now st = (Ok resp, st).
Proof.
  intros Hget. unfold _handle.
  destruct (match_total (router E) (Request.init command rawpath (Some bdy) hdrs))
    as [Hnone|(r & ps & Hr & Hm & Hsome)].
  - rewrite (handle_on_unmatched E _ _ _ _ _ _ now st Hnone). by eexists.
  - rewrite (handle_on_matched E _ _ _ _ _ _ _ now st Hsome).
    apply route_match_spec in Hm as (Hmeth & _).
    rewrite init_method, py_upper_idem, Hget in Hmeth.
    assert (Router.r_method r = "GET") as Hr_get.
    { destruct (app_route_methods E r Hr) as [H|H]; [done|].
      rewrite H in Hmeth. discriminate Hmeth. }
    pose proof (get_routes_read E r (Request.with_path_params
                  (Request.init command rawpath (Some bdy) hdrs) ps) now st Hr Hr_get) as Hst.
    destruct (Router.r_handler r _ now st) as [[resp|e] st']; simpl in Hst; subst;
      by eexists.
Qed.

(** [GET /users/1] and [GET /posts/abc/comments] after some requests. *)
Lemma get_is_read_only_witness :
  let st := (serve sample_runtime
               [{| h_command := "POST"; h_path := "/users"; h_body := user_body |};
                {| h_command := "POST"; h_path := "/posts/5/comments";
                   h_body := comment_body |}] 0 ∅).2 in
  (exists resp, _handle sample_runtime "GET" "/users/1" ∅ "" 2 st = (Ok resp, st))
  /\ (exists resp, _handle sample_runtime "get" "/posts/abc/comments" ∅ "" 2 st = (Ok resp, st)).
Proof.
  intros st. split.
  - apply (get_is_read_only sample_runtime "GET" "/users/1" ∅ "" 2 st). reflexivity.
  - apply (get_is_read_only sample_runtime "get" "/posts/abc/comments" ∅ "" 2 st). reflexivity.
Defined.

(** ** The storage behind the application only grows *)

Lemma table_dense_fresh t : table_dense t -> next_id t ∉ (rows t).*1.
Proof.
  intros [Hkeys Hnext]. rewrite Hkeys, Hnext.
  intros (k & Hk & Hin)%list_elem_of_fmap. apply elem_of_seq in Hin. lia.
Qed.

Lemma store_dense_empty : store_dense ∅.
Proof. intros name. unfold table_named. rewrite lookup_empty. by split. Qed.

(** An insertion appends to one table and keeps the ids dense. *)
Lemma one_inserted_appends st st' :
  store_dense st -> one_inserted st st' ->
  store_dense st'
  /\ forall name, rows (table_named st name) `prefix_of` rows (table_named st' name).
Proof.
  intros Hd (M & vals & ->). pose proof (Hd (model_name M)) as HdM.
  rewrite <- table_of_named in HdM.
  pose proof (row_put_keys_fresh (next_id (table_of st M)) vals _ (table_dense_fresh _ HdM))
    as Hput.
  split.
  - intros name. rewrite table_named_put. case_bool_decide as Hname; [|apply Hd].
    destruct HdM as [Hkeys Hnext]. split; simpl; rewrite Hput.
    + rewrite fmap_app, length_app, Hkeys. simpl. rewrite Nat.add_1_r, seq_S, fmap_app.
      simpl. do 2 f_equal. lia.
    + rewrite length_app. simpl. lia.
  - intros name. rewrite table_named_put. case_bool_decide as Hname; [|done].
    subst name. simpl. rewrite Hput, <- table_of_named. by apply prefix_app_r.
Qed.

Lemma serve_appends (E : runtime) reqs now st :
  store_dense st ->
  store_dense (serve E reqs now st).2
  /\ forall name,
       rows (table_named st name) `prefix_of` rows (table_named (serve E reqs now st).2 name).
Proof.
  revert now st. induction reqs as [|r reqs IH]; intros now st Hd; [done|].
  simpl. destruct (handle_answer E (h_command r) (h_path r) ∅ (h_body r) now st)
    as (resp & st' & -> & Hans).
  assert (store_dense st'
          /\ forall name, rows (table_named st name) `prefix_of` rows (table_named st' name))
    as [Hd' Hpre].
  { destruct Hans as [[_ Hins]|[_ ->]]; [by apply one_inserted_appends|done]. }
  destruct (IH (now + 1) st' Hd') as [Hd'' Hpre'].
  destruct (serve E reqs (now + 1) st') as [resps st'']. simpl in *.
  split; [done|]. intros name. etrans; [apply Hpre|apply Hpre'].
Qed.

(** X5. The application has no route that updates or removes: in the
    storage reached by serving any requests from the empty storage, and
    after any further requests, every table still begins with the records it
    had, unchanged and in the same order, and the ids of a table are exactly
    1, 2, ... up to the number of its records. *)
Theorem served_storage_append_only (E : runtime) (reqs more : list http_request)
    (now0 now1 : Z) (M : Model) :
  let st := (serve E reqs now0 ∅).2 in
  let st' := (serve E more now1 st).2 in
  rows (table_of st M) `prefix_of` rows (table_of st' M)
  /\ (rows (table_of st' M)).*1 = Z.of_nat <$> seq 1 (length (rows (table_of st' M)))
  /\ next_id (table_of st' M) = Z.of_nat (length (rows (table_of st' M))) + 1
  /\ forall n vals,
       row_get n (rows (table_of st M)) = Some vals ->
       row_get n (rows (table_of st' M)) = Some vals.
Proof.
  intros st st'.
  destruct (serve_appends E reqs now0 ∅ store_dense_empty) as [Hd _]. fold st in Hd.
  destruct (serve_appends E more now1 st Hd) as [Hd' Hpre]. fold st' in Hd', Hpre.
  specialize (Hpre (model_name M)). rewrite <- !table_of_named in Hpre.
  destruct (Hd' (model_name M)) as [Hkeys Hnext]. rewrite <- !table_of_named in Hkeys, Hnext.
  split; [done|]. split; [done|]. split; [done|].
  intros n vals Hget. destruct Hpre as [extra ->].
  clear -Hget. induction (rows (table_of st M)) as [|[j b] rs IH]; simpl in *; [done|].
  destruct (n =? j); [done|]. by apply IH.
Qed.

(** ** The route table *)

(** X6. No two routes of the application's table match the same request:
    they differ in method, in the number of segments or in a literal
    segment. So at most one route matches, and the order in which [app.py]
    registers the routes has no effect on which handler is picked. *)
Theorem route_table_unambiguous (E : runtime) (req : Request.t) (i j : nat)
    (ri rj : Router.route handler) (psi psj : gmap string string) :
  router E !! i = Some ri ->
  router E !! j = Some rj ->
  Router.route_match ri req = Some psi ->
  Router.route_match rj req = Some psj ->
  i = j.
Proof.
  rewrite router_unfold. unfold app_routes, Router.route_match.
  generalize (py_upper (Request.method req)) as m.
  generalize (split_on "/" (Request.path req)) as segs.
  intros segs m Hi Hj.
  destruct i as [|[|[|[|[|[|[|[|i]]]]]]]]; try done;
    destruct j as [|[|[|[|[|[|[|[|j]]]]]]]]; try done;
    simpl in Hi, Hj; simplify_eq; try done; cbn [Router.r_method Router.r_regex];
    change (py_upper "GET") with "GET"; change (py_upper "POST") with "POST";
    destruct (String.eqb_spec "GET" m), (String.eqb_spec "POST" m);
    try congruence; try done;
    destruct segs as [|s0 [|s1 [|s2 [|s3 [|s4 segs]]]]]; cbn [Router.match_segments]; try done;
    repeat match goal with
           | |- context [String.eqb ?x ?y] => destruct (String.eqb_spec x y); subst
           end; intros; try done; try congruence.
Qed.

(** [GET /posts/5/comments] and the eighth route. *)
Lemma route_table_unambiguous_witness :
  let req := Request.init "GET" "/posts/5/comments" None ∅ in
  let r8 := {| Router.r_method := "GET";
               Router.r_regex := Router.compile "/posts/<id>/comments";
               Router.r_handler :=
                 register_controller (CommentController sample_runtime) "list_for_post" |} in
  router sample_runtime !! 7%nat = Some r8
  /\ Router.route_match r8 req = Some {[ "id" := "5" ]}
  /\ 7%nat = 7%nat.
Proof.
  intros req r8. split; [reflexivity|]. split; [reflexivity|].
  apply (route_table_unambiguous sample_runtime req 7 7 r8 r8 {[ "id" := "5" ]}
           {[ "id" := "5" ]}); reflexivity.
Defined.

(** ** Where a 500 can come from *)

Section ServerErrors.
Context (E : runtime).

Lemma register_controller_no_params cls name func req :
  cc_methods cls !! name = Some func ->
  m_params func = [] ->
  register_controller cls name req
  = m_body func {| c_request := req; c_model := cc_model cls |} ∅.
Proof.
  intros Hfunc Hparams. unfold register_controller. rewrite Hfunc, Hparams. simpl.
  unfold build_kwargs. simpl. apply call_method_bound; rewrite Hparams.
  - intros k [v Hv]. by rewrite lookup_empty in Hv.
  - intros p Hp. by apply elem_of_nil in Hp.
Qed.

Lemma create_returns self args now st :
  exists resp st', m_body (ModelController.create E) self args now st = (Ok resp, st').
Proof.
  unfold ModelController.create. simpl. unfold try_except, bind, ret, lift.
    rewrite json_call_ok. cbv beta iota.
  destruct (Models.create E (c_model self) (Request.json E (c_request self)) now st)
    as [[i|e] st'] eqn:Hc; [by eexists _, _|].
  apply create_effect in Hc as [-> _]. by eexists _, _.
Qed.

(** A route of three segments ending in [<id>] captures the third segment
    of the path. *)
Lemma route_match_id3 {H} meth lit (h : H) req ps :
  Router.route_match
    {| Router.r_method := meth;
       Router.r_regex := [Router.Lit ""; Router.Lit lit; Router.Param "id"];
       Router.r_handler := h |} req = Some ps ->
  exists seg, split_on "/" (Request.path req) !! 2%nat = Some seg /\ ps = {[ "id" := seg ]}.
Proof.
  unfold Router.route_match. cbn [Router.r_method Router.r_regex].
  destruct (String.eqb _ _); [|done].
  destruct (split_on "/" (Request.path req)) as [|s0 [|s1 [|s2 [|s3 segs]]]];
    cbn [Router.match_segments]; try done;
    destruct (String.eqb "" s0); try done; destruct (String.eqb lit s1); try done.
  intros [= <-]. by exists s2.
Qed.

Lemma route_match_id4 {H} meth lit last (h : H) req ps :
  Router.route_match
    {| Router.r_method := meth;
       Router.r_regex := [Router.Lit ""; Router.Lit lit; Router.Param "id"; Router.Lit last];
       Router.r_handler := h |} req = Some ps ->
  exists seg, split_on "/" (Request.path req) !! 2%nat = Some seg /\ ps = {[ "id" := seg ]}.
Proof.
  unfold Router.route_match. cbn [Router.r_method Router.r_regex].
  destruct (String.eqb _ _); [|done].
  destruct (split_on "/" (Request.path req)) as [|s0 [|s1 [|s2 [|s3 [|s4 segs]]]]];
    cbn [Router.match_segments]; try done;
    destruct (String.eqb "" s0); try done; destruct (String.eqb lit s1); try done;
    destruct (String.eqb last s3); try done.
  intros [= <-]. by exists s2.
Qed.

(** [retrieve] on a captured segment raises exactly when [int()] rejects
    it. *)
Lemma retrieve_raises self seg now st e st' :
  m_body (ModelController.retrieve E) self {[ "id" := VStr seg ]} now st = (Raise e, st') ->
  int_of_str E seg = None /\ e = id_error E seg /\ st' = st.
Proof.
  unfold ModelController.retrieve, arg. simpl. rewrite lookup_singleton_eq.
  unfold bind, lift, try_except, ret, Models.get. simpl.
  destruct (int_of_str E seg) as [n|]; simpl.
  - by destruct (row_get n (rows (table_of st (c_model self)))).
  - by intros [= <- <-].
Qed.

Lemma create_for_post_raises self seg now st e st' :
  m_body (create_for_post E) self {[ "id" := VStr seg ]} now st = (Raise e, st') ->
  int_of_str E seg = None /\ e = id_error E seg /\ st' = st.
Proof.
  rewrite create_for_post_body. destruct (int_of_str E seg) as [n|].
  - by destruct (Models.create E _ _ now st) as [[i|e'] st''].
  - by intros [= <- <-].
Qed.

Lemma list_for_post_raises self seg now st e st' :
  m_body (list_for_post E) self {[ "id" := VStr seg ]} now st = (Raise e, st') ->
  int_of_str E seg = None /\ e = id_error E seg /\ st' = st.
Proof.
  rewrite list_for_post_body. destruct (int_of_str E seg) as [n|] eqn:Hint.
  - by rewrite (filter_by_post_decimal E seg n _ Hint).
  - rewrite (filter_by_post_invalid E seg _ Hint).
    destruct (Models.of_row _ <$> _); [done|]. by intros [= <- <-].
Qed.

(** What a handler of the route table can raise: only the [ValueError] of
    an id segment that [int()] rejects. *)
Lemma router_raises (r : Router.route handler) req ps now st e st' :
  r ∈ router E ->
  Router.route_match r req = Some ps ->
  Router.r_handler r (Request.with_path_params req ps) now st = (Raise e, st') ->
  exists seg,
    split_on "/" (Request.path req) !! 2%nat = Some seg
    /\ int_of_str E seg = None /\ e = id_error E seg /\ st' = st.
Proof.
  rewrite router_unfold. unfold app_routes. intros Hr.
  repeat (apply elem_of_cons in Hr as [->|Hr]); try (by apply elem_of_nil in Hr);
    cbn [Router.r_handler]; intros Hm Hraise.
  - rewrite (register_controller_no_params (UserController E) "list" _ _
               (model_methods_list E) eq_refl) in Hraise.
    done.
  - rewrite (register_controller_no_params (UserController E) "create" _ _
               (model_methods_create E) eq_refl) in Hraise.
    match type of Hraise with
    | m_body _ ?self _ _ _ = _ =>
        destruct (create_returns self ∅ now st) as (resp & st'' & Hc)
    end.
    by rewrite Hc in Hraise.
  - apply route_match_id3 in Hm as (seg & Hseg & ->). exists seg. split; [done|].
    rewrite (register_controller_id (UserController E) "retrieve" _ req seg
               (model_methods_retrieve E) eq_refl) in Hraise.
    by apply retrieve_raises in Hraise.
  - rewrite (register_controller_no_params (PostController E) "list" _ _
               (model_methods_list E) eq_refl) in Hraise.
    done.
  - rewrite (register_controller_no_params (PostController E) "create" _ _
               (model_methods_create E) eq_refl) in Hraise.
    match type of Hraise with
    | m_body _ ?self _ _ _ = _ =>
        destruct (create_returns self ∅ now st) as (resp & st'' & Hc)
    end.
    by rewrite Hc in Hraise.
  - apply route_match_id3 in Hm as (seg & Hseg & ->). exists seg. split; [done|].
    rewrite (register_controller_id (PostController E) "retrieve" _ req seg
               (model_methods_retrieve E) eq_refl) in Hraise.
    by apply retrieve_raises in Hraise.
  - apply route_match_id4 in Hm as (seg & Hseg & ->). exists seg. split; [done|].
    rewrite (register_controller_id _ _ _ req seg (comment_methods_create_for_post E) eq_refl)
      in Hraise.
    by apply create_for_post_raises in Hraise.
  - apply route_match_id4 in Hm as (seg & Hseg & ->). exists seg. split; [done|].
    rewrite (register_controller_id _ _ _ req seg (comment_methods_list_for_post E) eq_refl)
      in Hraise.
    by apply list_for_post_raises in Hraise.
Qed.

End ServerErrors.

(** X7. Once the body is read, a 500 answer of the application has one
    cause only: the request matched a route with an [<id>] placeholder and
    [int()] rejects the captured segment, the third of the path, because it
    is no integer literal or because it has more digits than the limit
    allows. The response is then the catch-all's, built from that
    [ValueError] with the message of [int()], and the storage is as it was.
    No handler of the route table raises anything else: no method name is
    missing, no declared parameter is left unbound, and the generic
    operations, as the spec describes them, turn their own failures into
    400 and 404. *)
Theorem server_error_only_from_bad_id (E : runtime) (command rawpath : string)
    (hdrs : gmap string string) (bdy : string) (now : Z) (st : storage)
    (resp : Response.t) (st' : storage) :
  _handle E command rawpath hdrs bdy now st = (Ok resp, st') ->
  Response.status resp = 500 ->
  exists seg,
    split_on "/" (Request.path (Request.init command rawpath (Some bdy) hdrs)) !! 2%nat
    = Some seg
    /\ int_of_str E seg = None
    /\ resp = internal_error E (id_error E seg)
    /\ st' = st.
Proof.
  unfold _handle. intros Hh H500.
  destruct (match_total (router E) (Request.init command rawpath (Some bdy) hdrs))
    as [Hnone|(r & ps & Hr & Hm & Hsome)].
  - rewrite (handle_on_unmatched E _ _ _ _ _ _ now st Hnone) in Hh.
    injection Hh as <- <-. discriminate H500.
  - rewrite (handle_on_matched E _ _ _ _ _ _ _ now st Hsome) in Hh.
    pose proof (router_answered E r (Request.with_path_params
                  (Request.init command rawpath (Some bdy) hdrs) ps) now st Hr) as Hans.
    pose proof (router_raises E r (Request.init command rawpath (Some bdy) hdrs) ps now st)
      as Hraises.
    unfold answered in Hans.
    destruct (Router.r_handler r _ now st) as [[resp'|e] st''] eqn:Hrun; simpl in Hans.
    + injection Hh as <- <-. rewrite H500 in Hans.
      destruct Hans as [[? _]|[[?|[?|?]] _]]; done.
    + injection Hh as <- <-.
      destruct (Hraises e st'' Hr Hm eq_refl) as (seg & Hseg & Hint & -> & ->).
      by exists seg.
Qed.

(** [GET /users/abc]. *)
Lemma server_error_only_from_bad_id_witness :
  exists seg,
    split_on "/" (Request.path (Request.init "GET" "/users/abc" (Some "") ∅)) !! 2%nat
    = Some seg
    /\ int_of_str sample_runtime seg = None
    /\ internal_error sample_runtime (id_error sample_runtime "abc")
       = internal_error sample_runtime (id_error sample_runtime seg)
    /\ (∅ : storage) = ∅.
Proof.
  apply (server_error_only_from_bad_id sample_runtime "GET" "/users/abc" ∅ "" 0 ∅
           (internal_error sample_runtime (id_error sample_runtime "abc")) ∅).
  - vm_compute. reflexivity.
  - reflexivity.
Defined.

(** ** The comment routes on any id that [int()] accepts *)

Section CommentRoutes.
Context (E : runtime).

Lemma init_path command rawpath bdy hdrs :
  Request.path (Request.init command rawpath bdy hdrs) = (split_once "?" rawpath).1.
Proof. unfold Request.init. by destruct (split_once "?" rawpath). Qed.

Lemma init_json command rawpath bdy hdrs :
  Request.json E (Request.init command rawpath bdy hdrs)
  = match bdy with
    | None => ∅
    | Some text =>
        match json_loads E text with
        | Some (VDict d) => to_mapping d
        | _ => ∅
        end
    end.
Proof. unfold Request.json. by rewrite init_body. Qed.

(** [POST /posts/<seg>/comments] once the route and the adapter are gone
    through: what is left is the body of [create_for_post]. *)
Lemma handle_create_for_post command rawpath hdrs bdy seg now st :
  let req := Request.init command rawpath (Some bdy) hdrs in
  py_upper command = "POST" ->
  Request.path req = "/posts/" +:+ seg +:+ "/comments" ->
  no_char "/" seg = true ->
  _handle E command rawpath hdrs bdy now st
  = match int_of_str E seg with
    | None => (Ok (internal_error E (id_error E seg)), st)
    | Some n =>
        match Models.create E Comment (<["post_id" := VInt n]> (Request.json E req)) now st with
        | (Ok instance, st') => (Ok (Response.created E (Models.to_dict E instance)), st')
        | (Raise e, st') => (Ok (Response.bad_request E (exn_str e)), st')
        end
    end.
Proof.
  intros req Hcmd Hpath Hseg.
  assert (py_upper (Request.method req) = "POST") as Hm.
  { unfold req. by rewrite init_method, py_upper_idem. }
  pose proof (match_create_for_post E req seg Hm Hpath Hseg) as Hmatch.
  unfold _handle. rewrite (handle_on_matched E _ _ _ _ _ _ _ now st Hmatch).
  rewrite (register_controller_id _ _ _ req seg (comment_methods_create_for_post E) eq_refl).
  rewrite create_for_post_body.
  cbn [c_request c_model CommentController cc_model]. rewrite json_with_path_params.
  destruct (int_of_str E seg) as [n|]; [|done].
  by destruct (Models.create E Comment _ now st) as [[i|e] st'].
Qed.

(** [GET /posts/<seg>/comments] likewise. *)
Lemma handle_list_for_post command rawpath hdrs bdy seg now st :
  let req := Request.init command rawpath (Some bdy) hdrs in
  py_upper command = "GET" ->
  Request.path req = "/posts/" +:+ seg +:+ "/comments" ->
  no_char "/" seg = true ->
  _handle E command rawpath hdrs bdy now st
  = match int_of_str E seg with
    | None =>
        match rows (table_of st Comment) with
        | [] => (Ok (Response.json E (VList []) 200), st)
        | _ :: _ => (Ok (internal_error E (id_error E seg)), st)
        end
    | Some n =>
        (Ok (Response.json E
               (VList (Models.to_dict E <$>
                         List.filter (fun c => py_eq_int (Models.attr c "post_id") n)
                           (Models.of_row Comment <$> rows (table_of st Comment)))) 200), st)
    end.
Proof.
  intros req Hcmd Hpath Hseg.
  assert (py_upper (Request.method req) = "GET") as Hm.
  { unfold req. by rewrite init_method, py_upper_idem. }
  pose proof (match_list_for_post E req seg Hm Hpath Hseg) as Hmatch.
  unfold _handle. rewrite (handle_on_matched E _ _ _ _ _ _ _ now st Hmatch).
  rewrite (register_controller_id _ _ _ req seg (comment_methods_list_for_post E) eq_refl).
  rewrite list_for_post_body. cbn [c_model CommentController cc_model].
  destruct (int_of_str E seg) as [n|] eqn:Hint.
  - by rewrite (filter_by_post_decimal E seg n _ Hint).
  - rewrite (filter_by_post_invalid E seg _ Hint). by destruct (rows (table_of st Comment)).
Qed.

End CommentRoutes.

(** X8. [create_for_post] reads the id segment with [int()] and checks
    nothing else about it: for every segment that [int()] accepts (digits
    with a sign, leading zeros or underscores between digits, negative
    numbers included) and a body whose [content] and [author_id] pass, the
    answer is 201 and the comment is stored with [post_id] equal to the
    integer read. *)
Theorem comment_created_for_int_literal (E : runtime) (command rawpath : string)
    (hdrs : gmap string string) (bdy seg : string) (n now : Z) (st : storage)
    (vc va : option value) :
  let req := Request.init command rawpath (Some bdy) hdrs in
  py_upper command = "POST" ->
  Request.path req = "/posts/" +:+ seg +:+ "/comments" ->
  no_char "/" seg = true ->
  int_of_str E seg = Some n ->
  Fields.validate E "content" (CharField (Some 500%nat) true)
    (Request.json E req !! "content") = Ok vc ->
  Fields.validate E "author_id" (IntegerField true)
    (Request.json E req !! "author_id") = Ok va ->
  exists comment st',
    _handle E command rawpath hdrs bdy now st
    = (Ok (Response.created E (Models.to_dict E comment)), st')
    /\ Response.status (Response.created E (Models.to_dict E comment)) = 201
    /\ Models.get Comment (next_id (table_of st Comment)) now st' = (Ok comment, st')
    /\ Models.attr comment "post_id" = VInt n.
Proof.
  intros req Hcmd Hpath Hseg Hint Hcontent Hauthor.
  rewrite (handle_create_for_post E _ _ _ _ seg now st Hcmd Hpath Hseg), Hint.
  destruct (comment_create_ok E (<["post_id" := VInt n]> (Request.json E req))
              n vc va now st) as (vals & Hcreate & Hpost).
  - apply lookup_insert_eq.
  - by rewrite lookup_insert_ne.
  - by rewrite lookup_insert_ne.
  - fold req. rewrite Hcreate. eexists _, _. split; [reflexivity|].
    split; [reflexivity|]. split.
    + unfold Models.get. rewrite table_of_put_eq. simpl. by rewrite row_get_put_eq.
    + unfold Models.attr. simpl. by rewrite Hpost.
Qed.

(** [POST /posts/-5/comments]: the comment is stored for post -5. *)
Lemma comment_created_for_int_literal_witness :
  exists comment st',
    _handle sample_runtime "POST" "/posts/-5/comments" ∅ comment_body 0 ∅
    = (Ok (Response.created sample_runtime (Models.to_dict sample_runtime comment)), st')
    /\ Response.status (Response.created sample_runtime (Models.to_dict sample_runtime comment))
       = 201
    /\ Models.get Comment (next_id (table_of ∅ Comment)) 0 st' = (Ok comment, st')
    /\ Models.attr comment "post_id" = VInt (-5).
Proof.
  apply (comment_created_for_int_literal sample_runtime "POST" "/posts/-5/comments" ∅
           comment_body "-5" (-5) 0 ∅ (Some (VStr "hi")) (Some (VInt 1))); reflexivity.
Defined.

(** X9. [list_for_post] compares with the integer that [int()] reads from
    the id segment: the answer to [GET /posts/<seg>/comments] is the list of
    the comments whose [post_id] equals that integer, so two segments that
    denote the same integer (as 7, 007 and +7 do) give the same answer. *)
Theorem comments_listed_by_int_value (E : runtime) (command rawpath1 rawpath2 : string)
    (hdrs : gmap string string) (bdy seg1 seg2 : string) (n now : Z) (st : storage) :
  py_upper command = "GET" ->
  Request.path (Request.init command rawpath1 (Some bdy) hdrs)
  = "/posts/" +:+ seg1 +:+ "/comments" ->
  Request.path (Request.init command rawpath2 (Some bdy) hdrs)
  = "/posts/" +:+ seg2 +:+ "/comments" ->
  no_char "/" seg1 = true -> no_char "/" seg2 = true ->
  int_of_str E seg1 = Some n -> int_of_str E seg2 = Some n ->
  _handle E command rawpath1 hdrs bdy now st
  = (Ok (Response.json E
           (VList (Models.to_dict E <$>
                     List.filter (fun c => py_eq_int (Models.attr c "post_id") n)
                       (Models.of_row Comment <$> rows (table_of st Comment)))) 200), st)
  /\ _handle E command rawpath2 hdrs bdy now st = _handle E command rawpath1 hdrs bdy now st.
Proof.
  intros Hcmd Hp1 Hp2 Hs1 Hs2 Hi1 Hi2.
  rewrite (handle_list_for_post E _ _ _ _ seg1 now st Hcmd Hp1 Hs1), Hi1.
  rewrite (handle_list_for_post E _ _ _ _ seg2 now st Hcmd Hp2 Hs2), Hi2. done.
Qed.

(** [GET /posts/007/comments] and [GET /posts/+7/comments]. *)
Lemma comments_listed_by_int_value_witness :
  let st := (serve sample_runtime
               [{| h_command := "POST"; h_path := "/posts/7/comments";
                   h_body := comment_body |}] 0 ∅).2 in
  _handle sample_runtime "GET" "/posts/+7/comments" ∅ "" 1 st
  = _handle sample_runtime "GET" "/posts/007/comments" ∅ "" 1 st.
Proof.
  intros st.
  apply (comments_listed_by_int_value sample_runtime "GET" "/posts/007/comments"
           "/posts/+7/comments" ∅ "" "007" "+7" 7 1 st); reflexivity.
Defined.

(** X10. [create_for_post] writes the id of the path over whatever
    [post_id] the body carries: two requests to the same path whose JSON
    bodies agree on every key but [post_id] have the same outcome, response
    and storage. *)
Theorem path_id_overrides_body_post_id (E : runtime) (command rawpath : string)
    (hdrs : gmap string string) (bdy1 bdy2 seg : string) (now : Z) (st : storage) :
  py_upper command = "POST" ->
  (split_once "?" rawpath).1 = "/posts/" +:+ seg +:+ "/comments" ->
  no_char "/" seg = true ->
  (forall k, k <> "post_id" ->
     Request.json E (Request.init command rawpath (Some bdy1) hdrs) !! k
     = Request.json E (Request.init command rawpath (Some bdy2) hdrs) !! k) ->
  _handle E command rawpath hdrs bdy1 now st = _handle E command rawpath hdrs bdy2 now st.
Proof.
  intros Hcmd Hpath Hseg Hagree.
  rewrite (handle_create_for_post E _ _ _ bdy1 seg now st Hcmd) by (by rewrite ?init_path).
  rewrite (handle_create_for_post E _ _ _ bdy2 seg now st Hcmd) by (by rewrite ?init_path).
  destruct (int_of_str E seg) as [n|]; [|done].
  assert (<["post_id" := VInt n]>
            (Request.json E (Request.init command rawpath (Some bdy1) hdrs))
          = <["post_id" := VInt n]>
              (Request.json E (Request.init command rawpath (Some bdy2) hdrs))) as ->; [|done].
  apply map_eq. intros k. destruct (decide (k = "post_id")) as [->|Hk].
  - by rewrite !lookup_insert_eq.
  - rewrite !lookup_insert_ne by done. by apply Hagree.
Qed.

(** [POST /posts/5/comments] with and without a [post_id] in the body. *)
Lemma path_id_overrides_body_post_id_witness :
  _handle spoof_runtime "POST" "/posts/5/comments" ∅ comment_body 0 ∅
  = _handle spoof_runtime "POST" "/posts/5/comments" ∅ spoof_body 0 ∅.
Proof.
  apply (path_id_overrides_body_post_id spoof_runtime "POST" "/posts/5/comments" ∅
           comment_body spoof_body "5" 0 ∅); try reflexivity.
  intros k Hk.
  change (Request.json spoof_runtime (Request.init "POST" "/posts/5/comments" (Some spoof_body) ∅))
    with (<["post_id" := VInt 99]>
            (Request.json spoof_runtime
               (Request.init "POST" "/posts/5/comments" (Some comment_body) ∅))).
  by rewrite lookup_insert_ne.
Defined.

(** X11. When [int()] accepts the id segment, [create_for_post] never lets
    a failure of the creation escape: if some field of the comment other
    than [post_id] fails its validation (a body that is not JSON leaves the
    required [content] and [author_id] absent), the answer is 400 with the
    message of the failure and nothing is stored. *)
Theorem invalid_comment_refused (E : runtime) (command rawpath : string)
    (hdrs : gmap string string) (bdy seg : string) (n now : Z) (st : storage)
    (name : string) (f : Field) (e : exn) :
  let req := Request.init command rawpath (Some bdy) hdrs in
  py_upper command = "POST" ->
  Request.path req = "/posts/" +:+ seg +:+ "/comments" ->
  no_char "/" seg = true ->
  int_of_str E seg = Some n ->
  (name, f) ∈ schema Comment ->
  name <> "post_id" ->
  Fields.validate E name f (Request.json E req !! name) = Raise e ->
  exists msg,
    _handle E command rawpath hdrs bdy now st = (Ok (Response.bad_request E msg), st)
    /\ Response.status (Response.bad_request E msg) = 400.
Proof.
  intros req Hcmd Hpath Hseg Hint Hin Hname Hfail.
  rewrite (handle_create_for_post E _ _ _ _ seg now st Hcmd Hpath Hseg), Hint. fold req.
  set (data := <["post_id" := VInt n]> (Request.json E req)).
  assert (exists e', Models.validate_fields E (schema Comment)
                       (inst_attrs (Models.construct Comment data)) = Raise e') as [e' He'].
  { apply (validate_fields_fails E _ _ name f e Hin).
    rewrite construct_lookup.
    - unfold data. by rewrite lookup_insert_ne.
    - apply list_elem_of_fmap. by exists (name, f). }
  unfold Models.create.
  rewrite (save_fails E (Models.construct Comment data) now st e' He').
  by exists (exn_str e').
Qed.

(** [POST /posts/5/comments] with a body that is not JSON. *)
Lemma invalid_comment_refused_witness :
  exists msg,
    _handle sample_runtime "POST" "/posts/5/comments" ∅ "not json" 0 ∅
    = (Ok (Response.bad_request sample_runtime msg), ∅)
    /\ Response.status (Response.bad_request sample_runtime msg) = 400.
Proof.
  apply (invalid_comment_refused sample_runtime "POST" "/posts/5/comments" ∅ "not json" "5" 5 0 ∅
           "content" (CharField (Some 500%nat) true)
           (ValidationError "content: this field is required")); try reflexivity.
  - right. left.
  - discriminate.
Defined.

(** ** Comments and the other tables *)

Lemma create_reads_own_table (E : runtime) M kw now st1 st2 :
  table_of st1 M = table_of st2 M ->
  (Models.create E M kw now st1).1 = (Models.create E M kw now st2).1
  /\ table_of (Models.create E M kw now st1).2 M = table_of (Models.create E M kw now st2).2 M.
Proof.
  intros Htab. unfold Models.create, Models.save. simpl.
  destruct (Models.validate_fields E (schema M) _) as [vals|e]; simpl; [|done].
  rewrite !table_of_put_eq, Htab. done.
Qed.

(** X12. The comment routes look at the comment table only: neither
    [create_for_post] nor [list_for_post] checks that the post of the path
    or the author of the body exists. Run on two storages that have the same
    comment table, whatever their user and post tables, a request to
    [/posts/<id>/comments] gets the same response and leaves the same
    comment table. *)
Theorem comments_ignore_other_tables (E : runtime) (command rawpath : string)
    (hdrs : gmap string string) (bdy seg : string) (now : Z) (st1 st2 : storage) :
  let req := Request.init command rawpath (Some bdy) hdrs in
  py_upper command = "POST" \/ py_upper command = "GET" ->
  Request.path req = "/posts/" +:+ seg +:+ "/comments" ->
  no_char "/" seg = true ->
  table_of st1 Comment = table_of st2 Comment ->
  (_handle E command rawpath hdrs bdy now st1).1
  = (_handle E command rawpath hdrs bdy now st2).1
  /\ table_of (_handle E command rawpath hdrs bdy now st1).2 Comment
     = table_of (_handle E command rawpath hdrs bdy now st2).2 Comment.
Proof.
  intros req [Hcmd|Hcmd] Hpath Hseg Htab.
  - rewrite !(handle_create_for_post E _ _ _ _ seg now _ Hcmd Hpath Hseg). fold req.
    destruct (int_of_str E seg) as [n|]; [|done].
    destruct (create_reads_own_table E Comment
                (<["post_id" := VInt n]> (Request.json E req)) now st1 st2 Htab) as [H1 H2].
    destruct (Models.create E Comment _ now st1) as [[i1|e1] st1'],
             (Models.create E Comment _ now st2) as [[i2|e2] st2']; simpl in *;
      by simplify_eq.
  - rewrite !(handle_list_for_post E _ _ _ _ seg now _ Hcmd Hpath Hseg), Htab.
    destruct (int_of_str E seg) as [n|]; [done|].
    by destruct (rows (table_of st2 Comment)).
Qed.

(** A comment for post 5 on the empty storage and on a storage that holds a
    user: no post 5 exists in either. *)
Lemma comments_ignore_other_tables_witness :
  let st2 := (serve sample_runtime
                [{| h_command := "POST"; h_path := "/users"; h_body := user_body |}] 0 ∅).2 in
  (_handle sample_runtime "POST" "/posts/5/comments" ∅ comment_body 1 ∅).1
  = (_handle sample_runtime "POST" "/posts/5/comments" ∅ comment_body 1 st2).1
  /\ table_of (_handle sample_runtime "POST" "/posts/5/comments" ∅ comment_body 1 ∅).2 Comment
     = table_of (_handle sample_runtime "POST" "/posts/5/comments" ∅ comment_body 1 st2).2
         Comment.
Proof.
  intros st2.
  apply (comments_ignore_other_tables sample_runtime "POST" "/posts/5/comments" ∅ comment_body
           "5" 1 ∅ st2); try reflexivity.
  left. reflexivity.
Defined.

(** ** A comment that was posted is listed *)

Lemma row_get_prefix {A} n (rs rs' : list (Z * A)) a :
  rs `prefix_of` rs' -> row_get n rs = Some a -> row_get n rs' = Some a.
Proof.
  intros [extra ->]. induction rs as [|[j b] rs IH]; simpl; [done|].
  destruct (n =? j); [done|]. apply IH.
Qed.

Lemma serve_dense (E : runtime) reqs now : store_dense (serve E reqs now ∅).2.
Proof. apply serve_appends, store_dense_empty. Qed.

(** X13. In a storage reached by serving requests, a comment posted for
    post [n] goes last in the comment table and leaves every other table as
    it was; from then on the list of post [n] is its former list followed by
    the new comment, and the list of any other post is unchanged. *)
Theorem posted_comment_is_listed (E : runtime) (reqs : list http_request) (now0 : Z)
    (command rawpath : string) (hdrs : gmap string string) (bdy seg : string)
    (n now : Z) (vc va : option value) :
  let st := (serve E reqs now0 ∅).2 in
  let req := Request.init command rawpath (Some bdy) hdrs in
  let all_before := Models.of_row Comment <$> rows (table_of st Comment) in
  py_upper command = "POST" ->
  Request.path req = "/posts/" +:+ seg +:+ "/comments" ->
  no_char "/" seg = true ->
  int_of_str E seg = Some n ->
  Fields.validate E "content" (CharField (Some 500%nat) true)
    (Request.json E req !! "content") = Ok vc ->
  Fields.validate E "author_id" (IntegerField true)
    (Request.json E req !! "author_id") = Ok va ->
  exists comment st',
    _handle E command rawpath hdrs bdy now st
    = (Ok (Response.created E (Models.to_dict E comment)), st')
    /\ (forall name, name <> "Comment" -> st' !! name = st !! name)
    /\ Models.of_row Comment <$> rows (table_of st' Comment) = all_before ++ [comment]
    /\ forall rawpath2 bdy2 seg2 k now2,
         Request.path (Request.init "GET" rawpath2 (Some bdy2) hdrs)
         = "/posts/" +:+ seg2 +:+ "/comments" ->
         no_char "/" seg2 = true ->
         int_of_str E seg2 = Some k ->
         _handle E "GET" rawpath2 hdrs bdy2 now2 st'
         = (Ok (Response.json E
                  (VList (Models.to_dict E <$>
                            (List.filter (fun c => py_eq_int (Models.attr c "post_id") k)
                               all_before
                             ++ (if n =? k then [comment] else [])))) 200), st').
Proof.
  intros st req all_before Hcmd Hpath Hseg Hint Hcontent Hauthor.
  rewrite (handle_create_for_post E _ _ _ _ seg now st Hcmd Hpath Hseg), Hint. fold req.
  destruct (comment_create_ok E (<["post_id" := VInt n]> (Request.json E req))
              n vc va now st) as (vals & Hcreate & Hpost).
  { apply lookup_insert_eq. } { by rewrite lookup_insert_ne. } { by rewrite lookup_insert_ne. }
  rewrite Hcreate. eexists _, _. split; [reflexivity|].
  pose proof (serve_dense E reqs now0 (model_name Comment)) as Hd.
  fold st in Hd. rewrite <- table_of_named in Hd.
  pose proof (row_put_keys_fresh (next_id (table_of st Comment)) vals _
                (table_dense_fresh _ Hd)) as Hput.
  assert (Models.of_row Comment <$>
            rows (table_of
                    (Models.put_table Comment
                       {| rows := row_put (next_id (table_of st Comment)) vals
                                    (rows (table_of st Comment));
                          next_id := next_id (table_of st Comment) + 1 |} st) Comment)
          = all_before
            ++ [{| inst_model := Comment; inst_id := Some (next_id (table_of st Comment));
                   inst_attrs := vals |}]) as Hall.
  { rewrite table_of_put_eq. simpl. rewrite Hput, fmap_app. done. }
  split; [|split; [exact Hall|]].
  - intros name Hname. unfold Models.put_table. by rewrite lookup_insert_ne.
  - intros rawpath2 bdy2 seg2 k now2 Hpath2 Hseg2 Hint2.
    rewrite (handle_list_for_post E "GET" _ _ _ seg2 now2 _ eq_refl Hpath2 Hseg2), Hint2.
    rewrite Hall, List.filter_app. simpl.
    unfold Models.attr at 2. simpl. rewrite Hpost. simpl. done.
Qed.

(** A comment for post 5 after comments for posts 5 and 6. *)
Lemma posted_comment_is_listed_witness :
  let post p := {| h_command := "POST"; h_path := p; h_body := comment_body |} in
  let st := (serve sample_runtime [post "/posts/5/comments"; post "/posts/6/comments"] 0 ∅).2 in
  exists comment st',
    _handle sample_runtime "POST" "/posts/5/comments" ∅ comment_body 2 st
    = (Ok (Response.created sample_runtime (Models.to_dict sample_runtime comment)), st')
    /\ Models.of_row Comment <$> rows (table_of st' Comment)
       = (Models.of_row Comment <$> rows (table_of st Comment)) ++ [comment].
Proof.
  intros post st.
  destruct (posted_comment_is_listed sample_runtime
              [post "/posts/5/comments"; post "/posts/6/comments"] 0
              "POST" "/posts/5/comments" ∅ comment_body "5" 5 2
              (Some (VStr "hi")) (Some (VInt 1)) eq_refl eq_refl eq_refl eq_refl eq_refl eq_refl)
    as (comment & st' & Hh & _ & Hall & _).
  exists comment, st'. split; [exact Hh|exact Hall].
Defined.

(** ** A record that was created can be retrieved *)

Section Collections.
Context (E : runtime).

Lemma create_ok_form M kw now st i st' :
  Models.create E M kw now st = (Ok i, st') ->
  exists vals,
    i = {| inst_model := M; inst_id := Some (next_id (table_of st M)); inst_attrs := vals |}
    /\ st' = Models.put_table M
               {| rows := row_put (next_id (table_of st M)) vals (rows (table_of st M));
                  next_id := next_id (table_of st M) + 1 |} st.
Proof.
  unfold Models.create. intros Hc. apply save_effect in Hc as (HM & vals & Hvals & Hid & ->).
  exists vals. split; [|done]. destruct i. simpl in *. by subst.
Qed.

Lemma split_collection coll :
  coll = "users" \/ coll = "posts" -> split_on "/" ("/" +:+ coll) = [""; coll].
Proof. by intros [-> | ->]. Qed.

Lemma split_collection_item coll seg :
  coll = "users" \/ coll = "posts" -> no_char "/" seg = true ->
  split_on "/" ("/" +:+ coll +:+ "/" +:+ seg) = [""; coll; seg].
Proof.
  intros [-> | ->] Hseg; simpl; change ("" +:+ seg) with seg;
    rewrite (split_on_no_char _ _ Hseg); reflexivity.
Qed.

(** [POST /users] and [POST /posts] once the route and the adapter are gone
    through. *)
Lemma handle_create coll M command rawpath hdrs bdy now st :
  let req := Request.init command rawpath (Some bdy) hdrs in
  (coll = "users" /\ M = User) \/ (coll = "posts" /\ M = Post) ->
  py_upper command = "POST" ->
  Request.path req = "/" +:+ coll ->
  _handle E command rawpath hdrs bdy now st
  = match Models.create E M (Request.json E req) now st with
    | (Ok instance, st') => (Ok (Response.created E (Models.to_dict E instance)), st')
    | (Raise e, st') => (Ok (Response.bad_request E (exn_str e)), st')
    end.
Proof.
  intros req Hcoll Hcmd Hpath.
  assert (py_upper (Request.method req) = "POST") as Hm.
  { unfold req. by rewrite init_method, py_upper_idem. }
  assert (split_on "/" (Request.path req) = [""; coll]) as Hsplit.
  { rewrite Hpath. apply split_collection. tauto. }
  assert (exists cls,
            Router.match_ (router E) req
            = (Some (register_controller cls "create"), Request.with_path_params req ∅)
            /\ cc_model cls = M /\ cc_methods cls = ModelController.methods E)
    as (cls & Hmatch & Hmodel & Hmethods).
  { destruct Hcoll as [[-> ->]|[-> ->]].
    - exists (UserController E). split; [|done].
      unfold router, Router.get, Router.post, Router.add_route. cbn [app].
      rewrite !match_cons. rewrite !(route_match_eval _ req "POST" _ Hm Hsplit). reflexivity.
    - exists (PostController E). split; [|done].
      unfold router, Router.get, Router.post, Router.add_route. cbn [app].
      rewrite !match_cons. rewrite !(route_match_eval _ req "POST" _ Hm Hsplit). reflexivity. }
  unfold _handle. rewrite (handle_on_matched E _ _ _ _ _ _ _ now st Hmatch).
  rewrite (register_controller_no_params cls "create" (ModelController.create E)).
  - rewrite Hmodel. unfold ModelController.create. simpl. unfold try_except, bind, ret, lift.
    rewrite json_call_ok. cbv beta iota.
    rewrite json_with_path_params. fold req.
    destruct (Models.create E M (Request.json E req) now st) as [[i|e] st'] eqn:Hc; [done|].
    apply create_effect in Hc as [-> _]. done.
  - rewrite Hmethods. apply model_methods_create.
  - done.
Qed.

(** [GET /users/<seg>] and [GET /posts/<seg>] likewise. *)
Lemma handle_retrieve coll M command rawpath hdrs bdy seg now st :
  let req := Request.init command rawpath (Some bdy) hdrs in
  (coll = "users" /\ M = User) \/ (coll = "posts" /\ M = Post) ->
  py_upper command = "GET" ->
  Request.path req = "/" +:+ coll +:+ "/" +:+ seg ->
  no_char "/" seg = true ->
  _handle E command rawpath hdrs bdy now st
  = match int_of_str E seg with
    | None => (Ok (internal_error E (id_error E seg)), st)
    | Some n =>
        match row_get n (rows (table_of st M)) with
        | Some vals => (Ok (Response.json E (Models.to_dict E (Models.of_row M (n, vals))) 200), st)
        | None => (Ok (Response.not_found E), st)
        end
    end.
Proof.
  intros req Hcoll Hcmd Hpath Hseg.
  assert (py_upper (Request.method req) = "GET") as Hm.
  { unfold req. by rewrite init_method, py_upper_idem. }
  assert (split_on "/" (Request.path req) = [""; coll; seg]) as Hsplit.
  { rewrite Hpath. apply split_collection_item; tauto. }
  assert (exists cls,
            Router.match_ (router E) req
            = (Some (register_controller cls "retrieve"),
               Request.with_path_params req {[ "id" := seg ]})
            /\ cc_model cls = M /\ cc_methods cls = ModelController.methods E)
    as (cls & Hmatch & Hmodel & Hmethods).
  { destruct Hcoll as [[-> ->]|[-> ->]].
    - exists (UserController E). split; [|done].
      unfold router, Router.get, Router.post, Router.add_route. cbn [app].
      rewrite !match_cons. rewrite !(route_match_eval _ req "GET" _ Hm Hsplit). reflexivity.
    - exists (PostController E). split; [|done].
      unfold router, Router.get, Router.post, Router.add_route. cbn [app].
      rewrite !match_cons. rewrite !(route_match_eval _ req "GET" _ Hm Hsplit). reflexivity. }
  unfold _handle. rewrite (handle_on_matched E _ _ _ _ _ _ _ now st Hmatch).
  rewrite (register_controller_id cls "retrieve" (ModelController.retrieve E) req seg).
  - rewrite Hmodel. unfold ModelController.retrieve, arg. simpl.
    rewrite lookup_singleton_eq. unfold bind, lift, try_except, ret, Models.get. simpl.
    destruct (int_of_str E seg) as [n|]; [|done]. simpl.
    by destruct (row_get n (rows (table_of st M))).
  - rewrite Hmethods. apply model_methods_retrieve.
  - done.
Qed.

End Collections.

(** X14. What [POST /users] or [POST /posts] created stays retrievable: in
    a storage reached by serving requests, if the creation is answered with
    201, then after any further requests a [GET] of the collection path
    followed by a segment that denotes the id of the new record is answered
    with 200 and the very body of the 201 response. The id is the counter of
    the table at the time of the creation. *)
Theorem created_record_can_be_retrieved (E : runtime) (reqs : list http_request) (now0 : Z)
    (coll : string) (M : Model) (command rawpath : string) (hdrs : gmap string string)
    (bdy : string) (now : Z) (resp : Response.t) (st' : storage) :
  let st := (serve E reqs now0 ∅).2 in
  (coll = "users" /\ M = User) \/ (coll = "posts" /\ M = Post) ->
  py_upper command = "POST" ->
  Request.path (Request.init command rawpath (Some bdy) hdrs) = "/" +:+ coll ->
  _handle E command rawpath hdrs bdy now st = (Ok resp, st') ->
  Response.status resp = 201 ->
  forall more now1 rawpath2 bdy2 seg now2,
    Request.path (Request.init "GET" rawpath2 (Some bdy2) hdrs)
    = "/" +:+ coll +:+ "/" +:+ seg ->
    no_char "/" seg = true ->
    int_of_str E seg = Some (next_id (table_of st M)) ->
    exists resp2,
      _handle E "GET" rawpath2 hdrs bdy2 now2 (serve E more now1 st').2
      = (Ok resp2, (serve E more now1 st').2)
      /\ Response.status resp2 = 200
      /\ Response.body resp2 = Response.body resp.
Proof.
  intros st Hcoll Hcmd Hpath Hh H201 more now1 rawpath2 bdy2 seg now2 Hpath2 Hseg Hint.
  rewrite (handle_create E coll M _ _ _ _ now st Hcoll Hcmd Hpath) in Hh.
  destruct (Models.create E M _ now st) as [[i|e] st1] eqn:Hc.
  2: { injection Hh as <- <-. discriminate H201. }
  injection Hh as <- <-.
  apply (create_ok_form E) in Hc as (vals & -> & Hst1).
  assert (store_dense st1
          /\ forall name, rows (table_named st name) `prefix_of` rows (table_named st1 name))
    as [Hd1 _].
  { apply one_inserted_appends; [apply serve_dense|]. subst st1. by exists M, vals. }
  destruct (serve_appends E more now1 st1 Hd1) as [_ Hpre].
  specialize (Hpre (model_name M)). rewrite <- !table_of_named in Hpre.
  assert (row_get (next_id (table_of st M)) (rows (table_of (serve E more now1 st1).2 M))
          = Some vals) as Hget.
  { apply (row_get_prefix _ _ _ _ Hpre). subst st1. rewrite table_of_put_eq. simpl.
    apply row_get_put_eq. }
  rewrite (handle_retrieve E coll M "GET" _ _ _ seg now2 _ Hcoll eq_refl Hpath2 Hseg).
  rewrite Hint, Hget. eexists. split; [reflexivity|]. split; reflexivity.
Qed.

(** A user is created, then a comment and another user; [GET /users/1]
    gives the body of the first answer. *)
Lemma created_record_can_be_retrieved_witness :
  let more := [{| h_command := "POST"; h_path := "/posts/5/comments";
                  h_body := comment_body |};
               {| h_command := "POST"; h_path := "/users"; h_body := user_body |}] in
  exists resp st' resp2,
    _handle sample_runtime "POST" "/users" ∅ user_body 0 ∅ = (Ok resp, st')
    /\ Response.status resp = 201
    /\ _handle sample_runtime "GET" "/users/1" ∅ "" 3 (serve sample_runtime more 1 st').2
       = (Ok resp2, (serve sample_runtime more 1 st').2)
    /\ Response.status resp2 = 200
    /\ Response.body resp2 = Response.body resp.
Proof.
  intros more.
  assert (exists resp st',
            _handle sample_runtime "POST" "/users" ∅ user_body 0
              (serve sample_runtime [] 0 ∅).2 = (Ok resp, st')
            /\ Response.status resp = 201) as (resp & st' & Hh & H201).
  { eexists _, _. split; [vm_compute; reflexivity|reflexivity]. }
  assert (int_of_str sample_runtime "1"
          = Some (next_id (table_of (serve sample_runtime [] 0 ∅).2 User))) as Hint.
  { vm_compute. reflexivity. }
  assert (Request.path (Request.init "GET" "/users/1" (Some "") ∅)
          = "/" +:+ "users" +:+ "/" +:+ "1") as Hpath2 by reflexivity.
  assert (Request.path (Request.init "POST" "/users" (Some user_body) ∅)
          = "/" +:+ "users") as Hpath by reflexivity.
  assert (no_char "/" "1" = true) as Hseg by reflexivity.
  assert (py_upper "POST" = "POST") as Hcmd by reflexivity.
  destruct (created_record_can_be_retrieved sample_runtime [] 0 "users" User "POST" "/users" ∅
              user_body 0 resp st' (or_introl (conj eq_refl eq_refl)) Hcmd Hpath Hh H201
              more 1 "/users/1" "" "1" 3 Hpath2 Hseg Hint) as (resp2 & H2 & Hs & Hb).
  exists resp, st', resp2.
  exact (conj Hh (conj H201 (conj H2 (conj Hs Hb)))).
Defined.

(** ** The integration test, for every user *)

Section Integration.
Context (E : runtime).

Lemma call_on_no_params cls name func req :
  cc_methods cls !! name = Some func ->
  m_params func = [] ->
  call_on cls name req = m_body func {| c_request := req; c_model := cc_model cls |} ∅.
Proof.
  intros Hfunc Hparams. unfold call_on. rewrite Hfunc.
  apply call_method_bound; rewrite Hparams.
  - intros k [v Hv]. by rewrite lookup_empty in Hv.
  - intros p Hp. by apply elem_of_nil in Hp.
Qed.

(** [create] on the model of the tests when the name is a text and the age
    passes. *)
Lemma testuser_create_ok data name va now st :
  data !! "name" = Some (VStr name) ->
  Fields.validate E "age" (IntegerField false) (data !! "age") = Ok va ->
  exists vals,
    Models.create E TestUser data now st
    = (Ok {| inst_model := TestUser; inst_id := Some (next_id (table_of st TestUser));
             inst_attrs := vals |},
       Models.put_table TestUser
         {| rows := row_put (next_id (table_of st TestUser)) vals (rows (table_of st TestUser));
            next_id := next_id (table_of st TestUser) + 1 |} st)
    /\ vals !! "name" = Some (VStr name).
Proof.
  intros Hname Hage. unfold Models.create, Models.save.
  cbn [inst_model Models.construct inst_id].
  assert (forall k, k ∈ (schema TestUser).*1 ->
            inst_attrs (Models.construct TestUser data) !! k = data !! k) as Hlook.
  { intros k Hk. by apply construct_lookup. }
  unfold schema at 1. cbn [TestUser Models.validate_fields].
  rewrite !Hlook by (apply (bool_decide_unpack _); vm_compute; reflexivity).
  rewrite Hname, Hage.
  cbn [Fields.validate CharField auto_now required Fields.check_kind f_kind max_length
       result_bind].
  eexists. split; [reflexivity|].
  rewrite stamp_lookup_gen.
  replace (stamped "name" (schema TestUser)) with false by reflexivity.
  by rewrite lookup_insert_eq.
Qed.

End Integration.

(** X15. [test_full_flow] for every user: on the router of the integration
    test and the reset storage, a [POST /users] whose JSON body has a text
    [name] and an [age] that passes is answered 201, the user table then
    counts one record, and a following [GET /users] is answered 200 with the
    list of that one user, whose [name] is the one posted. The handlers of
    the test, which call the controller directly, do what the handlers
    built by [register_controller] do. *)
Theorem integration_flow (E : runtime) (hdrs : gmap string string) (bdy name : string)
    (va : option value) (now1 now2 : Z) (st0 : storage) :
  let req := Request.init "POST" "/users" (Some bdy) hdrs in
  let clean := (Models._clear_storage now1 st0).2 in
  Request.json E req !! "name" = Some (VStr name) ->
  Fields.validate E "age" (IntegerField false) (Request.json E req !! "age") = Ok va ->
  exists user st1,
    dispatch (integration_router E) req now1 clean
    = (Ok (Response.created E (Models.to_dict E user)), st1)
    /\ Response.status (Response.created E (Models.to_dict E user)) = 201
    /\ Models.count TestUser now2 st1 = (Ok 1, st1)
    /\ dispatch (integration_router E) (Request.init "GET" "/users" None hdrs) now2 st1
       = (Ok (Response.json E (VList [Models.to_dict E user]) 200), st1)
    /\ Models.attr user "name" = VStr name
    /\ (forall r, handle_create_user E r = register_controller (TestUserController E) "create" r)
    /\ (forall r, handle_list_users E r = register_controller (TestUserController E) "list" r).
Proof.
  intros req clean Hname Hage.
  destruct (testuser_create_ok E (Request.json E req) name va now1 clean Hname Hage)
    as (vals & Hcreate & Hvals).
  assert (dispatch (integration_router E) req
          = handle_create_user E (Request.with_path_params req ∅)) as Hpost by reflexivity.
  assert (dispatch (integration_router E) (Request.init "GET" "/users" None hdrs)
          = handle_list_users E
              (Request.with_path_params (Request.init "GET" "/users" None hdrs) ∅))
    as Hget by reflexivity.
  eexists _, _. split; [|split; [reflexivity|split; [|split; [|split; [|split]]]]].
  - rewrite Hpost. unfold handle_create_user.
    rewrite (call_on_no_params (TestUserController E) "create" (ModelController.create E))
      by (done || apply model_methods_create).
    unfold ModelController.create. simpl. unfold try_except, bind, ret, lift.
    rewrite json_call_ok. cbv beta iota.
    rewrite json_with_path_params. fold req. change (∅ : storage) with clean.
    rewrite Hcreate. reflexivity.
  - unfold Models.count. rewrite table_of_put_eq. simpl. reflexivity.
  - rewrite Hget. unfold handle_list_users.
    rewrite (call_on_no_params (TestUserController E) "list" (ModelController.list E))
      by (done || apply model_methods_list).
    unfold ModelController.list. simpl. unfold bind, ret, Models.all. simpl.
    rewrite table_of_put_eq. simpl. reflexivity.
  - unfold Models.attr. simpl. by rewrite Hvals.
  - intros r. unfold handle_create_user.
    rewrite (call_on_no_params (TestUserController E) "create" (ModelController.create E))
      by (done || apply model_methods_create).
    symmetry. apply register_controller_no_params; [apply model_methods_create|done].
  - intros r. unfold handle_list_users.
    rewrite (call_on_no_params (TestUserController E) "list" (ModelController.list E))
      by (done || apply model_methods_list).
    symmetry. apply register_controller_no_params; [apply model_methods_list|done].
Qed.

(** The user of [test_full_flow], with the body of scenario 1. *)
Lemma integration_flow_witness :
  exists user st1,
    dispatch (integration_router sample_runtime)
      (Request.init "POST" "/users" (Some user_body) ∅) 0 ∅
    = (Ok (Response.created sample_runtime (Models.to_dict sample_runtime user)), st1)
    /\ Models.count TestUser 1 st1 = (Ok 1, st1)
    /\ Models.attr user "name" = VStr "Alice".
Proof.
  assert (Request.json sample_runtime (Request.init "POST" "/users" (Some user_body) ∅)
            !! "name" = Some (VStr "Alice")) as Hname by (vm_compute; reflexivity).
  assert (Fields.validate sample_runtime "age" (IntegerField false)
            (Request.json sample_runtime (Request.init "POST" "/users" (Some user_body) ∅)
               !! "age") = Ok None) as Hage by (vm_compute; reflexivity).
  destruct (integration_flow sample_runtime ∅ user_body "Alice" None 0 1 ∅ Hname Hage)
    as (user & st1 & Hpost & _ & Hcount & _ & Hattr & _).
  exists user, st1. exact (conj Hpost (conj Hcount Hattr)).
Defined.

(** ** Which ids can be retrieved, and which bodies are accepted *)

Lemma dense_row_get {A} (rs : list (Z * A)) (base : nat) (n : Z) :
  rs.*1 = Z.of_nat <$> seq base (length rs) ->
  row_get n rs
  = if (Z.of_nat base <=? n) && (n <? Z.of_nat base + Z.of_nat (length rs))
    then snd <$> rs !! Z.to_nat (n - Z.of_nat base)
    else None.
Proof.
  revert base. induction rs as [|[j a] rs IH]; intros base Hd.
  - simpl. by destruct (_ && _).
  - simpl in Hd. injection Hd as -> Hd. cbn [row_get length].
    rewrite (IH (S base) Hd).
    destruct (Z.eqb_spec n (Z.of_nat base)) as [->|Hn].
    + destruct (Z.leb_spec (Z.of_nat base) (Z.of_nat base)); [|lia].
      destruct (Z.ltb_spec (Z.of_nat base) (Z.of_nat base + Z.of_nat (S (length rs))));
        [|lia].
      by rewrite Z.sub_diag.
    + destruct (Z.leb_spec (Z.of_nat base) n), (Z.leb_spec (Z.of_nat (S base)) n),
        (Z.ltb_spec n (Z.of_nat base + Z.of_nat (S (length rs)))),
        (Z.ltb_spec n (Z.of_nat (S base) + Z.of_nat (length rs)));
        simpl; try lia; try done.
      replace (Z.to_nat (n - Z.of_nat base)) with (S (Z.to_nat (n - Z.of_nat (S base))))
        by lia.
      done.
Qed.

Lemma dense_lookup_id {A} (rs : list (Z * A)) (base k : nat) (r : Z * A) :
  rs.*1 = Z.of_nat <$> seq base (length rs) ->
  rs !! k = Some r -> r.1 = Z.of_nat (base + k).
Proof.
  intros Hd Hk.
  assert (rs.*1 !! k = Some r.1) as H1 by (by rewrite list_lookup_fmap, Hk).
  rewrite Hd, list_lookup_fmap in H1.
  destruct (seq base (length rs) !! k) as [m|] eqn:Hs; [|done].
  apply lookup_seq in Hs as [-> _]. simpl in H1. congruence.
Qed.

(** When every field passes, the validation of the fields passes. *)
Lemma validate_fields_all_ok (E : runtime) fields vals :
  (forall name f, (name, f) ∈ fields ->
     exists v, Fields.validate E name f (vals !! name) = Ok v) ->
  exists m, Models.validate_fields E fields vals = Ok m.
Proof.
  induction fields as [|[name f] rest IH]; intros Hall; simpl; [by eexists|].
  destruct (Hall name f) as [v ->]; [by left|].
  destruct IH as [m ->]; [intros; apply Hall; by right|].
  simpl. by eexists.
Qed.

(** X16. In a storage reached by serving requests, [GET /users/<seg>] (and
    [GET /posts/<seg>]) with a segment that [int()] reads as [n] is answered
    200 with the [n]-th record of the table when [n] lies between 1 and the
    number of records, and 404 for every other integer, zero and the
    negative ones included; the storage is as it was. *)
Theorem retrieve_found_iff_in_range (E : runtime) (reqs : list http_request) (now0 : Z)
    (coll : string) (M : Model) (command rawpath : string) (hdrs : gmap string string)
    (bdy seg : string) (n now : Z) :
  let st := (serve E reqs now0 ∅).2 in
  let count := Z.of_nat (length (rows (table_of st M))) in
  (coll = "users" /\ M = User) \/ (coll = "posts" /\ M = Post) ->
  py_upper command = "GET" ->
  Request.path (Request.init command rawpath (Some bdy) hdrs)
  = "/" +:+ coll +:+ "/" +:+ seg ->
  no_char "/" seg = true ->
  int_of_str E seg = Some n ->
  exists resp,
    _handle E command rawpath hdrs bdy now st = (Ok resp, st)
    /\ (1 <= n <= count ->
        exists vals,
          rows (table_of st M) !! Z.to_nat (n - 1) = Some (n, vals)
          /\ resp = Response.json E (Models.to_dict E (Models.of_row M (n, vals))) 200
          /\ Response.status resp = 200)
    /\ (~ (1 <= n <= count) ->
        resp = Response.not_found E /\ Response.status resp = 404).
Proof.
  intros st count Hcoll Hcmd Hpath Hseg Hint.
  rewrite (handle_retrieve E coll M _ _ _ _ seg now st Hcoll Hcmd Hpath Hseg), Hint.
  pose proof (serve_dense E reqs now0 (model_name M)) as [Hd _].
  fold st in Hd. rewrite <- table_of_named in Hd.
  pose proof (dense_row_get _ 1 n Hd) as Hget.
  destruct (decide (1 <= n <= count)) as [Hin|Hout].
  - assert ((Z.of_nat 1 <=? n)
            && (n <? Z.of_nat 1 + Z.of_nat (length (rows (table_of st M)))) = true) as Hb.
    { apply andb_true_iff. rewrite Z.leb_le, Z.ltb_lt. unfold count in Hin. lia. }
    rewrite Hb in Hget.
    destruct (rows (table_of st M) !! Z.to_nat (n - Z.of_nat 1)) as [[j vals]|] eqn:Hk.
    + pose proof (dense_lookup_id _ _ _ _ Hd Hk) as Hj. simpl in Hj.
      assert (j = n) as -> by lia.
      rewrite Hget. simpl. eexists. split; [reflexivity|]. split; [|tauto].
      intros _. exists vals. split; [|done].
      by replace (Z.to_nat (n - 1)) with (Z.to_nat (n - Z.of_nat 1)) by lia.
    + apply lookup_ge_None in Hk. unfold count in Hin. lia.
  - assert ((Z.of_nat 1 <=? n)
            && (n <? Z.of_nat 1 + Z.of_nat (length (rows (table_of st M)))) = false) as Hb.
    { apply andb_false_iff. rewrite Z.leb_gt, Z.ltb_ge. unfold count in Hout. lia. }
    rewrite Hb in Hget. rewrite Hget. eexists. split; [reflexivity|]. split; [tauto|done].
Qed.

(** After one user was created, [GET /users/1] finds it and [GET /users/0]
    does not. *)
Lemma retrieve_found_iff_in_range_witness :
  exists resp,
    _handle sample_runtime "GET" "/users/0" ∅ "" 5
      (serve sample_runtime
         [{| h_command := "POST"; h_path := "/users"; h_body := user_body |}] 0 ∅).2
    = (Ok resp,
       (serve sample_runtime
          [{| h_command := "POST"; h_path := "/users"; h_body := user_body |}] 0 ∅).2)
    /\ Response.status resp = 404.
Proof.
  assert (py_upper "GET" = "GET") as Hcmd by reflexivity.
  assert (Request.path (Request.init "GET" "/users/0" (Some "") ∅)
          = "/" +:+ "users" +:+ "/" +:+ "0") as Hpath by reflexivity.
  assert (no_char "/" "0" = true) as Hseg by reflexivity.
  assert (int_of_str sample_runtime "0" = Some 0) as Hint by reflexivity.
  destruct (retrieve_found_iff_in_range sample_runtime
              [{| h_command := "POST"; h_path := "/users"; h_body := user_body |}] 0 "users" User "GET" "/users/0" ∅ "" "0" 0 5
              (or_introl (conj eq_refl eq_refl)) Hcmd Hpath Hseg Hint)
    as (resp & Hh & _ & Hout).
  exists resp. refine (conj Hh (proj2 (Hout _))). lia.
Defined.

(** X17. [POST /users] (and [POST /posts]) is answered 201 exactly when
    every field of the model accepts the value that the body gives it, and
    otherwise 400 with the storage as it was. *)
Theorem create_accepted_iff_valid (E : runtime) (coll : string) (M : Model)
    (command rawpath : string) (hdrs : gmap string string) (bdy : string)
    (now : Z) (st : storage) :
  let req := Request.init command rawpath (Some bdy) hdrs in
  (coll = "users" /\ M = User) \/ (coll = "posts" /\ M = Post) ->
  py_upper command = "POST" ->
  Request.path req = "/" +:+ coll ->
  exists resp st',
    _handle E command rawpath hdrs bdy now st = (Ok resp, st')
    /\ (Response.status resp = 201
        <-> forall name f, (name, f) ∈ schema M ->
              exists v, Fields.validate E name f (Request.json E req !! name) = Ok v)
    /\ (Response.status resp = 201 \/ (Response.status resp = 400 /\ st' = st)).
Proof.
  intros req Hcoll Hcmd Hpath.
  rewrite (handle_create E coll M _ _ _ _ now st Hcoll Hcmd Hpath). fold req.
  assert (forall name f, (name, f) ∈ schema M ->
            inst_attrs (Models.construct M (Request.json E req)) !! name
            = Request.json E req !! name) as Hlook.
  { intros name f Hin. apply construct_lookup.
    apply list_elem_of_fmap. by exists (name, f). }
  destruct (Models.create E M (Request.json E req) now st) as [[i|e] st'] eqn:Hc.
  - eexists _, _. split; [reflexivity|]. split; [|by left].
    split; [|done]. intros _ name f Hin.
    unfold Models.create, Models.save in Hc. cbn [inst_model Models.construct] in Hc.
    destruct (Models.validate_fields E (schema M) _) as [m|e] eqn:Hv; [|done].
    destruct (validate_fields_ok E _ _ _ _ _ Hv Hin) as [v Hval].
    exists v. by rewrite <- (Hlook name f Hin).
  - eexists _, _. split; [reflexivity|].
    pose proof Hc as Hc'. apply create_effect in Hc' as [_ ->].
    split; [|by right]. split; [done|]. intros Hall. exfalso.
    destruct (validate_fields_all_ok E (schema M)
                (inst_attrs (Models.construct M (Request.json E req)))) as [m Hm].
    { intros name f Hin. destruct (Hall name f Hin) as [v Hv]. exists v.
      by rewrite (Hlook name f Hin). }
    unfold Models.create, Models.save in Hc. cbn [inst_model Models.construct] in Hc.
    destruct (Models.validate_fields E (schema M) _) as [m'|e'] eqn:Hv; [done|].
    cbn [Models.construct inst_attrs] in Hm. congruence.
Qed.

(** A body that is not JSON gives no [name], so the user is refused. *)
Lemma create_accepted_iff_valid_witness :
  exists resp st',
    _handle sample_runtime "POST" "/users" ∅ "not json" 0 ∅ = (Ok resp, st')
    /\ (Response.status resp = 201 \/ (Response.status resp = 400 /\ st' = ∅)).
Proof.
  assert (py_upper "POST" = "POST") as Hcmd by reflexivity.
  assert (Request.path (Request.init "POST" "/users" (Some "not json") ∅)
          = "/" +:+ "users") as Hpath by reflexivity.
  destruct (create_accepted_iff_valid sample_runtime "users" User "POST" "/users" ∅
              "not json" 0 ∅ (or_introl (conj eq_refl eq_refl)) Hcmd Hpath)
    as (resp & st' & Hh & _ & Hor).
  exists resp, st'. exact (conj Hh Hor).
Defined.
